(** * A verification development for the Java call-graph extractor

    The development embeds the four Python modules of the repository
    ([helpers.py], [call_graph.py], [extract_java_project_call_graph.py] and
    [extract_multi_java_project_call_graphs.py]) and checks the statements of
    the design specification against them.

    Conventions of the embedding:
    - Python exceptions are values of [exn]; a function that can raise returns
      a [result].
    - A Python [dict] is an association list in insertion order ([PyDict]);
      a Python [set] of strings is a [gset string].
    - External collaborators (pathlib, tree-sitter, multilspy, networkx, the
      thread pool and the file system) are modelled at the interface the
      source uses; what the file system, the parser and the language server
      answer is read from a [World]. *)

From Stdlib Require Import ZArith Lia Ascii String Sorted.
From stdpp Require Import gmap strings list.

Local Open Scope string_scope.
Local Open Scope list_scope.

(** ** Exceptions and fallible computations *)

Inductive exn : Type :=
  | IndexError
  | ValueError
  | OSError (msg : string)
  | SystemExit (msg : string)
  | OtherError (msg : string).

Inductive result (A : Type) : Type :=
  | Ok (a : A)
  | Raise (e : exn).
Arguments Ok {A} a.
Arguments Raise {A} e.

Global Instance result_bind : MBind result := fun A B k m =>
  match m with
  | Ok a => k a
  | Raise e => Raise e
  end.
Global Instance result_ret : MRet result := fun A a => Ok a.

(** [for x in xs: acc = body(acc, x)], stopping at the first exception. *)
Fixpoint for_each {A S} (xs : list A) (body : S -> A -> result S) (acc : S)
  : result S :=
  match xs with
  | [] => Ok acc
  | x :: rest => acc' ← body acc x; for_each rest body acc'
  end.

(** [xs[0]] *)
Definition first_item {A} (xs : list A) : result A :=
  match xs with
  | [] => Raise IndexError
  | x :: _ => Ok x
  end.

Definition is_ok {A} (r : result A) : bool :=
  match r with Ok _ => true | Raise _ => false end.

(** ** Strings *)

(** [sep.join(items)] *)
Fixpoint join (sep : string) (items : list string) : string :=
  match items with
  | [] => ""
  | [x] => x
  | x :: rest => x +:+ sep +:+ join sep rest
  end.

(** [s.split(c)] for a one-character separator. *)
Fixpoint split_on (c : Ascii.ascii) (s : string) : list string :=
  match s with
  | EmptyString => [EmptyString]
  | String a s' =>
      if Ascii.eqb a c then EmptyString :: split_on c s'
      else match split_on c s' with
           | [] => [String a EmptyString]
           | h :: t => String a h :: t
           end
  end.

(** [s.rfind(c)], counted from position [i] of the first character. *)
Fixpoint rfind_from (c : Ascii.ascii) (s : string) (i : nat) : option nat :=
  match s with
  | EmptyString => None
  | String a s' =>
      match rfind_from c s' (S i) with
      | Some j => Some j
      | None => if Ascii.eqb a c then Some i else None
      end
  end.

(** [s[n:]] *)
Fixpoint drop_chars (n : nat) (s : string) : string :=
  match n, s with
  | O, _ => s
  | S n', String _ s' => drop_chars n' s'
  | S _, EmptyString => EmptyString
  end.

(** [s.startswith(p)] *)
Definition startswith (p s : string) : bool := String.prefix p s.

(** Truth value of a Python string: the empty string is falsy. *)
Definition str_truthy (s : string) : bool :=
  match s with EmptyString => false | _ => true end.

(** ** pathlib

    A POSIX path is its root and its components.  The root is empty for a
    relative path, one slash, or two slashes: a path string that starts with
    exactly two slashes keeps them, three or more count as one. *)

Inductive Root : Type :=
  | NoRoot
  | OneSlash
  | TwoSlashes.

Global Instance Root_eq_dec : EqDecision Root.
Proof. solve_decision. Defined.

Record Path : Type := mkPath { anchor : Root; parts : list string }.

Global Instance Path_eq_dec : EqDecision Path.
Proof. solve_decision. Defined.

(** [path.root] *)
Definition root_str (r : Root) : string :=
  match r with
  | NoRoot => ""
  | OneSlash => "/"
  | TwoSlashes => "//"
  end.

(** [path.is_absolute()] *)
Definition absolute (p : Path) : bool :=
  match anchor p with
  | NoRoot => false
  | _ => true
  end.

(** [str(path)] *)
Definition path_str (p : Path) : string :=
  match anchor p, parts p with
  | NoRoot, [] => "."
  | r, ps => root_str r +:+ join "/" ps
  end.

(** The root of a path string. *)
Definition root_of_str (s : string) : Root :=
  if startswith "/" s then
    if startswith "//" s && negb (startswith "///" s) then TwoSlashes
    else OneSlash
  else NoRoot.

(** [Path(s)]: empty and ["."] components are dropped. *)
Definition Path_of_str (s : string) : Path :=
  mkPath (root_of_str s)
         (filter (fun c => c <> "" /\ c <> ".") (split_on "/" s)).

(** [path / s] *)
Definition joinpath (p : Path) (s : string) : Path :=
  let q := Path_of_str s in
  if absolute q then q else mkPath (anchor p) (parts p ++ parts q).

(** [path.name] *)
Definition path_name (p : Path) : string := List.last (parts p) "".

(** [path.stem]: the name without its last suffix. *)
Definition path_stem (p : Path) : string :=
  let name := path_name p in
  match rfind_from "." name 0 with
  | Some i =>
      if (0 <? i)%nat && (i <? String.length name - 1)%nat
      then String.substring 0 i name
      else name
  | None => name
  end.

Fixpoint strip_prefix (pre l : list string) : option (list string) :=
  match pre, l with
  | [], _ => Some l
  | a :: pre', b :: l' =>
      if decide (a = b) then strip_prefix pre' l' else None
  | _ :: _, [] => None
  end.

(** [path.relative_to(root)]: raises [ValueError] unless the two paths have
    the same root and [root]'s components start those of [path]. *)
Definition relative_to (path root : Path) : result Path :=
  if bool_decide (anchor path = anchor root) then
    match strip_prefix (parts root) (parts path) with
    | Some rest => Ok (mkPath NoRoot rest)
    | None => Raise ValueError
    end
  else Raise ValueError.

(** ** helpers.py *)

(** [rel]: only [ValueError] is caught. *)
Definition rel (root path : Path) : result string :=
  match relative_to path root with
  | Ok r => Ok (path_str r)
  | Raise ValueError => Ok (path_str path)
  | Raise e => Raise e
  end.

(** [path] lies under [root]: same root, and the components of [root] start
    those of [path]. *)
Definition lies_under (root path : Path) : Prop :=
  anchor path = anchor root /\ parts root `prefix_of` parts path.

(** ** Python dictionaries

    A [dict] keeps its keys in insertion order; assigning to a key that is
    already present replaces the value where it stands. *)

Section PyDict.
Context {K V : Type} `{EqDecision K}.

(** [d[k] = v] *)
Fixpoint dict_set (d : list (K * V)) (k : K) (v : V) : list (K * V) :=
  match d with
  | [] => [(k, v)]
  | (k', v') :: d' =>
      if decide (k' = k) then (k, v) :: d' else (k', v') :: dict_set d' k v
  end.

(** [d.get(k)] *)
Fixpoint dict_get (d : list (K * V)) (k : K) : option V :=
  match d with
  | [] => None
  | (k', v') :: d' => if decide (k' = k) then Some v' else dict_get d' k
  end.

(** [k in d] *)
Definition dict_has (d : list (K * V)) (k : K) : bool :=
  match dict_get d k with Some _ => true | None => false end.

Definition dict_keys (d : list (K * V)) : list K := map fst d.
Definition dict_values (d : list (K * V)) : list V := map snd d.
End PyDict.

Abbreviation dict K V := (list (K * V)) (only parsing).

(** ** tree-sitter

    A syntax-tree node with the attributes the source reads.  Children carry
    their field name when the grammar gives one.

    The queries of the source all have the shape "a node of one type with
    some children of given field and type", each part possibly captured.  A
    pattern matches a node of its type that has, for every child pattern, a
    child of that field and type (the first such child is the one captured).
    [captures] returns the captures of all matches in the order of the
    start byte of the captured node, as tree-sitter's query cursor does. *)

#[local] Set Warnings "-register-all".
Inductive Node : Type := mkNode {
  node_type : string;
  start_byte : Z;
  end_byte : Z;
  start_point : Z * Z;
  end_point : Z * Z;
  node_text : string;
  children : list (option string * Node)
}.

(** A query pattern [(pat_type field: (cp_type) @cp_capture ...) @pat_capture]:
    the shape of all four queries of the source. *)
Record ChildPattern : Type := {
  cp_field : option string;
  cp_type : string;
  cp_capture : string
}.

Record Pattern : Type := {
  pat_type : string;
  pat_children : list ChildPattern;
  pat_capture : option string
}.

Definition Query : Type := list Pattern.

Definition child_matches (cp : ChildPattern) (c : option string * Node) : bool :=
  bool_decide (node_type c.2 = cp_type cp)
  && match cp_field cp with
     | None => true
     | Some f => bool_decide (c.1 = Some f)
     end.

Definition match_child (n : Node) (cp : ChildPattern) : option (Node * string) :=
  match List.filter (child_matches cp) (children n) with
  | c :: _ => Some (c.2, cp_capture cp)
  | [] => None
  end.

(** The captures of one pattern at one node: the node itself when the pattern
    captures it, then the captured children in pattern order. *)
Definition match_pattern (n : Node) (p : Pattern) : list (Node * string) :=
  if bool_decide (node_type n = pat_type p) then
    match mapM (match_child n) (pat_children p) with
    | Some caps =>
        match pat_capture p with Some c => [(n, c)] | None => [] end ++ caps
    | None => []
    end
  else [].

(** The captures of every match in the subtree of a node, match by match:
    the matches at the node itself, then those in its children. *)
Fixpoint match_captures (q : Query) (n : Node) : list (Node * string) :=
  List.flat_map (match_pattern n) q
  ++ List.flat_map (fun c => match_captures q c.2) (children n).

(** A capture put into a list that is ordered by start byte, before the
    first capture that does not start earlier. *)
Fixpoint insert_capture (c : Node * string) (l : list (Node * string))
  : list (Node * string) :=
  match l with
  | [] => [c]
  | d :: l' =>
      if (start_byte c.1 <=? start_byte d.1)%Z then c :: l
      else d :: insert_capture c l'
  end.

(** [query.captures(node)]: the captures of every match in the subtree of
    [node], [node] included.  The cursor returns them ordered by the start
    byte of the captured node; captures that start at the same byte (a
    constructor without modifiers and its name) stay in the order of
    [match_captures]. *)
Definition captures (q : Query) (n : Node) : list (Node * string) :=
  foldr insert_capture [] (match_captures q n).

(** [[n for n, c in caps if c == name]] *)
Definition captured (name : string) (caps : list (Node * string)) : list Node :=
  map fst (List.filter (fun nc => bool_decide (nc.2 = name)) caps).

(** ** helpers.py, continued *)

Definition text (node : Node) : string := node_text node.

Definition pkg_name (tree : Node) (query : Query) : option string :=
  match captures query tree with
  | [] => None
  | (n, _) :: _ => Some (text n)
  end.

Definition class_stack (byte_offset : Z) (cls_nodes : list Node) (query : Query)
  : result (list string) :=
  for_each cls_nodes
    (fun stack cls =>
       if (start_byte cls <=? byte_offset)%Z && (byte_offset <=? end_byte cls)%Z
       then
         name_node ← first_item (captured "cls_name" (captures query cls));
         Ok (stack ++ [text name_node])
       else Ok stack)
    [].

(** ** call_graph.py *)

Record CallSite : Type := {
  target_simple : string;
  cs_file_path : Path;
  cs_line : Z;
  cs_column : Z
}.

Record FunctionInfo : Type := {
  fqn : string;
  file_path : string;
  start_line : Z;
  end_line : Z;
  calls : gset string;
  unresolved_sites : list CallSite
}.

(** networkx's [DiGraph]: the node dictionary ([G.nodes], each node with its
    attributes, none for a node that only an edge introduced) and the
    successor dictionary ([G.adj]). *)
Record NodeAttrs : Type := {
  attr_file : string;
  attr_start : Z;
  attr_end : Z
}.

Record DiGraph : Type := {
  g_node : dict string (option NodeAttrs);
  g_succ : dict string (list string)
}.

Definition empty_graph : DiGraph := {| g_node := []; g_succ := [] |}.

(** [G.add_node(n, file=..., start=..., end=...)] *)
Definition add_node (G : DiGraph) (n : string) (a : NodeAttrs) : DiGraph :=
  if dict_has (g_succ G) n
  then {| g_node := dict_set (g_node G) n (Some a); g_succ := g_succ G |}
  else {| g_node := dict_set (g_node G) n (Some a);
          g_succ := dict_set (g_succ G) n [] |}.

(** The implicit node creation of [add_edge]. *)
Definition touch_node (G : DiGraph) (n : string) : DiGraph :=
  if dict_has (g_succ G) n then G
  else {| g_node := dict_set (g_node G) n None;
          g_succ := dict_set (g_succ G) n [] |}.

(** [G.add_edge(u, v)] *)
Definition add_edge (G : DiGraph) (u v : string) : DiGraph :=
  let G1 := touch_node (touch_node G u) v in
  let nbrs := default [] (dict_get (g_succ G1) u) in
  {| g_node := g_node G1;
     g_succ := dict_set (g_succ G1) u
                 (if bool_decide (v ∈ nbrs) then nbrs else nbrs ++ [v]) |}.

(** [list(G.nodes)] and [list(G.edges)] *)
Definition graph_nodes (G : DiGraph) : list string := dict_keys (g_node G).
Definition graph_edges (G : DiGraph) : list (string * string) :=
  List.flat_map (fun un => map (fun v => (un.1, v)) un.2) (g_succ G).

Definition build_graph (infos : dict string FunctionInfo) : DiGraph :=
  fold_left
    (fun G info =>
       let G1 := add_node G (fqn info)
                   {| attr_file := file_path info;
                      attr_start := start_line info;
                      attr_end := end_line info |} in
       fold_left (fun G2 callee => add_edge G2 (fqn info) callee)
                 (elements (calls info)) G1)
    (dict_values infos) empty_graph.

(** [write_graph_output] serialises the node and edge lists; what is written
    to [call_graph.json] is this document. *)
Record GraphDocument : Type := {
  doc_nodes : list (string * option NodeAttrs);
  doc_edges : list (string * string)
}.

Definition graph_document (G : DiGraph) : GraphDocument :=
  {| doc_nodes := g_node G; doc_edges := graph_edges G |}.

(** ** multilspy

    A definition location as the source reads it: a [Location] carries [uri]
    and [range], a [LocationLink] carries [targetUri] and [targetRange].  A
    range that is present is a non-empty dictionary. *)

Record LspPosition : Type := { pos_line : option Z }.
Record LspRange : Type := { range_start : option LspPosition }.
Record Location : Type := {
  loc_uri : option string;
  loc_targetUri : option string;
  loc_range : option LspRange;
  loc_targetRange : option LspRange
}.

(** The answer to one [request_definition]: an exception (a protocol error, a
    timeout), or the list of locations ([None] and the empty list read the
    same in the source and are both the empty list here). *)
Inductive LspReply : Type :=
  | LspRaises
  | LspLocations (locs : list Location).

Record LspRequest : Type := {
  req_file : string;
  req_line : Z;
  req_column : Z
}.

(** ** The environment of a run *)

Record World : Type := {
  (** [path.is_dir()] *)
  is_dir : Path -> bool;
  (** [list(project_root.rglob("*.java"))] *)
  rglob_java : Path -> list Path;
  (** [PARSER.parse(java_path.read_bytes()).root_node] *)
  read_and_parse : Path -> result Node;
  (** [path.resolve()] *)
  resolve : Path -> Path;
  (** whether [import multilspy] succeeded *)
  _MULTILSPY_AVAILABLE : bool;
  (** the language server started for a project root *)
  request_definition : Path -> LspRequest -> LspReply;
  (** [os.mkdir(dir)] for the i-th project of a multi-project run *)
  os_mkdir : nat -> Path -> result unit;
  (** the file writes of [write_graph_output] for the i-th project *)
  write_files : nat -> Path -> GraphDocument -> result unit
}.

(** ** extract_java_project_call_graph.py *)

Definition PACKAGE_QUERY : Query :=
  [ {| pat_type := "package_declaration";
       pat_children := [ {| cp_field := None; cp_type := "scoped_identifier";
                            cp_capture := "pkg_name" |} ];
       pat_capture := None |} ].

Definition METHOD_QUERY : Query :=
  [ {| pat_type := "method_declaration";
       pat_children := [ {| cp_field := Some "name"; cp_type := "identifier";
                            cp_capture := "meth_name" |};
                         {| cp_field := Some "body"; cp_type := "block";
                            cp_capture := "body" |} ];
       pat_capture := Some "meth" |};
    {| pat_type := "constructor_declaration";
       pat_children := [ {| cp_field := Some "name"; cp_type := "identifier";
                            cp_capture := "meth_name" |};
                         {| cp_field := Some "body"; cp_type := "constructor_body";
                            cp_capture := "body" |} ];
       pat_capture := Some "meth" |} ].

Definition CALL_QUERY : Query :=
  [ {| pat_type := "method_invocation";
       pat_children := [ {| cp_field := Some "name"; cp_type := "identifier";
                            cp_capture := "callee" |} ];
       pat_capture := None |} ].

Definition CLASS_QUERY : Query :=
  [ {| pat_type := "class_declaration";
       pat_children := [ {| cp_field := Some "name"; cp_type := "identifier";
                            cp_capture := "cls_name" |} ];
       pat_capture := None |} ].

(** [info.calls.add(c)] and [info.unresolved_sites.append(cs)] *)
Definition add_call (info : FunctionInfo) (c : string) : FunctionInfo :=
  {| fqn := fqn info; file_path := file_path info;
     start_line := start_line info; end_line := end_line info;
     calls := {[ c ]} ∪ calls info;
     unresolved_sites := unresolved_sites info |}.

Definition append_site (info : FunctionInfo) (cs : CallSite) : FunctionInfo :=
  {| fqn := fqn info; file_path := file_path info;
     start_line := start_line info; end_line := end_line info;
     calls := calls info;
     unresolved_sites := unresolved_sites info ++ [cs] |}.

(** The fqn of a declaration, lines 86 to 92 of [collect_infos]. *)
Definition fqn_of (pkg : option string) (classes : list string)
    (java_path : Path) (name : string) : string :=
  let classes := match classes with [] => [path_stem java_path] | _ => classes end in
  let fqn_parts :=
    match pkg with
    | Some p => if str_truthy p then [p] else []
    | None => []
    end in
  let fqn_parts :=
    fqn_parts ++ match classes with [] => ["<top>"] | _ => classes end in
  let fqn_parts := fqn_parts ++ [name] in
  join "." fqn_parts.

(** The body of the call-site loop, lines 102 to 114 of [collect_infos]. *)
Definition record_call (w : World) (java_path : Path) (use_lsp : bool)
    (info : FunctionInfo) (callee_node : Node) : FunctionInfo :=
  let simple := text callee_node in
  if use_lsp then
    append_site info
      {| target_simple := simple;
         cs_file_path := resolve w java_path;
         cs_line := (start_point callee_node).1;
         cs_column := (start_point callee_node).2 |}
  else add_call info simple.

(** The body of the inner loop of [collect_infos]: the record of one
    [@meth] capture. *)
Definition collect_method (w : World) (project_root java_path : Path)
    (use_lsp : bool) (pkg : option string) (cls_nodes : list Node)
    (node : Node) : result FunctionInfo :=
  name_node ← first_item (captured "meth_name" (captures METHOD_QUERY node));
  body_node ← first_item (captured "body" (captures METHOD_QUERY node));
  classes ← class_stack (start_byte node) cls_nodes CLASS_QUERY;
  let fqn := fqn_of pkg classes java_path (text name_node) in
  file ← rel project_root java_path;
  let info := {| fqn := fqn; file_path := file;
                 start_line := (start_point name_node).1;
                 end_line := (end_point node).1;
                 calls := ∅; unresolved_sites := [] |} in
  Ok (fold_left (record_call w java_path use_lsp)
        (map fst (captures CALL_QUERY body_node)) info).

(** The body of the outer loop: one Java file. *)
Definition collect_file (w : World) (project_root : Path) (use_lsp : bool)
    (infos : dict string FunctionInfo) (java_path : Path)
  : result (dict string FunctionInfo) :=
  tree ← read_and_parse w java_path;
  let pkg := pkg_name tree PACKAGE_QUERY in
  let cls_nodes := map fst (captures CLASS_QUERY tree) in
  for_each (captured "meth" (captures METHOD_QUERY tree))
    (fun infos node =>
       info ← collect_method w project_root java_path use_lsp pkg cls_nodes node;
       Ok (dict_set infos (fqn info) info))
    infos.

Definition collect_infos (w : World) (project_root : Path) (use_lsp : bool)
  : result (dict string FunctionInfo) :=
  for_each (rglob_java w project_root) (collect_file w project_root use_lsp) [].

(** The definition index of [resolve_with_lsp]:
    absolute path -> (start line, end line) -> fqn. *)
Definition build_def_index (w : World) (infos : dict string FunctionInfo)
    (project_root : Path) : dict Path (dict (Z * Z) string) :=
  fold_left
    (fun def_index info =>
       let abs_path := resolve w (joinpath project_root (file_path info)) in
       let ranges := default [] (dict_get def_index abs_path) in
       dict_set def_index abs_path
         (dict_set ranges (start_line info, end_line info) (fqn info)))
    (dict_values infos) [].

Definition locate_in (ranges : dict (Z * Z) string) (line0 : Z) : option string :=
  match List.filter (fun r => (r.1.1 <=? line0)%Z && (line0 <=? r.1.2)%Z) ranges with
  | r :: _ => Some r.2
  | [] => None
  end.

Definition locate_fqn (def_index : dict Path (dict (Z * Z) string))
    (abs_path : Path) (line0 : Z) : option string :=
  locate_in (default [] (dict_get def_index abs_path)) line0.

(** [loc.get("uri") or loc.get("targetUri")] *)
Definition location_uri (loc : Location) : option string :=
  match loc_uri loc with
  | Some u => if str_truthy u then Some u else loc_targetUri loc
  | None => loc_targetUri loc
  end.

(** [(rng or {}).get("start", {}).get("line")] with
    [rng = loc.get("range") or loc.get("targetRange")] *)
Definition location_line (loc : Location) : option Z :=
  let rng := match loc_range loc with
             | Some r => Some r
             | None => loc_targetRange loc
             end in
  match rng with
  | Some r => match range_start r with
              | Some p => pos_line p
              | None => None
              end
  | None => None
  end.

(** What one call site adds to [info.calls]: [None] for every [continue]. *)
Definition site_target (w : World) (def_index : dict Path (dict (Z * Z) string))
    (reply : LspReply) (cs : CallSite) : option string :=
  match reply with
  | LspRaises => None
  | LspLocations [] => None
  | LspLocations (loc :: _) =>
      match location_uri loc with
      | None => None
      | Some uri =>
          if str_truthy uri && startswith "file://" uri then
            let abs_def := resolve w (Path_of_str (drop_chars 7 uri)) in
            match location_line loc with
            | None => None
            | Some line0 =>
                match locate_fqn def_index abs_def line0 with
                | Some fqn => Some (if str_truthy fqn then fqn else target_simple cs)
                | None => Some (target_simple cs)
                end
            end
          else None
      end
  end.

(** The request of one call site; [rel] is evaluated inside the [try]. *)
Definition site_request (project_root : Path) (cs : CallSite) : result LspRequest :=
  file ← rel project_root (cs_file_path cs);
  Ok {| req_file := file; req_line := cs_line cs + 1; req_column := cs_column cs |}.

(** One iteration of the call-site loop: the new [info.calls] and the
    requests issued so far. *)
Definition resolve_site (w : World) (project_root : Path)
    (def_index : dict Path (dict (Z * Z) string))
    (st : gset string * list LspRequest) (cs : CallSite)
  : gset string * list LspRequest :=
  match site_request project_root cs with
  | Raise _ => st
  | Ok req =>
      let reply := request_definition w project_root req in
      match site_target w def_index reply cs with
      | Some t => ({[ t ]} ∪ st.1, st.2 ++ [req])
      | None => (st.1, st.2 ++ [req])
      end
  end.

(** The resolution loop over one record, followed by the clean-up of its
    pending sites. *)
Definition resolve_info (w : World) (project_root : Path)
    (def_index : dict Path (dict (Z * Z) string))
    (info : FunctionInfo) (log : list LspRequest)
  : FunctionInfo * list LspRequest :=
  let st := fold_left (resolve_site w project_root def_index)
              (unresolved_sites info) (calls info, log) in
  ({| fqn := fqn info; file_path := file_path info;
      start_line := start_line info; end_line := end_line info;
      calls := st.1; unresolved_sites := [] |}, st.2).

Fixpoint resolve_all (w : World) (project_root : Path)
    (def_index : dict Path (dict (Z * Z) string))
    (infos : dict string FunctionInfo) (log : list LspRequest)
  : dict string FunctionInfo * list LspRequest :=
  match infos with
  | [] => ([], log)
  | (k, info) :: rest =>
      let '(info', log1) := resolve_info w project_root def_index info log in
      let '(rest', log2) := resolve_all w project_root def_index rest log1 in
      ((k, info') :: rest', log2)
  end.

Definition MULTILSPY_MISSING : string :=
  "--lsp requested but multilspy not installed. Run: pip install multilspy".

(** [resolve_with_lsp]: the records after resolution and the log of the
    definition requests sent to the server.  The server session is its
    [request_definition]; creating, starting and stopping it are not
    modelled. *)
Definition resolve_with_lsp (w : World) (infos : dict string FunctionInfo)
    (project_root : Path)
  : result (dict string FunctionInfo) * list LspRequest :=
  if negb (_MULTILSPY_AVAILABLE w) then (Raise (SystemExit MULTILSPY_MISSING), [])
  else
    let def_index := build_def_index w infos project_root in
    let '(infos', log) := resolve_all w project_root def_index infos [] in
    (Ok infos', log).

Definition extract_java_project_call_graph (w : World) (project_root : Path)
    (use_lsp : bool) : result DiGraph * list LspRequest :=
  if negb (is_dir w project_root)
  then (Raise (SystemExit ("Not a directory: " +:+ path_str project_root)), [])
  else
    match collect_infos w project_root use_lsp with
    | Raise e => (Raise e, [])
    | Ok infos =>
        if use_lsp then
          match resolve_with_lsp w infos project_root with
          | (Raise e, log) => (Raise e, log)
          | (Ok infos', log) => (Ok (build_graph infos'), log)
          end
        else (Ok (build_graph infos), [])
    end.

(** ** Events of a run: what the scripts print and write, and what the
    worker threads do. *)

Inductive Event : Type :=
  | Started (i : nat)                      (* a worker thread takes up task i *)
  | Finished (i : nat)                     (* the pipeline of task i returned or raised *)
  | PrintedError (e : exn)                 (* print(error) *)
  | PrintedFailure (dir : Path)            (* print("Failed to write graph for ...") *)
  | WroteGraph (i : nat) (dir : Path) (doc : GraphDocument)
  | PrintedWrote (dir : Path).             (* print("Wrote ... ✔") *)

Global Instance exn_eq_dec : EqDecision exn.
Proof. solve_decision. Defined.

(** [main] of extract_java_project_call_graph.py (the printing of the root
    functions is left out). *)
Definition main (w : World) (project : Path) (lsp : bool) (output : Path)
  : list Event * result unit :=
  match (extract_java_project_call_graph w (resolve w project) lsp).1 with
  | Raise e => ([], Raise e)
  | Ok G =>
      let output := resolve w output in
      match write_files w 0 output (graph_document G) with
      | Raise e => ([], Raise e)
      | Ok _ => ([WroteGraph 0 output (graph_document G); PrintedWrote output], Ok tt)
      end
  end.

(** ** extract_multi_java_project_call_graphs.py *)

Module Multi.

Record ThreadPoolExecutor : Type := { max_workers : Z }.

(** [ThreadPoolExecutor(max_workers=n)] *)
Definition new_executor (n : Z) : result ThreadPoolExecutor :=
  if (n <=? 0)%Z then Raise ValueError else Ok {| max_workers := n |}.

(** The default value of the [executor] parameter of
    [async_extract_java_project_call_graph], created once when the
    function is defined. *)
Definition DEFAULT_EXECUTOR : ThreadPoolExecutor := {| max_workers := 4 |}.

(** A task: the pipeline call handed to [loop.run_in_executor]. *)
Record Task : Type := {
  task_root : Path;
  task_use_lsp : bool;
  task_executor : ThreadPoolExecutor
}.

Definition async_extract_java_project_call_graph (project_root : Path)
    (use_lsp : bool) (executor : option ThreadPoolExecutor) : Task :=
  {| task_root := project_root;
     task_use_lsp := use_lsp;
     task_executor := default DEFAULT_EXECUTOR executor |}.

(** The command line: [projects] holds [Path(line.strip()).resolve()] for
    the lines of the project list. *)
Record Args : Type := {
  projects : list Path;
  lsp : bool;
  output : Path;
  arg_max_workers : Z
}.

(** Lines 31 to 35 of [main]: one task per line, created without an
    [executor] argument. *)
Definition main_tasks (args : Args) : list Task :=
  map (fun project_dir =>
         async_extract_java_project_call_graph project_dir (lsp args) None)
      (projects args).

Definition task_result (w : World) (t : Task) : result DiGraph :=
  (extract_java_project_call_graph w (task_root t) (task_use_lsp t)).1.

(** The thread pool: work items wait in submission order, a free worker
    takes the oldest one, and a running item finishes at any time.  All
    tasks of a run are on one executor. *)
Record PoolState : Type := {
  queued : list nat;
  running : list nat;
  completed : list nat
}.

Definition init_pool (n : nat) : PoolState :=
  {| queued := seq 0 n; running := []; completed := [] |}.

Inductive pool_step (tasks : list Task) : PoolState -> Event -> PoolState -> Prop :=
  | step_start s i q t :
      queued s = i :: q ->
      tasks !! i = Some t ->
      (Z.of_nat (length (running s)) < max_workers (task_executor t))%Z ->
      pool_step tasks s (Started i)
        {| queued := q; running := running s ++ [i]; completed := completed s |}
  | step_finish s i :
      i ∈ running s ->
      pool_step tasks s (Finished i)
        {| queued := queued s;
           running := List.filter (fun j => negb (Nat.eqb j i)) (running s);
           completed := completed s ++ [i] |}.

Inductive pool_run (tasks : list Task) : PoolState -> list Event -> PoolState -> Prop :=
  | run_done s : pool_run tasks s [] s
  | run_step s e s' tr s'' :
      pool_step tasks s e s' ->
      pool_run tasks s' tr s'' ->
      pool_run tasks s (e :: tr) s''.

(** Lines 38 to 54 of [main]: the output loop over the gathered results,
    [i] counting the projects already handled. *)
Fixpoint dispatch (w : World) (output : Path) (i : nat)
    (results : list (DiGraph * Path)) : list Event * result unit :=
  match results with
  | [] => ([], Ok tt)
  | (graph, project_root) :: rest =>
      let project_base_name := path_name project_root in
      let project_call_graph_dir := joinpath output project_base_name in
      let after_mkdir :=
        match os_mkdir w i project_call_graph_dir with
        | Ok _ => Ok []
        | Raise (OSError m) => Ok [PrintedError (OSError m)]
        | Raise e => Raise e
        end in
      match after_mkdir with
      | Raise e => ([], Raise e)
      | Ok evs =>
          let doc := graph_document graph in
          match write_files w i project_call_graph_dir doc with
          | Ok _ =>
              let '(evs', st) := dispatch w output (S i) rest in
              (evs ++ [WroteGraph i project_call_graph_dir doc;
                       PrintedWrote project_call_graph_dir] ++ evs', st)
          | Raise (OSError m) =>
              (evs ++ [PrintedFailure project_call_graph_dir;
                       PrintedError (OSError m)],
               Raise (SystemExit ""))
          | Raise e => (evs, Raise e)
          end
      end
  end.

(** [await asyncio.gather( *tasks )] returns the results in task order
    once every task has finished. *)
Definition gathered (w : World) (tasks : list Task)
  : option (list (DiGraph * Path)) :=
  mapM (fun t => match task_result w t with
                 | Ok g => Some (g, task_root t)
                 | Raise _ => None
                 end) tasks.

(** The runs of [main]: the events in the order they happen and how the
    coroutine ends.
    - [main_pool_error]: the [with ThreadPoolExecutor(...)] line raises.
    - [main_gather_raises]: the first task to finish with an exception makes
      [gather] raise it in [main].
    - [main_dispatch]: all tasks finished without exception and the output
      loop runs. *)
Inductive main (w : World) (args : Args) : list Event -> result unit -> Prop :=
  | main_pool_error e :
      new_executor (arg_max_workers args) = Raise e ->
      main w args [] (Raise e)
  | main_gather_raises pool tr s i t e :
      new_executor (arg_max_workers args) = Ok pool ->
      pool_run (main_tasks args) (init_pool (length (main_tasks args)))
               (tr ++ [Finished i]) s ->
      main_tasks args !! i = Some t ->
      task_result w t = Raise e ->
      (forall j t', Finished j ∈ tr -> main_tasks args !! j = Some t' ->
                    is_ok (task_result w t') = true) ->
      main w args (tr ++ [Finished i]) (Raise e)
  | main_dispatch pool tr s results evs st :
      new_executor (arg_max_workers args) = Ok pool ->
      pool_run (main_tasks args) (init_pool (length (main_tasks args))) tr s ->
      queued s = [] -> running s = [] ->
      gathered w (main_tasks args) = Some results ->
      dispatch w (output args) 0 results = (evs, st) ->
      main w args (tr ++ evs) st.

(** The projects whose output a run wrote, in the order of writing. *)
Definition written (tr : list Event) : list nat :=
  omap (fun e => match e with WroteGraph i _ _ => Some i | _ => None end) tr.

End Multi.

(** ** Vocabulary of the statements *)

(** The attributes [build_graph] gives the node of a record. *)
Definition info_attrs (info : FunctionInfo) : NodeAttrs :=
  {| attr_file := file_path info; attr_start := start_line info;
     attr_end := end_line info |}.

(** The node and successor dictionaries of a graph have the same keys. *)
Definition synced (G : DiGraph) : Prop :=
  forall k, dict_has (g_node G) k = dict_has (g_succ G) k.

(** What the resolution loop adds to [info.calls] for one pending site:
    nothing when the site is skipped by a [continue]. *)
Definition site_outcome (w : World) (project_root : Path)
    (def_index : dict Path (dict (Z * Z) string)) (cs : CallSite)
  : option string :=
  match site_request project_root cs with
  | Raise _ => None
  | Ok req => site_target w def_index (request_definition w project_root req) cs
  end.

(** The records in the order [collect_infos] creates them, before they are
    stored under their fqn. *)
Definition file_records (w : World) (project_root : Path) (use_lsp : bool)
    (java_path : Path) : result (list FunctionInfo) :=
  tree ← read_and_parse w java_path;
  let pkg := pkg_name tree PACKAGE_QUERY in
  let cls_nodes := map fst (captures CLASS_QUERY tree) in
  for_each (captured "meth" (captures METHOD_QUERY tree))
    (fun recs node =>
       info ← collect_method w project_root java_path use_lsp pkg cls_nodes node;
       Ok (recs ++ [info]))
    [].

Definition declared_records (w : World) (project_root : Path) (use_lsp : bool)
  : result (list FunctionInfo) :=
  for_each (rglob_java w project_root)
    (fun recs java_path =>
       more ← file_records w project_root use_lsp java_path;
       Ok (recs ++ more))
    [].

(** The last record of a sequence that has the given fqn. *)
Fixpoint last_declared (k : string) (recs : list FunctionInfo)
  : option FunctionInfo :=
  match recs with
  | [] => None
  | r :: rest =>
      match last_declared k rest with
      | Some r' => Some r'
      | None => if bool_decide (fqn r = k) then Some r else None
      end
  end.

(** Two dictionary items with the same key, fqn and metadata. *)
Definition same_meta (kv kv' : string * FunctionInfo) : Prop :=
  kv.1 = kv'.1 /\ fqn kv.2 = fqn kv'.2 /\ info_attrs kv.2 = info_attrs kv'.2.

(** [infos[fqn] = info] *)
Definition store (infos : dict string FunctionInfo) (info : FunctionInfo)
  : dict string FunctionInfo :=
  dict_set infos (fqn info) info.

(** The body of the loop of [build_graph]. *)
Definition graph_step (G : DiGraph) (info : FunctionInfo) : DiGraph :=
  fold_left (fun G2 callee => add_edge G2 (fqn info) callee)
            (elements (calls info))
            (add_node G (fqn info) (info_attrs info)).

(** The events of the worker threads, and the tasks a trace reports as
    finished, in order. *)
Definition is_pool_event (e : Event) : bool :=
  match e with
  | Started _ | Finished _ => true
  | _ => false
  end.

Definition finished (tr : list Event) : list nat :=
  omap (fun e => match e with Finished i => Some i | _ => None end) tr.

(** All work items of a pool state. *)
Definition pool_items (s : Multi.PoolState) : list nat :=
  Multi.queued s ++ Multi.running s ++ Multi.completed s.

(** The output directory of a project in a multi-project run. *)
Definition project_dir (output project_root : Path) : Path :=
  joinpath output (path_name project_root).

(** [G.adj[u]], empty for a node that is not in the graph. *)
Definition succ_of (G : DiGraph) (u : string) : list string :=
  default [] (dict_get (g_succ G) u).

(** Invariant of a graph under construction: keys without repetition and
    successor lists without repetition. *)
Definition simple_graph (G : DiGraph) : Prop :=
  NoDup (dict_keys (g_succ G)) /\ forall u, NoDup (succ_of G u).

(** The pending site recorded for a callee node in semantic mode. *)
Definition call_site_of (w : World) (java_path : Path) (callee_node : Node)
  : CallSite :=
  {| target_simple := text callee_node;
     cs_file_path := resolve w java_path;
     cs_line := (start_point callee_node).1;
     cs_column := (start_point callee_node).2 |}.

(** A node whose byte range contains the offset, as [class_stack] tests it. *)
Definition contains_offset (byte_offset : Z) (cls : Node) : bool :=
  (start_byte cls <=? byte_offset)%Z && (byte_offset <=? end_byte cls)%Z.

(** The name [class_stack] reads from a node: the text of its first
    [cls_name] capture. *)
Definition class_name_of (query : Query) (cls : Node) : option string :=
  match captured "cls_name" (captures query cls) with
  | [] => None
  | n :: _ => Some (text n)
  end.

(** The absolute path under which [resolve_with_lsp] indexes a record. *)
Definition info_abs_path (w : World) (project_root : Path) (info : FunctionInfo)
  : Path :=
  resolve w (joinpath project_root (file_path info)).

(** The pending sites of all records, in the order of iteration. *)
Definition all_sites (infos : dict string FunctionInfo) : list CallSite :=
  List.flat_map (fun kv => unresolved_sites kv.2) infos.

(** The request that belongs to a pending site: project-relative file,
    line counted from one, column unchanged. *)
Definition request_for (project_root : Path) (cs : CallSite) (req : LspRequest)
  : Prop :=
  rel project_root (cs_file_path cs) = Ok (req_file req)
  /\ req_line req = (cs_line cs + 1)%Z
  /\ req_column req = cs_column cs.

(** A record of the index whose range contains the line. *)
Definition declares_line (w : World) (project_root : Path) (abs_path : Path)
    (line0 : Z) (info : FunctionInfo) : Prop :=
  info_abs_path w project_root info = abs_path
  /\ (start_line info <= line0 <= end_line info)%Z.

(** The body of the loop that builds the definition index. *)
Definition index_step (w : World) (root : Path)
    (def_index : list (Path * list (Z * Z * string))) (info : FunctionInfo) :=
  dict_set def_index (info_abs_path w root info)
    (dict_set (default [] (dict_get def_index (info_abs_path w root info)))
              (start_line info, end_line info) (fqn info)).

(** The file has an entry for the range in the index. *)
Definition indexed (idx : list (Path * list (Z * Z * string))) (p : Path)
    (k : Z * Z) : Prop :=
  exists ranges, dict_get idx p = Some ranges /\ dict_has ranges k = true.

(** [c in s] for a character. *)
Fixpoint has_char (c : Ascii.ascii) (s : string) : bool :=
  match s with
  | EmptyString => false
  | String a s' => Ascii.eqb a c || has_char c s'
  end.

(** A path component as pathlib keeps it: not empty, not ["."], and without
    a slash. *)
Definition plain_component (s : string) : Prop :=
  s <> "" /\ s <> "." /\ has_char "/" s = false.

(** The tasks a trace reports as started, in order. *)
Definition started (tr : list Event) : list nat :=
  omap (fun e => match e with Started i => Some i | _ => None end) tr.

(** The nodes of a subtree, the root first. *)
Fixpoint subtree (n : Node) : list Node :=
  n :: List.flat_map (fun c => subtree c.2) (children n).

(** The callee identifier of a method invocation: its first child with field
    [name] and type [identifier]; nothing for any other node. *)
Definition invocation_name (n : Node) : option Node :=
  if bool_decide (node_type n = "method_invocation") then
    match List.filter
            (fun c => bool_decide (node_type c.2 = "identifier")
                      && bool_decide (c.1 = Some "name"))
            (children n) with
    | c :: _ => Some c.2
    | [] => None
    end
  else None.

(** ** Concrete projects

    Syntax trees of small Java files as tree-sitter-java builds them (named
    nodes only), with the byte offsets and points of the source text. *)

Module Examples.
Local Open Scope Z_scope.

Definition ts_node (src type : string) (sb eb : Z) (sp ep : Z * Z)
    (ch : list (option string * Node)) : Node :=
  mkNode type sb eb sp ep
         (String.substring (Z.to_nat sb) (Z.to_nat (eb - sb)) src) ch.

(** A project of one file: the world in which [root] holds exactly
    [java_path], parsed as [tree]; paths are already resolved, multilspy is
    importable when [lsp] is given, and the server answers with [lsp]. *)
Definition one_file_world (root java_path : Path) (tree : Node)
    (lsp : option (LspRequest -> LspReply)) : World :=
  {| is_dir := fun p => bool_decide (p = root);
     rglob_java := fun p => if bool_decide (p = root) then [java_path] else [];
     read_and_parse := fun p =>
       if bool_decide (p = java_path) then Ok tree
       else Raise (OSError "No such file or directory");
     resolve := fun p => p;
     _MULTILSPY_AVAILABLE := match lsp with Some _ => true | None => false end;
     request_definition := fun _ req =>
       match lsp with Some f => f req | None => LspRaises end;
     os_mkdir := fun _ _ => Ok tt;
     write_files := fun _ _ _ => Ok tt |}.

Definition proj : Path := mkPath OneSlash ["proj"].

(** [/proj/Outer.java] with a one-segment package. *)
Definition Outer_p_src : string :=
"package p;
class Outer {
  class Inner {
    void m() {}
  }
}
".

Definition class_tree (src : string) (d : Z) : Node :=
  ts_node src "class_declaration" (11 + d) (62 + d) (1, 0) (5, 1)
    [ (Some "name", ts_node src "identifier" (17 + d) (22 + d) (1, 6) (1, 11) []);
      (Some "body", ts_node src "class_body" (23 + d) (62 + d) (1, 12) (5, 1)
        [ (None, ts_node src "class_declaration" (27 + d) (60 + d) (2, 2) (4, 3)
            [ (Some "name",
               ts_node src "identifier" (33 + d) (38 + d) (2, 8) (2, 13) []);
              (Some "body",
               ts_node src "class_body" (39 + d) (60 + d) (2, 14) (4, 3)
                 [ (None, ts_node src "method_declaration" (45 + d) (56 + d)
                            (3, 4) (3, 15)
                     [ (Some "type",
                        ts_node src "void_type" (45 + d) (49 + d) (3, 4) (3, 8) []);
                       (Some "name",
                        ts_node src "identifier" (50 + d) (51 + d) (3, 9) (3, 10) []);
                       (Some "parameters",
                        ts_node src "formal_parameters" (51 + d) (53 + d)
                                (3, 10) (3, 12) []);
                       (Some "body",
                        ts_node src "block" (54 + d) (56 + d) (3, 13) (3, 15) [])
                     ]) ]) ]) ]) ].

Definition Outer_p_tree : Node :=
  ts_node Outer_p_src "program" 0 63 (0, 0) (6, 0)
    [ (None, ts_node Outer_p_src "package_declaration" 0 10 (0, 0) (0, 10)
               [ (None, ts_node Outer_p_src "identifier" 8 9 (0, 8) (0, 9) []) ]);
      (None, class_tree Outer_p_src 0) ].

Definition Outer_java : Path := mkPath OneSlash ["proj"; "Outer.java"].

Definition Outer_p_world : World :=
  one_file_world proj Outer_java Outer_p_tree None.

(** The same file with a two-segment package. *)
Definition Outer_pq_src : string :=
"package p.q;
class Outer {
  class Inner {
    void m() {}
  }
}
".

Definition Outer_pq_tree : Node :=
  ts_node Outer_pq_src "program" 0 65 (0, 0) (6, 0)
    [ (None, ts_node Outer_pq_src "package_declaration" 0 12 (0, 0) (0, 12)
               [ (None, ts_node Outer_pq_src "scoped_identifier" 8 11 (0, 8) (0, 11)
                          [ (Some "scope",
                             ts_node Outer_pq_src "identifier" 8 9 (0, 8) (0, 9) []);
                            (Some "name",
                             ts_node Outer_pq_src "identifier" 10 11 (0, 10) (0, 11) [])
                          ]) ]);
      (None, class_tree Outer_pq_src 2) ].

Definition Outer_pq_world : World :=
  one_file_world proj Outer_java Outer_pq_tree None.

(** [/proj/Foo.java]: a method outside every class, no package. *)
Definition Foo_src : string :=
"void bar() {}
".

Definition Foo_tree : Node :=
  ts_node Foo_src "program" 0 14 (0, 0) (1, 0)
    [ (None, ts_node Foo_src "method_declaration" 0 13 (0, 0) (0, 13)
               [ (Some "type", ts_node Foo_src "void_type" 0 4 (0, 0) (0, 4) []);
                 (Some "name", ts_node Foo_src "identifier" 5 8 (0, 5) (0, 8) []);
                 (Some "parameters",
                  ts_node Foo_src "formal_parameters" 8 10 (0, 8) (0, 10) []);
                 (Some "body", ts_node Foo_src "block" 11 13 (0, 11) (0, 13) [])
               ]) ].

Definition Foo_java : Path := mkPath OneSlash ["proj"; "Foo.java"].

Definition Foo_world : World := one_file_world proj Foo_java Foo_tree None.

(** [/proj/a.b.java]: the self-recursive method [c] of class [b]; its fqn
    is [a.b.c]. *)
Definition abc_src : string :=
"class b {
  void c() { c(); }
}
".

Definition abc_tree : Node :=
  ts_node abc_src "program" 0 32 (0, 0) (3, 0)
    [ (None, ts_node abc_src "class_declaration" 0 31 (0, 0) (2, 1)
        [ (Some "name", ts_node abc_src "identifier" 6 7 (0, 6) (0, 7) []);
          (Some "body", ts_node abc_src "class_body" 8 31 (0, 8) (2, 1)
            [ (None, ts_node abc_src "method_declaration" 12 29 (1, 2) (1, 19)
                [ (Some "type", ts_node abc_src "void_type" 12 16 (1, 2) (1, 6) []);
                  (Some "name", ts_node abc_src "identifier" 17 18 (1, 7) (1, 8) []);
                  (Some "parameters",
                   ts_node abc_src "formal_parameters" 18 20 (1, 8) (1, 10) []);
                  (Some "body", ts_node abc_src "block" 21 29 (1, 11) (1, 19)
                    [ (None, ts_node abc_src "expression_statement" 23 27
                               (1, 13) (1, 17)
                        [ (None, ts_node abc_src "method_invocation" 23 26
                                   (1, 13) (1, 16)
                            [ (Some "name",
                               ts_node abc_src "identifier" 23 24 (1, 13) (1, 14) []);
                              (Some "arguments",
                               ts_node abc_src "argument_list" 24 26
                                       (1, 14) (1, 16) []) ]) ]) ]) ]) ]) ]) ].

Definition abc_java : Path := mkPath OneSlash ["proj"; "a.b.java"].

Definition abc_world : World := one_file_world proj abc_java abc_tree None.

(** The same project with a language server that answers every definition
    request with the declaration line of [c]. *)
Definition abc_location : Location :=
  {| loc_uri := Some "file:///proj/a.b.java"; loc_targetUri := None;
     loc_range := Some {| range_start := Some {| pos_line := Some 1 |} |};
     loc_targetRange := None |}.

Definition abc_lsp_world : World :=
  one_file_world proj abc_java abc_tree
    (Some (fun _ => LspLocations [abc_location])).

(** The project [a.b.java] with a language server whose every request
    raises. *)
Definition abc_failing_lsp_world : World :=
  one_file_world proj abc_java abc_tree (Some (fun _ => LspRaises)).

(** [/proj/A.java]: method [inner] of an anonymous class nested in the body
    of method [outer]. *)
Definition A_src : string :=
"class A {
  void outer() {
    new Object() {
      void inner() {}
    };
  }
}
".

Definition A_tree : Node :=
  ts_node A_src "program" 0 81 (0, 0) (7, 0)
    [ (None, ts_node A_src "class_declaration" 0 80 (0, 0) (6, 1)
        [ (Some "name", ts_node A_src "identifier" 6 7 (0, 6) (0, 7) []);
          (Some "body", ts_node A_src "class_body" 8 80 (0, 8) (6, 1)
            [ (None, ts_node A_src "method_declaration" 12 78 (1, 2) (5, 3)
                [ (Some "type", ts_node A_src "void_type" 12 16 (1, 2) (1, 6) []);
                  (Some "name", ts_node A_src "identifier" 17 22 (1, 7) (1, 12) []);
                  (Some "parameters",
                   ts_node A_src "formal_parameters" 22 24 (1, 12) (1, 14) []);
                  (Some "body", ts_node A_src "block" 25 78 (1, 15) (5, 3)
                    [ (None, ts_node A_src "expression_statement" 31 74
                               (2, 4) (4, 6)
                        [ (None, ts_node A_src "object_creation_expression" 31 73
                                   (2, 4) (4, 5)
                            [ (Some "type",
                               ts_node A_src "type_identifier" 35 41 (2, 8) (2, 14) []);
                              (Some "arguments",
                               ts_node A_src "argument_list" 41 43 (2, 14) (2, 16) []);
                              (None, ts_node A_src "class_body" 44 73 (2, 17) (4, 5)
                                [ (None, ts_node A_src "method_declaration" 52 67
                                           (3, 6) (3, 21)
                                    [ (Some "type",
                                       ts_node A_src "void_type" 52 56 (3, 6) (3, 10) []);
                                      (Some "name",
                                       ts_node A_src "identifier" 57 62
                                               (3, 11) (3, 16) []);
                                      (Some "parameters",
                                       ts_node A_src "formal_parameters" 62 64
                                               (3, 16) (3, 18) []);
                                      (Some "body",
                                       ts_node A_src "block" 65 67 (3, 19) (3, 21) [])
                                    ]) ]) ]) ]) ]) ]) ]) ]) ].

Definition A_java : Path := mkPath OneSlash ["proj"; "A.java"].

Definition A_world : World := one_file_world proj A_java A_tree None.

(** [/proj/Dup.java]: two overloads of [f], which share the fqn [Dup.f]. *)
Definition Dup_src : string :=
"class Dup {
  void f() {}
  void f(int x) {}
}
".

Definition Dup_tree : Node :=
  ts_node Dup_src "program" 0 47 (0, 0) (4, 0)
    [ (None, ts_node Dup_src "class_declaration" 0 46 (0, 0) (3, 1)
        [ (Some "name", ts_node Dup_src "identifier" 6 9 (0, 6) (0, 9) []);
          (Some "body", ts_node Dup_src "class_body" 10 46 (0, 10) (3, 1)
            [ (None, ts_node Dup_src "method_declaration" 14 25 (1, 2) (1, 13)
                [ (Some "type", ts_node Dup_src "void_type" 14 18 (1, 2) (1, 6) []);
                  (Some "name", ts_node Dup_src "identifier" 19 20 (1, 7) (1, 8) []);
                  (Some "parameters",
                   ts_node Dup_src "formal_parameters" 20 22 (1, 8) (1, 10) []);
                  (Some "body", ts_node Dup_src "block" 23 25 (1, 11) (1, 13) []) ]);
              (None, ts_node Dup_src "method_declaration" 28 44 (2, 2) (2, 18)
                [ (Some "type", ts_node Dup_src "void_type" 28 32 (2, 2) (2, 6) []);
                  (Some "name", ts_node Dup_src "identifier" 33 34 (2, 7) (2, 8) []);
                  (Some "parameters",
                   ts_node Dup_src "formal_parameters" 34 41 (2, 8) (2, 15)
                     [ (None, ts_node Dup_src "formal_parameter" 35 40 (2, 9) (2, 14)
                         [ (Some "type",
                            ts_node Dup_src "integral_type" 35 38 (2, 9) (2, 12) []);
                           (Some "name",
                            ts_node Dup_src "identifier" 39 40 (2, 13) (2, 14) [])
                         ]) ]);
                  (Some "body", ts_node Dup_src "block" 42 44 (2, 16) (2, 18) []) ])
            ]) ]) ].

Definition Dup_java : Path := mkPath OneSlash ["proj"; "Dup.java"].

Definition Dup_world : World := one_file_world proj Dup_java Dup_tree None.

(** Projects without Java files: every root is a directory, every pipeline
    returns the empty graph, and the writes for the projects selected by
    [write_fails] raise [OSError]. *)
Definition empty_projects_world (write_fails : nat -> bool) : World :=
  {| is_dir := fun _ => true;
     rglob_java := fun _ => [];
     read_and_parse := fun _ => Raise (OSError "No such file or directory");
     resolve := fun p => p;
     _MULTILSPY_AVAILABLE := false;
     request_definition := fun _ _ => LspRaises;
     os_mkdir := fun _ _ => Ok tt;
     write_files := fun i _ _ =>
       if write_fails i then Raise (OSError "No space left on device")
       else Ok tt |}.

Definition project (i : string) : Path := mkPath OneSlash ["work"; i].
Definition out : Path := mkPath OneSlash ["out"].

(** Three projects, the write of the second fails. *)
Definition three_projects : Multi.Args :=
  {| Multi.projects := [project "p0"; project "p1"; project "p2"];
     Multi.lsp := false; Multi.output := out; Multi.arg_max_workers := 4 |}.

Definition second_write_fails : World :=
  empty_projects_world (fun i => Nat.eqb i 1).

(** Three projects, the second root is not a directory. *)
Definition second_root_missing : World :=
  {| is_dir := fun p => negb (bool_decide (p = project "p1"));
     rglob_java := fun _ => [];
     read_and_parse := fun _ => Raise (OSError "No such file or directory");
     resolve := fun p => p;
     _MULTILSPY_AVAILABLE := false;
     request_definition := fun _ _ => LspRaises;
     os_mkdir := fun _ _ => Ok tt;
     write_files := fun _ _ _ => Ok tt |}.

(** Five projects with [--max-workers 2]. *)
Definition five_projects_two_workers : Multi.Args :=
  {| Multi.projects := [project "p0"; project "p1"; project "p2";
                        project "p3"; project "p4"];
     Multi.lsp := false; Multi.output := out; Multi.arg_max_workers := 2 |}.

(** Two projects, nothing fails. *)
Definition two_projects : Multi.Args :=
  {| Multi.projects := [project "p0"; project "p1"];
     Multi.lsp := false; Multi.output := out; Multi.arg_max_workers := 4 |}.

Definition nothing_fails : World := empty_projects_world (fun _ => false).

Definition empty_doc : GraphDocument := {| doc_nodes := []; doc_edges := [] |}.

(** The method node of [a.b.java]. *)
Definition abc_method : Node :=
  List.hd abc_tree (captured "meth" (captures METHOD_QUERY abc_tree)).

(** A class query that also captures the declaration itself, and the class
    declarations of [Outer.java] found with it. *)
Definition CLASS_DECLARATION_QUERY : Query :=
  [ {| pat_type := "class_declaration";
       pat_children := [ {| cp_field := Some "name"; cp_type := "identifier";
                            cp_capture := "cls_name" |} ];
       pat_capture := Some "cls" |} ].

Definition Outer_class_declarations : list Node :=
  captured "cls" (captures CLASS_DECLARATION_QUERY Outer_p_tree).

(** The records of [A.java] as indexed in semantic mode. *)
Definition A_infos : list (string * FunctionInfo) :=
  match collect_infos A_world proj true with
  | Ok infos => infos
  | Raise _ => []
  end.

Definition A_inner : FunctionInfo :=
  {| fqn := "A.inner"; file_path := "A.java"; start_line := 3; end_line := 3;
     calls := ∅; unresolved_sites := [] |}.

(** The record of [a.b.java] as indexed in semantic mode, and after the
    resolution against [abc_lsp_world]. *)
Definition abc_pending : FunctionInfo :=
  {| fqn := "a.b.c"; file_path := "a.b.java"; start_line := 1; end_line := 1;
     calls := ∅;
     unresolved_sites := [{| target_simple := "c"; cs_file_path := abc_java;
                             cs_line := 1; cs_column := 13 |}] |}.

Definition abc_resolved : FunctionInfo :=
  {| fqn := "a.b.c"; file_path := "a.b.java"; start_line := 1; end_line := 1;
     calls := {[ "a.b.c" ]}; unresolved_sites := [] |}.

(** [/proj] with [Foo.java] and a second file that cannot be read. *)
Definition Gone_java : Path := mkPath OneSlash ["proj"; "Gone.java"].

Definition unreadable_file_world : World :=
  {| is_dir := fun p => bool_decide (p = proj);
     rglob_java := fun p => if bool_decide (p = proj) then [Foo_java; Gone_java] else [];
     read_and_parse := fun p =>
       if bool_decide (p = Foo_java) then Ok Foo_tree
       else Raise (OSError "Permission denied");
     resolve := fun p => p;
     _MULTILSPY_AVAILABLE := false;
     request_definition := fun _ _ => LspRaises;
     os_mkdir := fun _ _ => Ok tt;
     write_files := fun _ _ _ => Ok tt |}.

(** Two projects with [--max-workers 0]. *)
Definition zero_workers : Multi.Args :=
  {| Multi.projects := [project "p0"; project "p1"];
     Multi.lsp := false; Multi.output := out; Multi.arg_max_workers := 0 |}.

(** The record of [a.b.java] as indexed in syntactic mode. *)
Definition abc_syntactic : FunctionInfo :=
  {| fqn := "a.b.c"; file_path := "a.b.java"; start_line := 1; end_line := 1;
     calls := {[ "c" ]}; unresolved_sites := [] |}.

(** [/proj/C.java]: a method with the chained call [this.a().b()].  The
    invocation of [b] contains the invocation of [a] as its object. *)
Definition Chain_src : string :=
"class C {
  void m() { this.a().b(); }
}
".

Definition Chain_tree : Node :=
  ts_node Chain_src "program" 0 41 (0, 0) (3, 0)
    [ (None, ts_node Chain_src "class_declaration" 0 40 (0, 0) (2, 1)
        [ (Some "name", ts_node Chain_src "identifier" 6 7 (0, 6) (0, 7) []);
          (Some "body", ts_node Chain_src "class_body" 8 40 (0, 8) (2, 1)
            [ (None, ts_node Chain_src "method_declaration" 12 38 (1, 2) (1, 28)
                [ (Some "type", ts_node Chain_src "void_type" 12 16 (1, 2) (1, 6) []);
                  (Some "name", ts_node Chain_src "identifier" 17 18 (1, 7) (1, 8) []);
                  (Some "parameters",
                   ts_node Chain_src "formal_parameters" 18 20 (1, 8) (1, 10) []);
                  (Some "body", ts_node Chain_src "block" 21 38 (1, 11) (1, 28)
                    [ (None, ts_node Chain_src "expression_statement" 23 36
                               (1, 13) (1, 26)
                        [ (None, ts_node Chain_src "method_invocation" 23 35
                                   (1, 13) (1, 25)
                            [ (Some "object",
                               ts_node Chain_src "method_invocation" 23 31
                                       (1, 13) (1, 21)
                                 [ (Some "object",
                                    ts_node Chain_src "this" 23 27
                                            (1, 13) (1, 17) []);
                                   (Some "name",
                                    ts_node Chain_src "identifier" 28 29
                                            (1, 18) (1, 19) []);
                                   (Some "arguments",
                                    ts_node Chain_src "argument_list" 29 31
                                            (1, 19) (1, 21) []) ]);
                              (Some "name",
                               ts_node Chain_src "identifier" 32 33
                                       (1, 22) (1, 23) []);
                              (Some "arguments",
                               ts_node Chain_src "argument_list" 33 35
                                       (1, 23) (1, 25) []) ]) ]) ]) ]) ]) ]) ].

Definition Chain_java : Path := mkPath OneSlash ["proj"; "C.java"].

Definition Chain_world : World := one_file_world proj Chain_java Chain_tree None.

Definition Chain_method : Node :=
  List.hd Chain_tree (captured "meth" (captures METHOD_QUERY Chain_tree)).

(** Two projects; the output directory of the first one exists already, so
    its [os.mkdir] raises. *)
Definition first_dir_exists : World :=
  {| is_dir := fun _ => true;
     rglob_java := fun _ => [];
     read_and_parse := fun _ => Raise (OSError "No such file or directory");
     resolve := fun p => p;
     _MULTILSPY_AVAILABLE := false;
     request_definition := fun _ _ => LspRaises;
     os_mkdir := fun i _ =>
       if Nat.eqb i 0 then Raise (OSError "File exists") else Ok tt;
     write_files := fun _ _ _ => Ok tt |}.

End Examples.

(** * Theorems *)

#[local] Set Warnings "-clear-no-such-hyp".

Lemma strip_prefix_app pre rest : strip_prefix pre (pre ++ rest) = Some rest.
Proof.
  induction pre as [|a pre IH]; simpl; [reflexivity|].
  destruct (decide (a = a)); [exact IH | congruence].
Qed.

Lemma strip_prefix_Some pre l rest :
  strip_prefix pre l = Some rest -> l = pre ++ rest.
Proof.
  revert l; induction pre as [|a pre IH]; intros l; simpl.
  - congruence.
  - destruct l as [|b l]; [discriminate|].
    destruct (decide (a = b)) as [->|]; [|discriminate].
    intros H. f_equal. auto.
Qed.

Lemma relative_to_under root path rest :
  anchor path = anchor root ->
  parts path = parts root ++ rest ->
  relative_to path root = Ok (mkPath NoRoot rest).
Proof.
  intros Ha Hp. unfold relative_to.
  rewrite bool_decide_eq_true_2 by exact Ha.
  rewrite Hp, strip_prefix_app. reflexivity.
Qed.

Lemma relative_to_not_under root path :
  ~ lies_under root path -> relative_to path root = Raise ValueError.
Proof.
  intros Hn. unfold relative_to.
  destruct (bool_decide (anchor path = anchor root)) eqn:Ha; [|reflexivity].
  apply bool_decide_eq_true_1 in Ha.
  destruct (strip_prefix (parts root) (parts path)) as [rest|] eqn:Hs;
    [|reflexivity].
  exfalso. apply Hn. split; [exact Ha|].
  exists rest. apply strip_prefix_Some. exact Hs.
Qed.

Lemma rel_total root path : exists s, rel root path = Ok s.
Proof.
  unfold rel, relative_to.
  destruct (bool_decide _); [|eauto].
  destruct (strip_prefix _ _); eauto.
Qed.

Lemma rel_under root path rest :
  anchor path = anchor root ->
  parts path = parts root ++ rest ->
  rel root path = Ok (path_str (mkPath NoRoot rest)).
Proof.
  intros Ha Hp. unfold rel.
  rewrite (relative_to_under root path rest Ha Hp). reflexivity.
Qed.

Lemma rel_not_under root path :
  ~ lies_under root path -> rel root path = Ok (path_str path).
Proof.
  intros Hn. unfold rel. rewrite (relative_to_not_under root path Hn).
  reflexivity.
Qed.

(** The bookkeeping fields of a record are not touched by the call-site loop
    of [collect_infos]. *)
Lemma record_calls_meta w use_lsp java_path (nodes : list Node) info :
  let info' := fold_left (record_call w java_path use_lsp) nodes info in
  fqn info' = fqn info /\ file_path info' = file_path info
  /\ start_line info' = start_line info /\ end_line info' = end_line info.
Proof.
  revert info. induction nodes as [|n nodes IH]; intros info; simpl; [auto|].
  destruct (IH (record_call w java_path use_lsp info n)) as (?&?&?&?).
  unfold record_call in *. destruct use_lsp; simpl in *; auto.
Qed.

Lemma collect_method_file w root java_path use_lsp pkg cls_nodes node info :
  collect_method w root java_path use_lsp pkg cls_nodes node = Ok info ->
  rel root java_path = Ok (file_path info).
Proof.
  unfold collect_method.
  destruct (first_item (captured "meth_name" _)) as [name_node|]; [|discriminate].
  destruct (first_item (captured "body" _)) as [body_node|]; [|discriminate].
  destruct (class_stack _ _ _) as [classes|]; [|discriminate].
  destruct (rel root java_path) as [file|]; [|discriminate].
  simpl. intros [= <-].
  match goal with
  | |- context [fold_left _ ?l ?i] =>
      destruct (record_calls_meta w use_lsp java_path l i) as (_&H&_)
  end.
  simpl in H. f_equal. symmetry. exact H.
Qed.

(** C9: [rel] returns the path relative to the root when the path lies under
    the root, and otherwise the unchanged string form of the path; it never
    raises.  Consequently the [file_path] of a record and the file key of a
    definition request are the string of the full path (which starts with a
    slash for an absolute path) when the file is not under the project
    root. *)
Theorem rel_relative_or_unchanged (root path : Path) :
  (forall rest, anchor path = anchor root ->
                parts path = parts root ++ rest ->
                rel root path = Ok (path_str (mkPath NoRoot rest)))
  /\ (~ lies_under root path -> rel root path = Ok (path_str path))
  /\ (exists s, rel root path = Ok s)
  /\ (absolute path = true -> startswith "/" (path_str path) = true)
  /\ (forall w use_lsp pkg cls_nodes node info,
        ~ lies_under root path ->
        collect_method w root path use_lsp pkg cls_nodes node = Ok info ->
        file_path info = path_str path)
  /\ (forall cs,
        cs_file_path cs = path -> ~ lies_under root path ->
        site_request root cs
        = Ok {| req_file := path_str path; req_line := cs_line cs + 1;
                req_column := cs_column cs |}).
Proof.
  split; [intros rest; apply rel_under|].
  split; [apply rel_not_under|].
  split; [apply rel_total|].
  split.
  { unfold absolute, path_str, startswith.
    destruct (anchor path); [discriminate| |]; intros _; simpl;
      destruct (join "/" (parts path)); reflexivity. }
  split.
  - intros w use_lsp pkg cls_nodes node info Hn Hc.
    apply collect_method_file in Hc.
    rewrite (rel_not_under _ _ Hn) in Hc. congruence.
  - intros cs <- Hn. unfold site_request.
    rewrite (rel_not_under _ _ Hn). reflexivity.
Qed.

(** A witness of C9: a file under the root and a file outside it. *)
Lemma rel_relative_or_unchanged_witness :
  rel (mkPath OneSlash ["proj"]) (mkPath OneSlash ["proj"; "src"; "A.java"]) = Ok "src/A.java"
  /\ rel (mkPath OneSlash ["proj"]) (mkPath OneSlash ["lib"; "B.java"]) = Ok "/lib/B.java".
Proof.
  split.
  - apply (proj1 (rel_relative_or_unchanged (mkPath OneSlash ["proj"])
                    (mkPath OneSlash ["proj"; "src"; "A.java"]))
                 ["src"; "A.java"]); reflexivity.
  - apply (proj1 (proj2 (rel_relative_or_unchanged (mkPath OneSlash ["proj"])
                           (mkPath OneSlash ["lib"; "B.java"])))).
    intros [_ [k Hk]]. discriminate Hk.
Defined.

(** ** The fqn of a declaration *)

Lemma Node_nested_ind (P : Node -> Prop) :
  (forall n, Forall (fun c => P c.2) (children n) -> P n) ->
  forall n, P n.
Proof.
  intros H. fix IH 1. intros n. apply H.
  destruct n as [t sb eb sp ep tx ch]. simpl.
  induction ch as [|c ch IHch]; constructor; [apply IH | exact IHch].
Qed.

Lemma match_class_identifier n nc :
  nc ∈ List.flat_map (match_pattern n) CLASS_QUERY -> node_type nc.1 = "identifier".
Proof.
  simpl. rewrite app_nil_r. unfold match_pattern. simpl.
  destruct (bool_decide _); [|intros H; apply elem_of_nil in H as []].
  unfold match_child. simpl.
  destruct (List.filter _ (children n)) as [|c l] eqn:Hf; simpl;
    [intros H; apply elem_of_nil in H as []|].
  intros H. apply list_elem_of_singleton in H as ->. simpl.
  assert (Hin : In c (List.filter
             (child_matches {| cp_field := Some "name"; cp_type := "identifier";
                               cp_capture := "cls_name" |}) (children n)))
    by (rewrite Hf; left; reflexivity).
  apply filter_In in Hin as [_ Hm]. unfold child_matches in Hm. simpl in Hm.
  apply andb_true_iff in Hm as [Hm _]. apply bool_decide_eq_true_1 in Hm. exact Hm.
Qed.

Lemma insert_capture_elem c (l : list (Node * string)) x :
  x ∈ insert_capture c l <-> x = c \/ x ∈ l.
Proof.
  induction l as [|d l IH]; simpl.
  - rewrite list_elem_of_singleton, elem_of_nil. tauto.
  - destruct (start_byte c.1 <=? start_byte d.1)%Z.
    + rewrite elem_of_cons. tauto.
    + rewrite !elem_of_cons, IH. tauto.
Qed.

Lemma captures_elem q n x : x ∈ captures q n <-> x ∈ match_captures q n.
Proof.
  unfold captures. induction (match_captures q n) as [|c l IH]; simpl.
  - tauto.
  - rewrite insert_capture_elem, elem_of_cons, IH. tauto.
Qed.

Lemma insert_capture_sorted c (l : list (Node * string)) :
  StronglySorted (fun a b => (start_byte a.1 <= start_byte b.1)%Z) l ->
  StronglySorted (fun a b => (start_byte a.1 <= start_byte b.1)%Z)
                 (insert_capture c l).
Proof.
  induction 1 as [|d l Hl IH Hd]; simpl.
  - repeat constructor.
  - destruct (Z.leb_spec (start_byte c.1) (start_byte d.1)) as [Hle|Hlt].
    + constructor; [constructor; assumption|].
      constructor; [exact Hle|].
      eapply Forall_impl; [exact Hd|]. intros b Hb. simpl in Hb. lia.
    + constructor; [exact IH|].
      apply Forall_forall. intros b Hb. apply insert_capture_elem in Hb as [->|Hb].
      * lia.
      * revert b Hb. apply Forall_forall. exact Hd.
Qed.

(** The captures come in the order of their start bytes. *)
Lemma captures_sorted q n :
  StronglySorted (fun a b => (start_byte a.1 <= start_byte b.1)%Z) (captures q n).
Proof.
  unfold captures. induction (match_captures q n) as [|c l IH]; simpl.
  - constructor.
  - apply insert_capture_sorted. exact IH.
Qed.

Lemma captures_class_identifier n nc :
  nc ∈ captures CLASS_QUERY n -> node_type nc.1 = "identifier".
Proof.
  rewrite captures_elem.
  revert nc. induction n as [n IH] using Node_nested_ind. intros nc.
  destruct n as [t sb eb sp ep tx ch]. cbn [match_captures]. 
  intros Hin. apply elem_of_app in Hin as [Hin|Hin].
  - apply (match_class_identifier _ _ Hin).
  - simpl in IH, Hin. clear -IH Hin. induction ch as [|c ch IHch]; simpl in Hin.
    + apply elem_of_nil in Hin as [].
    + apply Forall_cons in IH as [Hc IH].
      apply elem_of_app in Hin as [Hin|Hin]; [apply Hc; exact Hin | auto].
Qed.

Lemma class_stack_of_identifiers off (cls_nodes : list Node) :
  Forall (fun c => node_type c = "identifier" /\ children c = []) cls_nodes ->
  class_stack off cls_nodes CLASS_QUERY = Ok []
  \/ class_stack off cls_nodes CLASS_QUERY = Raise IndexError.
Proof.
  unfold class_stack. induction 1 as [|c l [Ht Hc] _ IH]; [left; reflexivity|].
  simpl. destruct ((start_byte c <=? off)%Z && (off <=? end_byte c)%Z).
  - right. destruct c as [t sb eb sp ep tx ch]. simpl in Ht, Hc. subst t ch.
    reflexivity.
  - exact IH.
Qed.

(** C4: the code does not dot-join the package and the full stack of
    enclosing classes.  [CLASS_QUERY] captures only the name identifiers, so
    [class_stack] is given identifier nodes, none of which contains the start
    of a method, and [PACKAGE_QUERY] matches only a scoped (dotted) package
    name.  For class [Outer] with inner class [Inner] and method [m] the
    recorded fqn is [Outer.m] under [package p] and [p.q.Outer.m] under
    [package p.q], never [p.Outer.Inner.m]; only the file-base-name fallback
    ([Foo.bar]) is as stated.  In general, in a tree whose class-name
    identifiers are leaves, the fqn of every record is the package found (if
    any), the base name of the file and the simple name: no class name ever
    enters it. *)
Theorem fqn_of_nested_method_lacks_classes :
  collect_infos Examples.Outer_p_world Examples.proj false
  = Ok [("Outer.m", {| fqn := "Outer.m"; file_path := "Outer.java";
                       start_line := 3; end_line := 3;
                       calls := ∅; unresolved_sites := [] |})]
  /\ collect_infos Examples.Outer_pq_world Examples.proj false
     = Ok [("p.q.Outer.m", {| fqn := "p.q.Outer.m"; file_path := "Outer.java";
                              start_line := 3; end_line := 3;
                              calls := ∅; unresolved_sites := [] |})]
  /\ collect_infos Examples.Foo_world Examples.proj false
     = Ok [("Foo.bar", {| fqn := "Foo.bar"; file_path := "Foo.java";
                          start_line := 0; end_line := 0;
                          calls := ∅; unresolved_sites := [] |})]
  /\ class_stack 45 (map fst (captures CLASS_QUERY Examples.Outer_p_tree)) CLASS_QUERY
     = Ok []
  /\ (forall w root java_path use_lsp pkg tree node info,
        Forall (fun c => children c = []) (map fst (captures CLASS_QUERY tree)) ->
        collect_method w root java_path use_lsp pkg
          (map fst (captures CLASS_QUERY tree)) node = Ok info ->
        exists name_node,
          fqn info
          = join "." (match pkg with
                      | Some p => if str_truthy p then [p] else []
                      | None => []
                      end ++ [path_stem java_path; text name_node])).
Proof.
  split; [vm_compute; reflexivity|].
  split; [vm_compute; reflexivity|].
  split; [vm_compute; reflexivity|].
  split; [vm_compute; reflexivity|].
  intros w root java_path use_lsp pkg tree node info Hleaf.
  assert (Hid : Forall (fun c => node_type c = "identifier" /\ children c = [])
                       (map fst (captures CLASS_QUERY tree))).
  { apply Forall_forall. intros c Hc. split.
    - apply list_elem_of_fmap in Hc as (nc & -> & Hnc).
      apply (captures_class_identifier _ _ Hnc).
    - revert c Hc. apply Forall_forall. exact Hleaf. }
  unfold collect_method.
  destruct (first_item (captured "meth_name" _)) as [name_node|]; [|discriminate].
  destruct (first_item (captured "body" _)) as [body_node|]; [|discriminate].
  destruct (class_stack_of_identifiers (start_byte node) _ Hid) as [-> | ->];
    [|discriminate].
  destruct (rel root java_path) as [file|]; [|discriminate].
  simpl. intros [= <-]. exists name_node.
  match goal with
  | |- context [fold_left _ ?l ?i] =>
      destruct (record_calls_meta w use_lsp java_path l i) as (H & _)
  end.
  simpl in H. rewrite H. unfold fqn_of. rewrite <- app_assoc. reflexivity.
Qed.

(** A witness of the general part of C4 on [Outer.java]. *)
Lemma fqn_of_nested_method_lacks_classes_witness :
  exists name_node,
    "Outer.m" = join "." ([] ++ [path_stem Examples.Outer_java; text name_node]).
Proof.
  apply (proj2 (proj2 (proj2 (proj2 fqn_of_nested_method_lacks_classes)))
           Examples.Outer_p_world Examples.proj Examples.Outer_java false None
           Examples.Outer_p_tree
           (Examples.ts_node Examples.Outer_p_src "method_declaration" 45 56
              (3, 4)%Z (3, 15)%Z
              [ (Some "type", Examples.ts_node Examples.Outer_p_src "void_type"
                                45 49 (3, 4)%Z (3, 8)%Z []);
                (Some "name", Examples.ts_node Examples.Outer_p_src "identifier"
                                50 51 (3, 9)%Z (3, 10)%Z []);
                (Some "parameters",
                 Examples.ts_node Examples.Outer_p_src "formal_parameters"
                   51 53 (3, 10)%Z (3, 12)%Z []);
                (Some "body", Examples.ts_node Examples.Outer_p_src "block"
                                54 56 (3, 13)%Z (3, 15)%Z []) ])
           {| fqn := "Outer.m"; file_path := "Outer.java"; start_line := 3;
              end_line := 3; calls := ∅; unresolved_sites := [] |}).
  - vm_compute. repeat constructor.
  - vm_compute. reflexivity.
Defined.

(** ** The interval lookup *)

Lemma locate_in_first (ranges : list (Z * Z * string)) (line0 : Z) :
  match locate_in ranges line0 with
  | Some f =>
      exists before s e after,
        ranges = before ++ ((s, e), f) :: after
        /\ (s <= line0 <= e)%Z
        /\ Forall (fun r => ~ (r.1.1 <= line0 <= r.1.2)%Z) before
  | None => Forall (fun r => ~ (r.1.1 <= line0 <= r.1.2)%Z) ranges
  end.
Proof.
  unfold locate_in.
  induction ranges as [|[[s e] f] ranges IH]; simpl; [constructor|].
  destruct ((s <=? line0)%Z && (line0 <=? e)%Z) eqn:Hin.
  - apply andb_true_iff in Hin as [H1 H2].
    exists [], s, e, ranges. repeat split; [lia | lia | constructor].
  - assert (Hout : ~ (s <= line0 <= e)%Z).
    { apply andb_false_iff in Hin as [H|H]; lia. }
    destruct (List.filter _ ranges) as [|r ?]; simpl in *.
    + constructor; [exact Hout | exact IH].
    + destruct IH as (before & s' & e' & after & -> & Hr & Hb).
      exists (((s, e), f) :: before), s', e', after.
      repeat split; [lia | lia | constructor; [exact Hout | exact Hb]].
Qed.



(** ** Dictionaries *)

Section PyDictFacts.
Context {K V : Type} `{EqDecision K}.
Implicit Types (d : list (K * V)) (k : K) (v : V).

Lemma dict_get_set_eq d k v : dict_get (dict_set d k v) k = Some v.
Proof.
  induction d as [|[k' v'] d IH]; simpl.
  - destruct (decide (k = k)); congruence.
  - destruct (decide (k' = k)) as [->|Hne]; simpl.
    + destruct (decide (k = k)); congruence.
    + destruct (decide (k' = k)); [congruence | exact IH].
Qed.

Lemma dict_get_set_ne d k k' v :
  k <> k' -> dict_get (dict_set d k v) k' = dict_get d k'.
Proof.
  intros Hne. induction d as [|[k0 v0] d IH]; simpl.
  - destruct (decide (k = k')); congruence.
  - destruct (decide (k0 = k)) as [->|Hk0]; simpl.
    + destruct (decide (k = k')); [congruence | reflexivity].
    + destruct (decide (k0 = k')); [reflexivity | exact IH].
Qed.

Lemma dict_get_None_keys d k : dict_get d k = None <-> k ∉ dict_keys d.
Proof.
  unfold dict_keys. induction d as [|[k' v'] d IH]; simpl.
  - split; [intros _; apply not_elem_of_nil | reflexivity].
  - destruct (decide (k' = k)) as [->|Hne].
    + split; [discriminate | intros Hn; exfalso; apply Hn; left].
    + rewrite IH. rewrite not_elem_of_cons. intuition congruence.
Qed.

Lemma dict_has_keys d k : dict_has d k = true <-> k ∈ dict_keys d.
Proof.
  unfold dict_has. destruct (dict_get d k) eqn:Hg.
  - split; [intros _ | reflexivity].
    destruct (decide (k ∈ dict_keys d)) as [|Hn]; [assumption|].
    apply dict_get_None_keys in Hn. congruence.
  - split; [discriminate|]. intros Hin.
    apply dict_get_None_keys in Hg. contradiction.
Qed.

Lemma dict_keys_set d k v :
  dict_keys (dict_set d k v)
  = if dict_has d k then dict_keys d else dict_keys d ++ [k].
Proof.
  unfold dict_has, dict_keys. induction d as [|[k' v'] d IH]; simpl; [reflexivity|].
  destruct (decide (k' = k)) as [->|Hne]; simpl; [reflexivity|].
  rewrite IH. destruct (dict_get d k); reflexivity.
Qed.

Lemma dict_set_NoDup d k v : NoDup (dict_keys d) -> NoDup (dict_keys (dict_set d k v)).
Proof.
  intros Hd. rewrite dict_keys_set.
  destruct (dict_has d k) eqn:Hh; [exact Hd|].
  apply NoDup_app. split; [exact Hd|]. split.
  - intros x Hx Hx'. apply list_elem_of_singleton in Hx' as ->.
    apply dict_has_keys in Hx. congruence.
  - apply NoDup_singleton.
Qed.

Lemma dict_get_elem d k v : dict_get d k = Some v -> (k, v) ∈ d.
Proof.
  induction d as [|[k' v'] d IH]; simpl; [discriminate|].
  destruct (decide (k' = k)) as [->|Hne].
  - intros [= ->]. left.
  - intros Hg. right. auto.
Qed.

Lemma dict_elem_get d k v : NoDup (dict_keys d) -> (k, v) ∈ d -> dict_get d k = Some v.
Proof.
  unfold dict_keys. induction d as [|[k' v'] d IH]; simpl; intros Hd Hin.
  - apply elem_of_nil in Hin as [].
  - apply NoDup_cons in Hd as [Hk Hd].
    apply elem_of_cons in Hin as [[= -> ->]|Hin].
    + destruct (decide (k' = k')); congruence.
    + destruct (decide (k' = k)) as [->|Hne]; [|auto].
      exfalso. apply Hk. apply list_elem_of_fmap. exists (k, v). auto.
Qed.
End PyDictFacts.

(** ** The graph *)

Lemma dict_has_set {K V} `{EqDecision K} (d : list (K * V)) k k' v :
  dict_has (dict_set d k v) k' = if decide (k = k') then true else dict_has d k'.
Proof.
  unfold dict_has. destruct (decide (k = k')) as [->|Hne].
  - rewrite dict_get_set_eq. reflexivity.
  - rewrite dict_get_set_ne by exact Hne. reflexivity.
Qed.

Lemma empty_graph_synced : synced empty_graph.
Proof. intros k. reflexivity. Qed.

Lemma add_node_synced G n a : synced G -> synced (add_node G n a).
Proof.
  intros HG k. unfold add_node.
  destruct (dict_has (g_succ G) n) eqn:Hn; simpl; rewrite !dict_has_set.
  - destruct (decide (n = k)) as [<-|]; [congruence | apply HG].
  - destruct (decide (n = k)); [reflexivity | apply HG].
Qed.

Lemma touch_node_synced G n : synced G -> synced (touch_node G n).
Proof.
  intros HG k. unfold touch_node.
  destruct (dict_has (g_succ G) n) eqn:Hn; simpl; [apply HG|].
  rewrite !dict_has_set. destruct (decide (n = k)); [reflexivity | apply HG].
Qed.

Lemma touch_node_has G n : synced G -> dict_has (g_succ (touch_node G n)) n = true.
Proof.
  intros HG. unfold touch_node.
  destruct (dict_has (g_succ G) n) eqn:Hn; simpl; [exact Hn|].
  rewrite dict_has_set. destruct (decide (n = n)); congruence.
Qed.

Lemma touch_node_has_mono G n k :
  dict_has (g_succ G) k = true -> dict_has (g_succ (touch_node G n)) k = true.
Proof.
  intros Hk. unfold touch_node.
  destruct (dict_has (g_succ G) n) eqn:Hn; simpl; [exact Hk|].
  rewrite dict_has_set. destruct (decide (n = k)); [reflexivity | exact Hk].
Qed.

Lemma add_edge_synced G u v : synced G -> synced (add_edge G u v).
Proof.
  intros HG k. unfold add_edge. simpl.
  pose proof (touch_node_synced _ v (touch_node_synced _ u HG)) as H2.
  rewrite dict_has_set. destruct (decide (u = k)) as [<-|]; [|apply H2].
  rewrite H2. apply touch_node_has_mono. apply touch_node_has. exact HG.
Qed.

Lemma add_node_get_eq G n a : dict_get (g_node (add_node G n a)) n = Some (Some a).
Proof.
  unfold add_node. destruct (dict_has (g_succ G) n); simpl; apply dict_get_set_eq.
Qed.

Lemma add_node_get_ne G n a k :
  n <> k -> dict_get (g_node (add_node G n a)) k = dict_get (g_node G) k.
Proof.
  intros Hne. unfold add_node.
  destruct (dict_has (g_succ G) n); simpl; apply dict_get_set_ne; exact Hne.
Qed.

Lemma touch_node_get G n k x :
  synced G -> dict_get (g_node G) k = Some x ->
  dict_get (g_node (touch_node G n)) k = Some x.
Proof.
  intros HG Hk. unfold touch_node.
  destruct (dict_has (g_succ G) n) eqn:Hn; simpl; [exact Hk|].
  rewrite dict_get_set_ne; [exact Hk|].
  intros ->. rewrite <- HG in Hn. unfold dict_has in Hn. rewrite Hk in Hn.
  discriminate.
Qed.

Lemma add_edge_get G u v k x :
  synced G -> dict_get (g_node G) k = Some x ->
  dict_get (g_node (add_edge G u v)) k = Some x.
Proof.
  intros HG Hk. unfold add_edge. simpl.
  apply touch_node_get; [apply touch_node_synced; exact HG|].
  apply touch_node_get; assumption.
Qed.

Lemma add_node_NoDup G n a :
  NoDup (graph_nodes G) -> NoDup (graph_nodes (add_node G n a)).
Proof.
  unfold graph_nodes, add_node. intros HG.
  destruct (dict_has (g_succ G) n); simpl; apply dict_set_NoDup; exact HG.
Qed.

Lemma touch_node_NoDup G n :
  NoDup (graph_nodes G) -> NoDup (graph_nodes (touch_node G n)).
Proof.
  unfold graph_nodes, touch_node. intros HG.
  destruct (dict_has (g_succ G) n); simpl; [exact HG|].
  apply dict_set_NoDup; exact HG.
Qed.

Lemma add_edge_NoDup G u v :
  NoDup (graph_nodes G) -> NoDup (graph_nodes (add_edge G u v)).
Proof.
  intros HG. unfold add_edge, graph_nodes. simpl.
  apply (touch_node_NoDup _ v). apply (touch_node_NoDup _ u). exact HG.
Qed.

(** The edge loop of [build_graph] for one record. *)
Lemma add_edges_inv G u (callees : list string) :
  let G' := fold_left (fun G2 callee => add_edge G2 u callee) callees G in
  synced G -> NoDup (graph_nodes G) ->
  synced G' /\ NoDup (graph_nodes G')
  /\ forall k x, dict_get (g_node G) k = Some x -> dict_get (g_node G') k = Some x.
Proof.
  revert G. induction callees as [|c callees IH]; intros G; simpl; [auto|].
  intros HG Hnd.
  destruct (IH (add_edge G u c)) as (H1 & H2 & H3);
    [apply add_edge_synced; exact HG | apply add_edge_NoDup; exact Hnd |].
  split; [exact H1|]. split; [exact H2|].
  intros k x Hk. apply H3. apply add_edge_get; assumption.
Qed.

Lemma build_graph_fold infos :
  build_graph infos = fold_left graph_step (dict_values infos) empty_graph.
Proof. reflexivity. Qed.

Lemma graph_step_inv G info :
  synced G -> NoDup (graph_nodes G) ->
  synced (graph_step G info) /\ NoDup (graph_nodes (graph_step G info))
  /\ dict_get (g_node (graph_step G info)) (fqn info) = Some (Some (info_attrs info))
  /\ forall k x, k <> fqn info -> dict_get (g_node G) k = Some x ->
                 dict_get (g_node (graph_step G info)) k = Some x.
Proof.
  intros HG Hnd. unfold graph_step.
  destruct (add_edges_inv (add_node G (fqn info) (info_attrs info)) (fqn info)
              (elements (calls info))) as (H1 & H2 & H3);
    [apply add_node_synced; exact HG | apply add_node_NoDup; exact Hnd |].
  split; [exact H1|]. split; [exact H2|]. split.
  - apply H3. apply add_node_get_eq.
  - intros k x Hne Hk. apply H3. rewrite add_node_get_ne by congruence. exact Hk.
Qed.

Lemma graph_steps_inv (l : list FunctionInfo) G :
  synced G -> NoDup (graph_nodes G) ->
  synced (fold_left graph_step l G) /\ NoDup (graph_nodes (fold_left graph_step l G))
  /\ forall k x, (forall info, info ∈ l -> fqn info <> k) ->
                 dict_get (g_node G) k = Some x ->
                 dict_get (g_node (fold_left graph_step l G)) k = Some x.
Proof.
  revert G. induction l as [|info l IH]; intros G HG Hnd; simpl; [auto|].
  destruct (graph_step_inv G info HG Hnd) as (H1 & H2 & _ & H4).
  destruct (IH _ H1 H2) as (I1 & I2 & I3).
  split; [exact I1|]. split; [exact I2|].
  intros k x Hl Hk. apply I3.
  - intros i Hi. apply Hl. right. exact Hi.
  - apply H4; [|exact Hk]. intros ->. apply (Hl info); [left | reflexivity].
Qed.

(** Every record that is the last of its fqn in the order of iteration
    gives its metadata to the node of that fqn, and no node occurs twice. *)
Lemma build_graph_nodes (l1 l2 : list FunctionInfo) info :
  (forall i, i ∈ l2 -> fqn i <> fqn info) ->
  let G := fold_left graph_step (l1 ++ info :: l2) empty_graph in
  NoDup (graph_nodes G)
  /\ dict_get (g_node G) (fqn info) = Some (Some (info_attrs info)).
Proof.
  intros Hl2. simpl. rewrite fold_left_app. simpl.
  destruct (graph_steps_inv l1 empty_graph empty_graph_synced) as (H1 & H2 & _);
    [apply NoDup_nil_2|].
  destruct (graph_step_inv _ info H1 H2) as (J1 & J2 & J3 & _).
  destruct (graph_steps_inv l2 _ J1 J2) as (_ & K2 & K3).
  split; [exact K2|]. apply K3; [exact Hl2 | exact J3].
Qed.

Lemma build_graph_dict (infos : list (string * FunctionInfo)) :
  NoDup (dict_keys infos) ->
  (forall k i, (k, i) ∈ infos -> fqn i = k) ->
  NoDup (graph_nodes (build_graph infos))
  /\ forall k i, dict_get infos k = Some i ->
       k ∈ graph_nodes (build_graph infos)
       /\ dict_get (g_node (build_graph infos)) k = Some (Some (info_attrs i)).
Proof.
  intros Hnd Hkey. rewrite build_graph_fold. split.
  - destruct (graph_steps_inv (dict_values infos) empty_graph empty_graph_synced)
      as (_ & H & _); [apply NoDup_nil_2 | exact H].
  - intros k i Hg. apply dict_get_elem in Hg.
    pose proof (Hkey _ _ Hg) as Hk.
    apply list_elem_of_split in Hg as (d1 & d2 & ->).
    assert (Hd2 : forall i', i' ∈ dict_values d2 -> fqn i' <> fqn i).
    { intros i' Hi' Heq. unfold dict_values in Hi'.
      apply list_elem_of_fmap in Hi' as ([k' i''] & -> & Hin). simpl in Heq.
      assert (k' = k).
      { rewrite <- Hk, <- Heq. symmetry. apply Hkey.
        apply elem_of_app. right. right. exact Hin. }
      subst k'. unfold dict_keys in Hnd. rewrite map_app in Hnd. simpl in Hnd.
      apply NoDup_app in Hnd as (_ & _ & Hnd).
      apply NoDup_cons in Hnd as [Hnd _]. apply Hnd.
      apply list_elem_of_fmap. exists (k, i''). auto. }
    unfold dict_values. rewrite map_app. simpl.
    destruct (build_graph_nodes (map snd d1) (map snd d2) i Hd2) as [_ H].
    rewrite Hk in H. split; [|exact H].
    assert (Hh : dict_has (g_node (fold_left graph_step
                    (map snd d1 ++ i :: map snd d2) empty_graph)) k = true).
    { unfold dict_has. rewrite H. reflexivity. }
    apply dict_has_keys in Hh. exact Hh.
Qed.

(** ** Indexing *)

Lemma bind_Ok {A B} (m : result A) (k : A -> result B) b :
  (x ← m; k x) = Ok b -> exists a, m = Ok a /\ k a = Ok b.
Proof. destruct m as [a|e]; simpl; [eauto | discriminate]. Qed.

Lemma for_each_store {A} (f : A -> result FunctionInfo) (xs : list A) d0 r0 d :
  for_each xs (fun infos x => info ← f x; Ok (store infos info)) d0 = Ok d ->
  exists recs,
    for_each xs (fun recs x => info ← f x; Ok (recs ++ [info])) r0 = Ok (r0 ++ recs)
    /\ d = fold_left store recs d0.
Proof.
  revert d0 r0. induction xs as [|x xs IH]; intros d0 r0; simpl.
  - intros [= <-]. exists []. rewrite app_nil_r. auto.
  - intros H. apply bind_Ok in H as (d1 & H1 & H2).
    apply bind_Ok in H1 as (info & Hf & [= <-]).
    destruct (IH _ (r0 ++ [info]) H2) as (recs & Hr & ->).
    exists (info :: recs). rewrite Hf. simpl.
    rewrite Hr, <- app_assoc. auto.
Qed.

Lemma collect_file_records w root use_lsp d0 java_path d :
  collect_file w root use_lsp d0 java_path = Ok d ->
  exists recs, file_records w root use_lsp java_path = Ok recs
               /\ d = fold_left store recs d0.
Proof.
  unfold collect_file, file_records. intros H.
  apply bind_Ok in H as (tree & -> & H). simpl.
  apply (for_each_store _ _ d0 []) in H as (recs & Hr & ->).
  exists recs. auto.
Qed.

Lemma collect_files_records w root use_lsp (files : list Path) d0 r0 d :
  for_each files (collect_file w root use_lsp) d0 = Ok d ->
  exists recs,
    for_each files
      (fun recs java_path =>
         more ← file_records w root use_lsp java_path; Ok (recs ++ more)) r0
    = Ok (r0 ++ recs)
    /\ d = fold_left store recs d0.
Proof.
  revert d0 r0. induction files as [|p files IH]; intros d0 r0; simpl.
  - intros [= <-]. exists []. rewrite app_nil_r. auto.
  - intros H. apply bind_Ok in H as (d1 & H1 & H2).
    apply collect_file_records in H1 as (more & Hm & ->).
    destruct (IH _ (r0 ++ more) H2) as (recs & Hr & ->).
    exists (more ++ recs). rewrite Hm. simpl.
    rewrite Hr, <- app_assoc, fold_left_app. auto.
Qed.

Lemma collect_infos_records w root use_lsp infos :
  collect_infos w root use_lsp = Ok infos ->
  exists recs, declared_records w root use_lsp = Ok recs
               /\ infos = fold_left store recs [].
Proof.
  intros H. apply (collect_files_records _ _ _ _ _ []) in H. exact H.
Qed.

Lemma stored_keys (recs : list FunctionInfo) d0 :
  NoDup (dict_keys d0) ->
  (forall k i, (k, i) ∈ d0 -> fqn i = k) ->
  NoDup (dict_keys (fold_left store recs d0))
  /\ forall k i, (k, i) ∈ fold_left store recs d0 -> fqn i = k.
Proof.
  revert d0. induction recs as [|r recs IH]; intros d0 Hnd Hk; simpl; [auto|].
  apply IH.
  - apply dict_set_NoDup. exact Hnd.
  - intros k i Hin. unfold store in Hin.
    destruct (decide (fqn r = k)) as [<-|Hne].
    + apply (dict_elem_get _ _ _ (dict_set_NoDup _ _ _ Hnd)) in Hin.
      rewrite dict_get_set_eq in Hin. congruence.
    + apply (dict_elem_get _ _ _ (dict_set_NoDup _ _ _ Hnd)) in Hin.
      rewrite dict_get_set_ne in Hin by exact Hne.
      apply Hk. apply dict_get_elem. exact Hin.
Qed.

Lemma stored_last (recs : list FunctionInfo) d0 k :
  dict_get (fold_left store recs d0) k
  = match last_declared k recs with
    | Some r => Some r
    | None => dict_get d0 k
    end.
Proof.
  revert d0. induction recs as [|r recs IH]; intros d0; simpl; [reflexivity|].
  rewrite IH. destruct (last_declared k recs); [reflexivity|].
  unfold store. destruct (bool_decide (fqn r = k)) eqn:Hb.
  - apply bool_decide_eq_true_1 in Hb as <-. apply dict_get_set_eq.
  - apply bool_decide_eq_false_1 in Hb. apply dict_get_set_ne. exact Hb.
Qed.

Lemma last_declared_Some (recs : list FunctionInfo) r :
  r ∈ recs -> exists r', last_declared (fqn r) recs = Some r'.
Proof.
  induction recs as [|r0 recs IH]; intros Hin; [apply elem_of_nil in Hin as []|].
  simpl. apply elem_of_cons in Hin as [->|Hin].
  - destruct (last_declared (fqn r0) recs); [eauto|].
    rewrite bool_decide_eq_true_2 by reflexivity. eauto.
  - destruct (IH Hin) as (r' & ->). eauto.
Qed.

Lemma last_declared_fqn (recs : list FunctionInfo) k r :
  last_declared k recs = Some r -> fqn r = k /\ r ∈ recs.
Proof.
  induction recs as [|r0 recs IH]; simpl; [discriminate|].
  destruct (last_declared k recs) as [r'|].
  - intros [= <-]. destruct (IH eq_refl) as [? ?]. split; [assumption | by right].
  - destruct (bool_decide (fqn r0 = k)) eqn:Hb; [|discriminate].
    intros [= <-]. apply bool_decide_eq_true_1 in Hb. split; [assumption | left].
Qed.

(** ** Resolution keeps the keys and the metadata of the records *)

Lemma resolve_all_cons w root idx k info (rest : list (string * FunctionInfo)) log :
  resolve_all w root idx ((k, info) :: rest) log
  = let ri := resolve_info w root idx info log in
    let ra := resolve_all w root idx rest ri.2 in
    ((k, ri.1) :: ra.1, ra.2).
Proof.
  cbn [resolve_all].
  destruct (resolve_info w root idx info log) as [info' log1].
  cbn [fst snd].
  destruct (resolve_all w root idx rest log1) as [rest' log2]. reflexivity.
Qed.

Lemma resolve_all_meta w root idx (infos : list (string * FunctionInfo)) log :
  Forall2 same_meta infos (resolve_all w root idx infos log).1.
Proof.
  revert log. induction infos as [|[k info] infos IH]; intros log.
  - constructor.
  - rewrite resolve_all_cons. cbn [fst snd].
    constructor; [|apply IH]. repeat split.
Qed.

Lemma same_meta_keys (d d' : list (string * FunctionInfo)) :
  Forall2 same_meta d d' -> dict_keys d' = dict_keys d.
Proof.
  unfold dict_keys. induction 1 as [|kv kv' d d' (Hk & _) _ IH]; simpl; [reflexivity|].
  rewrite IH, Hk. reflexivity.
Qed.

Lemma same_meta_fqn (d d' : list (string * FunctionInfo)) :
  Forall2 same_meta d d' ->
  (forall k i, (k, i) ∈ d -> fqn i = k) ->
  forall k i, (k, i) ∈ d' -> fqn i = k.
Proof.
  induction 1 as [|kv kv' d d' (Hk & Hf & _) _ IH]; intros Hd k i Hin.
  - apply elem_of_nil in Hin as [].
  - apply elem_of_cons in Hin as [Heq|Hin].
    + subst kv'. simpl in *. rewrite <- Hf, <- Hk. apply Hd. destruct kv. left.
    + apply IH; [|exact Hin]. intros k0 i0 H0. apply Hd. right. exact H0.
Qed.

Lemma same_meta_get (d d' : list (string * FunctionInfo)) k i :
  Forall2 same_meta d d' -> dict_get d k = Some i ->
  exists i', dict_get d' k = Some i' /\ info_attrs i' = info_attrs i.
Proof.
  induction 1 as [|[k0 i0] [k0' i0'] d d' (Hk & _ & Ha) _ IH]; simpl;
    [discriminate|].
  simpl in Hk, Ha. subst k0'.
  destruct (decide (k0 = k)); [|exact IH].
  intros [= <-]. eauto.
Qed.

(** C7: the graph of a project has exactly one node for each fqn among the
    declared records (the node list has no repetition and holds every
    declared fqn), and the node carries the file, start and end of the last
    record declared with that fqn: on a duplicate the later declaration
    overwrites the earlier one. *)
Theorem graph_one_node_per_fqn w root use_lsp G log :
  extract_java_project_call_graph w root use_lsp = (Ok G, log) ->
  exists recs,
    declared_records w root use_lsp = Ok recs
    /\ NoDup (graph_nodes G)
    /\ forall r, r ∈ recs ->
         fqn r ∈ graph_nodes G
         /\ exists r', last_declared (fqn r) recs = Some r'
                       /\ dict_get (g_node G) (fqn r) = Some (Some (info_attrs r')).
Proof.
  unfold extract_java_project_call_graph.
  destruct (negb (is_dir w root)); [discriminate|].
  destruct (collect_infos w root use_lsp) as [infos|] eqn:Hc; [|discriminate].
  destruct (collect_infos_records _ _ _ _ Hc) as (recs & Hr & Hinfos).
  destruct (stored_keys recs []) as [Hnd Hkey].
  { apply NoDup_nil_2. }
  { intros k i Hin. apply elem_of_nil in Hin as []. }
  rewrite <- Hinfos in Hnd, Hkey.
  assert (Hlast : forall r, r ∈ recs ->
            exists r', last_declared (fqn r) recs = Some r'
                       /\ dict_get infos (fqn r) = Some r').
  { intros r Hin. destruct (last_declared_Some _ _ Hin) as (r' & Hl).
    exists r'. split; [exact Hl|]. rewrite Hinfos, stored_last, Hl. reflexivity. }
  intros H. exists recs. split; [exact Hr|].
  destruct use_lsp.
  - unfold resolve_with_lsp in H.
    destruct (negb (_MULTILSPY_AVAILABLE w)); [discriminate|].
    pose proof (resolve_all_meta w root (build_def_index w infos root) infos [])
      as Hm.
    destruct (resolve_all w root (build_def_index w infos root) infos [])
      as [infos' log'] eqn:Hra.
    simpl in Hm. injection H as <- _.
    destruct (build_graph_dict infos') as [HG1 HG2].
    { rewrite (same_meta_keys _ _ Hm). exact Hnd. }
    { apply (same_meta_fqn _ _ Hm Hkey). }
    split; [exact HG1|]. intros r Hin.
    destruct (Hlast r Hin) as (r' & Hl & Hg).
    destruct (same_meta_get _ _ _ _ Hm Hg) as (i' & Hg' & Ha).
    destruct (HG2 _ _ Hg') as [H1 H2].
    split; [exact H1|]. exists r'. split; [exact Hl|]. rewrite H2, Ha. reflexivity.
  - injection H as <- _.
    destruct (build_graph_dict infos Hnd Hkey) as [HG1 HG2].
    split; [exact HG1|]. intros r Hin.
    destruct (Hlast r Hin) as (r' & Hl & Hg).
    destruct (HG2 _ _ Hg) as [H1 H2]. eauto.
Qed.

(** A witness of C7: the two overloads of [Dup.f] give one node, with the
    lines of the second overload. *)
Lemma graph_one_node_per_fqn_witness :
  exists G,
    (extract_java_project_call_graph Examples.Dup_world Examples.proj false).1 = Ok G
    /\ graph_nodes G = ["Dup.f"]
    /\ exists recs,
         declared_records Examples.Dup_world Examples.proj false = Ok recs
         /\ NoDup (graph_nodes G)
         /\ forall r, r ∈ recs ->
              fqn r ∈ graph_nodes G
              /\ exists r', last_declared (fqn r) recs = Some r'
                            /\ dict_get (g_node G) (fqn r)
                               = Some (Some (info_attrs r')).
Proof.
  eexists. split; [vm_compute; reflexivity|].
  split; [vm_compute; reflexivity|].
  apply (graph_one_node_per_fqn Examples.Dup_world Examples.proj false _ []).
  vm_compute. reflexivity.
Defined.

(** ** The resolution loop *)

Lemma resolve_site_calls w root idx (st : gset string * list LspRequest) cs :
  (resolve_site w root idx st cs).1
  = match site_outcome w root idx cs with
    | Some t => {[ t ]} ∪ st.1
    | None => st.1
    end.
Proof.
  unfold resolve_site, site_outcome.
  destruct (site_request root cs) as [req|]; [|reflexivity].
  destruct (site_target w idx (request_definition w root req) cs); reflexivity.
Qed.

Lemma resolve_sites_calls w root idx (sites : list CallSite)
    (st : gset string * list LspRequest) :
  (fold_left (resolve_site w root idx) sites st).1
  = list_to_set (omap (site_outcome w root idx) sites) ∪ st.1.
Proof.
  revert st. induction sites as [|cs sites IH]; intros st; simpl.
  - set_solver.
  - rewrite IH, resolve_site_calls.
    destruct (site_outcome w root idx cs); simpl; set_solver.
Qed.

Lemma resolve_info_calls w root idx info log :
  calls (resolve_info w root idx info log).1
  = list_to_set (omap (site_outcome w root idx) (unresolved_sites info)) ∪ calls info.
Proof. unfold resolve_info. simpl. apply resolve_sites_calls. Qed.

Lemma outcomes_all_same {A} (g : A -> option string) (xs : list A) (t : string) :
  xs <> [] -> (forall x, x ∈ xs -> g x = Some t) ->
  (list_to_set (omap g xs) : gset string) = {[ t ]}.
Proof.
  intros Hne Hall.
  assert (H : (list_to_set (omap g xs) : gset string)
              = match xs with [] => ∅ | _ => {[ t ]} end).
  { clear Hne. induction xs as [|x xs IH]; [reflexivity|].
    cbn [omap list_omap]. rewrite (Hall x) by left. cbn [list_to_set].
    rewrite IH by (intros z Hz; apply Hall; right; exact Hz).
    destruct xs; set_solver. }
  rewrite H. destruct xs; congruence.
Qed.

(** ** A project of one record *)

Lemma build_graph_single (k : string) info (t : string) :
  elements (calls info) = [t] ->
  build_graph [(k, info)]
  = if decide (t = fqn info)
    then {| g_node := [(fqn info, Some (info_attrs info))];
            g_succ := [(fqn info, [fqn info])] |}
    else {| g_node := [(fqn info, Some (info_attrs info)); (t, None)];
            g_succ := [(fqn info, [t]); (t, [])] |}.
Proof.
  intros He. unfold build_graph. simpl. rewrite He. simpl.
  unfold add_edge, touch_node, add_node, dict_has, info_attrs. simpl.
  repeat (case_decide; simpl; try congruence);
    rewrite ?bool_decide_eq_false_2 by apply not_elem_of_nil;
    try reflexivity; try congruence.

Qed.

Lemma collect_infos_key w root use_lsp infos k info :
  collect_infos w root use_lsp = Ok infos -> (k, info) ∈ infos -> fqn info = k.
Proof.
  intros Hc Hin. destruct (collect_infos_records _ _ _ _ Hc) as (recs & _ & ->).
  destruct (stored_keys recs []) as [_ Hkey]; [apply NoDup_nil_2| |eauto].
  intros k0 i0 H0. apply elem_of_nil in H0 as [].
Qed.

(** C5, as the code has it.  For a project whose index holds the single
    record [f]: in syntactic mode, where the only callee recorded is the
    simple name [t] of the function, the graph has the two nodes [f] and [t]
    and the single edge from [f] to [t]; in semantic mode, when every pending
    site of the record resolves to [f] itself, the graph has the single node
    [f] and the single edge from [f] to [f]. *)
Theorem self_recursive_graph w root use_lsp f info G log (t : string) :
  extract_java_project_call_graph w root use_lsp = (Ok G, log) ->
  collect_infos w root use_lsp = Ok [(f, info)] ->
  (use_lsp = false -> calls info = {[ t ]} -> t <> f ->
   graph_nodes G = [f; t] /\ graph_edges G = [(f, t)])
  /\ (use_lsp = true -> calls info = ∅ -> unresolved_sites info <> [] ->
      (forall cs, cs ∈ unresolved_sites info ->
                  site_outcome w root (build_def_index w [(f, info)] root) cs = Some f) ->
      graph_nodes G = [f] /\ graph_edges G = [(f, f)]).
Proof.
  intros HG Hc.
  assert (Hf : fqn info = f).
  { apply (collect_infos_key _ _ _ _ _ _ Hc). left. }
  unfold extract_java_project_call_graph in HG.
  destruct (negb (is_dir w root)); [discriminate|].
  rewrite Hc in HG. split.
  - intros -> Hcalls Hne. injection HG as <- _.
    rewrite (build_graph_single f info t) by (rewrite Hcalls; apply elements_singleton).
    rewrite Hf. destruct (decide (t = f)); [congruence|]. split; reflexivity.
  - intros -> Hcalls Hsites Hall.
    unfold resolve_with_lsp in HG.
    destruct (negb (_MULTILSPY_AVAILABLE w)); [discriminate|].
    rewrite resolve_all_cons in HG. cbn [resolve_all fst snd] in HG.
    apply (f_equal fst) in HG. cbn [fst] in HG. injection HG as <-.
    set (info' := (resolve_info w root (build_def_index w [(f, info)] root) info []).1).
    assert (Hc' : calls info' = {[ f ]}).
    { unfold info'. rewrite resolve_info_calls, Hcalls.
      rewrite (outcomes_all_same _ _ f Hsites Hall). set_solver. }
    assert (Hf' : fqn info' = f) by exact Hf.
    change (graph_nodes (build_graph [(f, info')]) = [f]
            /\ graph_edges (build_graph [(f, info')]) = [(f, f)]).
    rewrite (build_graph_single f info' f)
      by (rewrite Hc'; apply elements_singleton).
    rewrite Hf'. destruct (decide (f = f)); [|congruence]. split; reflexivity.
Qed.

(** A witness of C5 in both modes, on the project [a.b.java]. *)
Lemma self_recursive_graph_witness :
  (exists G,
     (extract_java_project_call_graph Examples.abc_world Examples.proj false).1 = Ok G
     /\ graph_nodes G = ["a.b.c"; "c"] /\ graph_edges G = [("a.b.c", "c")])
  /\ (exists G,
        (extract_java_project_call_graph Examples.abc_lsp_world Examples.proj true).1
        = Ok G
        /\ graph_nodes G = ["a.b.c"] /\ graph_edges G = [("a.b.c", "a.b.c")]).
Proof.
  split.
  - pose (info := {| fqn := "a.b.c"; file_path := "a.b.java"; start_line := 1;
                     end_line := 1; calls := {[ "c" ]}; unresolved_sites := [] |}).
    exists (build_graph [("a.b.c", info)]).
    split; [vm_compute; reflexivity|].
    assert (H1 : extract_java_project_call_graph Examples.abc_world Examples.proj false
                 = (Ok (build_graph [("a.b.c", info)]), []))
      by (vm_compute; reflexivity).
    assert (H2 : collect_infos Examples.abc_world Examples.proj false
                 = Ok [("a.b.c", info)])
      by (vm_compute; reflexivity).
    apply (proj1 (self_recursive_graph _ _ _ _ _ _ _ "c" H1 H2));
      [reflexivity | reflexivity | discriminate].
  - pose (cs := {| target_simple := "c"; cs_file_path := Examples.abc_java;
                   cs_line := 1; cs_column := 13 |}).
    pose (info := {| fqn := "a.b.c"; file_path := "a.b.java"; start_line := 1;
                     end_line := 1; calls := ∅; unresolved_sites := [cs] |}).
    pose (info' := {| fqn := "a.b.c"; file_path := "a.b.java"; start_line := 1;
                      end_line := 1; calls := {[ "a.b.c" ]};
                      unresolved_sites := [] |}).
    exists (build_graph [("a.b.c", info')]).
    split; [vm_compute; reflexivity|].
    assert (H1 : extract_java_project_call_graph Examples.abc_lsp_world
                   Examples.proj true
                 = (Ok (build_graph [("a.b.c", info')]),
                    [{| req_file := "a.b.java"; req_line := 2; req_column := 13 |}]))
      by (vm_compute; reflexivity).
    assert (H2 : collect_infos Examples.abc_lsp_world Examples.proj true
                 = Ok [("a.b.c", info)])
      by (vm_compute; reflexivity).
    apply (proj2 (self_recursive_graph _ _ _ _ _ _ _ "c" H1 H2));
      [reflexivity | reflexivity | discriminate |].
    intros cs' Hcs. apply list_elem_of_singleton in Hcs as ->.
    vm_compute. reflexivity.
Defined.

(** C5 fails as stated: in the default (syntactic) mode the self-recursive
    function [a.b.c] yields two nodes, and its edge leads to the simple name
    [c], not back to [a.b.c]. *)
Lemma self_recursion_is_no_self_loop :
  exists G,
    (extract_java_project_call_graph Examples.abc_world Examples.proj false).1 = Ok G
    /\ graph_nodes G = ["a.b.c"; "c"]
    /\ graph_edges G = [("a.b.c", "c")].
Proof. eexists. repeat split; vm_compute; reflexivity. Qed.

(** ** Semantic resolution of one call site *)

Lemma startswith_truthy p s :
  str_truthy p = true -> startswith p s = true -> str_truthy s = true.
Proof.
  unfold startswith. destruct p; [discriminate|]. destruct s; [discriminate|].
  reflexivity.
Qed.

(** C2, as the code has it.  After the resolution of a record its pending
    sites are cleared and its calls are the former calls plus the outcomes
    of its sites.  A site whose lookup answers with a first location that has
    a [file://] uri and a start line adds the fqn of the interval found for
    it, or the simple name of the callee when no interval of the index
    contains the line.  A site whose lookup raises, answers with no
    location, or answers with a first location without a [file://] uri or
    without a start line adds nothing: that call is left out of the record. *)
Theorem semantic_site_outcomes w root idx :
  (forall info log,
     let info' := (resolve_info w root idx info log).1 in
     calls info'
     = list_to_set (omap (site_outcome w root idx) (unresolved_sites info)) ∪ calls info
     /\ unresolved_sites info' = []
     /\ fqn info' = fqn info)
  /\ (forall cs req loc rest uri line0,
        site_request root cs = Ok req ->
        request_definition w root req = LspLocations (loc :: rest) ->
        location_uri loc = Some uri ->
        startswith "file://" uri = true ->
        location_line loc = Some line0 ->
        site_outcome w root idx cs
        = Some match locate_fqn idx (resolve w (Path_of_str (drop_chars 7 uri))) line0 with
               | Some f => if str_truthy f then f else target_simple cs
               | None => target_simple cs
               end)
  /\ (forall cs req,
        site_request root cs = Ok req ->
        request_definition w root req = LspRaises
        \/ request_definition w root req = LspLocations []
        \/ (exists loc rest,
              request_definition w root req = LspLocations (loc :: rest)
              /\ (location_uri loc = None
                  \/ (exists uri, location_uri loc = Some uri
                                  /\ startswith "file://" uri = false)
                  \/ location_line loc = None)) ->
        site_outcome w root idx cs = None).
Proof.
  split; [|split].
  - intros info log. simpl. split; [apply resolve_sites_calls | auto].
  - intros cs req loc rest uri line0 Hreq Hrep Huri Hfile Hline.
    unfold site_outcome, site_target. rewrite Hreq, Hrep, Huri, Hfile, Hline.
    rewrite (startswith_truthy "file://" uri) by (reflexivity || exact Hfile).
    simpl. destruct (locate_fqn _ _ _); reflexivity.
  - intros cs req Hreq Hcase. unfold site_outcome, site_target. rewrite Hreq.
    destruct Hcase as [-> | [-> | (loc & rest & -> & Hloc)]]; [reflexivity..|].
    destruct Hloc as [-> | [(uri & -> & Hf) | Hl]]; [reflexivity | |].
    + rewrite Hf, andb_false_r. reflexivity.
    + destruct (location_uri loc) as [uri|]; [|reflexivity].
      destruct (str_truthy uri && startswith "file://" uri); [|reflexivity].
      rewrite Hl. reflexivity.
Qed.

(** A witness of C2: in [a.b.java] the site [c()] resolves to [a.b.c] when
    the server answers with the declaration line, and is left out when the
    request raises. *)
Lemma semantic_site_outcomes_witness :
  let cs := {| target_simple := "c"; cs_file_path := Examples.abc_java;
               cs_line := 1; cs_column := 13 |} in
  let idx := [(Examples.abc_java, [((1, 1)%Z, "a.b.c")])] in
  site_outcome Examples.abc_lsp_world Examples.proj idx cs = Some "a.b.c"
  /\ site_outcome Examples.abc_failing_lsp_world Examples.proj idx cs = None.
Proof.
  intros cs idx. split.
  - apply (proj1 (proj2 (semantic_site_outcomes Examples.abc_lsp_world
                           Examples.proj idx))
             cs {| req_file := "a.b.java"; req_line := 2; req_column := 13 |}
             Examples.abc_location [] "file:///proj/a.b.java" 1%Z);
      reflexivity.
  - apply (proj2 (proj2 (semantic_site_outcomes Examples.abc_failing_lsp_world
                           Examples.proj idx))
             cs {| req_file := "a.b.java"; req_line := 2; req_column := 13 |});
      [reflexivity | left; reflexivity].
Defined.

(** C2 fails as stated: with a language server whose requests raise, the
    call [c()] of [a.b.c] is not kept as a simple-name target; the record
    ends with no call and the graph with no edge. *)
Lemma failed_lookup_drops_call :
  exists infos,
    collect_infos Examples.abc_failing_lsp_world Examples.proj true = Ok infos
    /\ map (fun kv => length (unresolved_sites kv.2)) infos = [1%nat]
    /\ (resolve_with_lsp Examples.abc_failing_lsp_world infos Examples.proj).1
       = Ok [("a.b.c", {| fqn := "a.b.c"; file_path := "a.b.java"; start_line := 1;
                          end_line := 1; calls := ∅; unresolved_sites := [] |})]
    /\ exists G,
         (extract_java_project_call_graph Examples.abc_failing_lsp_world
            Examples.proj true).1 = Ok G
         /\ graph_nodes G = ["a.b.c"] /\ graph_edges G = [].
Proof.
  eexists. split; [vm_compute; reflexivity|].
  split; [vm_compute; reflexivity|].
  split; [vm_compute; reflexivity|].
  eexists. repeat split; vm_compute; reflexivity.
Qed.

(** ** The thread pool *)

Lemma main_tasks_executor args t :
  t ∈ Multi.main_tasks args -> Multi.task_executor t = Multi.DEFAULT_EXECUTOR.
Proof.
  unfold Multi.main_tasks. intros Hin.
  apply list_elem_of_fmap in Hin as (p & -> & _). reflexivity.
Qed.

Lemma main_tasks_length args :
  length (Multi.main_tasks args) = length (Multi.projects args).
Proof. unfold Multi.main_tasks. apply length_map. Qed.

Lemma pool_step_event tasks s e s' :
  Multi.pool_step tasks s e s' -> is_pool_event e = true.
Proof. destruct 1; reflexivity. Qed.

Lemma pool_run_events tasks s tr s' :
  Multi.pool_run tasks s tr s' -> Forall (fun e => is_pool_event e = true) tr.
Proof.
  induction 1 as [|s e s' tr s'' Hstep _ IH]; constructor;
    [apply (pool_step_event _ _ _ _ Hstep) | exact IH].
Qed.

Lemma pool_events_written tr :
  Forall (fun e => is_pool_event e = true) tr -> Multi.written tr = [].
Proof.
  unfold Multi.written. induction 1 as [|e tr He _ IH]; [reflexivity|].
  destruct e; try discriminate; exact IH.
Qed.

Lemma written_app tr1 tr2 :
  Multi.written (tr1 ++ tr2) = Multi.written tr1 ++ Multi.written tr2.
Proof. unfold Multi.written. apply omap_app. Qed.

Lemma finished_app tr1 tr2 : finished (tr1 ++ tr2) = finished tr1 ++ finished tr2.
Proof. unfold finished. apply omap_app. Qed.

Lemma finished_elem tr i : i ∈ finished tr <-> Finished i ∈ tr.
Proof.
  unfold finished. rewrite list_elem_of_omap. split.
  - intros (e & He & Hi). destruct e; try discriminate. injection Hi as ->. exact He.
  - intros He. exists (Finished i). auto.
Qed.

Lemma pool_run_completed tasks s tr s' :
  Multi.pool_run tasks s tr s' ->
  Multi.completed s' = Multi.completed s ++ finished tr.
Proof.
  induction 1 as [s|s e s' tr s'' Hstep _ IH]; [symmetry; apply app_nil_r|].
  rewrite IH. destruct Hstep; simpl; [reflexivity|].
  rewrite <- app_assoc. reflexivity.
Qed.

Lemma filter_out_Permutation (l : list nat) i :
  NoDup l -> i ∈ l ->
  l ≡ₚ i :: List.filter (fun j => negb (Nat.eqb j i)) l.
Proof.
  induction l as [|a l IH]; intros Hnd Hin; [apply elem_of_nil in Hin as []|].
  apply NoDup_cons in Hnd as [Ha Hnd]. simpl.
  destruct (Nat.eqb_spec a i) as [->|Hne]; simpl.
  - constructor. clear IH Hin Hnd.
    induction l as [|b l IHl]; [reflexivity|]. simpl.
    apply not_elem_of_cons in Ha as [Hb Ha].
    destruct (Nat.eqb_spec b i); [congruence|]. simpl. f_equiv. auto.
  - apply elem_of_cons in Hin as [|Hin]; [congruence|].
    rewrite (IH Hnd Hin) at 1. apply Permutation_swap.
Qed.

Lemma pool_step_items tasks s e s' :
  Multi.pool_step tasks s e s' -> NoDup (pool_items s) ->
  pool_items s' ≡ₚ pool_items s.
Proof.
  unfold pool_items. destruct 1 as [s i q t Hq _ _|s i Hin]; intros Hnd; simpl.
  - rewrite Hq. simpl. rewrite <- !app_assoc. simpl.
    rewrite <- !Permutation_middle. reflexivity.
  - apply NoDup_app in Hnd as (_ & _ & Hnd).
    apply NoDup_app in Hnd as (Hnd & _ & _).
    rewrite (filter_out_Permutation (Multi.running s) i Hnd Hin) at 2.
    simpl. rewrite <- !Permutation_middle. rewrite app_nil_r. reflexivity.
Qed.

Lemma pool_run_items tasks s tr s' :
  Multi.pool_run tasks s tr s' -> NoDup (pool_items s) ->
  pool_items s' ≡ₚ pool_items s.
Proof.
  induction 1 as [s|s e s' tr s'' Hstep _ IH]; intros Hnd; [reflexivity|].
  pose proof (pool_step_items _ _ _ _ Hstep Hnd) as Hp.
  rewrite IH; [exact Hp|]. rewrite Hp. exact Hnd.
Qed.

(** When the pool has run to the end, every task has finished. *)
Lemma pool_run_all_finished tasks n tr s :
  Multi.pool_run tasks (Multi.init_pool n) tr s ->
  Multi.queued s = [] -> Multi.running s = [] ->
  forall j, (j < n)%nat -> Finished j ∈ tr.
Proof.
  intros Hrun Hq Hr j Hj.
  pose proof (pool_run_items _ _ _ _ Hrun) as Hp.
  pose proof (pool_run_completed _ _ _ _ Hrun) as Hc.
  unfold pool_items in Hp. rewrite Hq, Hr, Hc in Hp. simpl in Hp.
  rewrite !app_nil_r in Hp.
  apply finished_elem. rewrite Hp; [|apply NoDup_seq].
  apply elem_of_seq. lia.
Qed.

(** The number of running tasks never exceeds the capacity of the executor
    the tasks are on. *)
Lemma pool_run_bound tasks (c : Z) s tr s' :
  (forall t, t ∈ tasks -> Multi.max_workers (Multi.task_executor t) = c) ->
  Multi.pool_run tasks s tr s' ->
  (Z.of_nat (length (Multi.running s)) <= c)%Z ->
  (Z.of_nat (length (Multi.running s')) <= c)%Z.
Proof.
  intros Hc. induction 1 as [s|s e s' tr s'' Hstep _ IH]; intros Hb; [exact Hb|].
  apply IH. destruct Hstep as [s i q t _ Ht Hlt|s i _]; simpl.
  - rewrite length_app. simpl.
    rewrite (Hc t) in Hlt by (eapply list_elem_of_lookup_2; exact Ht). lia.
  - pose proof (List.filter_length_le (fun j => negb (Nat.eqb j i))
                  (Multi.running s)).
    lia.
Qed.

(** ** The output loop *)

Lemma dispatch_written w output (results : list (DiGraph * Path)) i evs st :
  Multi.dispatch w output i results = (evs, st) ->
  Forall (fun e => is_pool_event e = false) evs
  /\ exists k,
       Multi.written evs = seq i k
       /\ (k <= length results)%nat
       /\ (st = Ok tt <-> k = length results)
       /\ (forall j g root e,
             results !! j = Some (g, root) ->
             write_files w (i + j) (project_dir output root) (graph_document g)
             = Raise e ->
             (k <= j)%nat).
Proof.
  revert i evs st. induction results as [|[g root] results IH]; intros i evs st.
  - simpl. intros [= <- <-]. split; [constructor|]. exists 0%nat.
    repeat split; try reflexivity. intros j ? ? ? Hj. discriminate Hj.
  - cbn [Multi.dispatch]. fold (project_dir output root).
    destruct (os_mkdir w i (project_dir output root)) as [[]|e0] eqn:Hmk.
    + destruct (write_files w i (project_dir output root) (graph_document g))
        as [[]|e1] eqn:Hwr.
      * destruct (Multi.dispatch w output (S i) results) as [evs' st'] eqn:Hd.
        intros [= <- <-]. destruct (IH _ _ _ Hd) as (Hev & k & Hk1 & Hk2 & Hk3 & Hk4).
        split; [repeat constructor; exact Hev|].
        exists (S k). simpl. unfold Multi.written in *. simpl. rewrite Hk1.
        repeat split; try lia.
        -- intros ->. f_equal. apply Hk3. reflexivity.
        -- intros [= ->]. apply Hk3. reflexivity.
        -- intros [|j] g' root' e; simpl.
           ++ intros [= <- <-]. rewrite Nat.add_0_r, Hwr. discriminate.
           ++ intros Hj Hw. apply le_n_S. apply (Hk4 j g' root' e Hj).
              rewrite <- Hw. f_equal. lia.
      * assert (Hgen : forall evs0 st0,
                  Forall (fun e => is_pool_event e = false) evs0 ->
                  Multi.written evs0 = [] -> st0 <> Ok tt ->
                  (evs0, st0) = (evs, st) ->
                  Forall (fun e => is_pool_event e = false) evs
                  /\ exists k, Multi.written evs = seq i k
                       /\ (k <= length ((g, root) :: results))%nat
                       /\ (st = Ok tt <-> k = length ((g, root) :: results))
                       /\ (forall j g0 root0 e,
                             ((g, root) :: results) !! j = Some (g0, root0) ->
                             write_files w (i + j) (project_dir output root0)
                               (graph_document g0) = Raise e -> (k <= j)%nat)).
        { intros evs0 st0 H1 H2 H3 [= <- <-]. split; [exact H1|].
          exists 0%nat. rewrite H2. simpl. repeat split; try lia; try congruence. }
        destruct e1; intros He; eapply Hgen; try exact He;
          try (repeat constructor); try reflexivity; discriminate.
    + destruct e0;
        try (intros [= <- <-]; split; [constructor|]; exists 0%nat; simpl;
             repeat split; try lia; try congruence; try reflexivity).
      destruct (write_files w i (project_dir output root) (graph_document g))
        as [[]|e1] eqn:Hwr.
      * destruct (Multi.dispatch w output (S i) results) as [evs' st'] eqn:Hd.
        intros [= <- <-]. destruct (IH _ _ _ Hd) as (Hev & k & Hk1 & Hk2 & Hk3 & Hk4).
        split; [repeat constructor; exact Hev|].
        exists (S k). simpl. unfold Multi.written in *. simpl. rewrite Hk1.
        repeat split; try lia.
        -- intros ->. f_equal. apply Hk3. reflexivity.
        -- intros [= ->]. apply Hk3. reflexivity.
        -- intros [|j] g' root' e; simpl.
           ++ intros [= <- <-]. rewrite Nat.add_0_r, Hwr. discriminate.
           ++ intros Hj Hw. apply le_n_S. apply (Hk4 j g' root' e Hj).
              rewrite <- Hw. f_equal. lia.
      * destruct e1; intros [= <- <-];
          (split; [repeat constructor|]); exists 0%nat; simpl;
          repeat split; try lia; try congruence; try reflexivity.
Qed.

Lemma dispatch_all_ok w output (results : list (DiGraph * Path)) i :
  (forall j g root, results !! j = Some (g, root) ->
     write_files w (i + j) (project_dir output root) (graph_document g) = Ok tt) ->
  (forall j dir, os_mkdir w j dir = Ok tt \/ exists m, os_mkdir w j dir = Raise (OSError m)) ->
  (Multi.dispatch w output i results).2 = Ok tt.
Proof.
  revert i. induction results as [|[g root] results IH]; intros i Hw Hm; [reflexivity|].
  cbn [Multi.dispatch]. fold (project_dir output root).
  pose proof (Hw 0%nat g root eq_refl) as Hw0. rewrite Nat.add_0_r in Hw0.
  assert (IH' : (Multi.dispatch w output (S i) results).2 = Ok tt).
  { apply IH; [|exact Hm]. intros j g' root' Hj.
    rewrite <- (Hw (S j) g' root' Hj). f_equal. lia. }
  destruct (Hm i (project_dir output root)) as [->|(m & ->)]; rewrite Hw0;
    destruct (Multi.dispatch w output (S i) results); exact IH'.
Qed.

Lemma dispatch_reports_failure w output (results : list (DiGraph * Path)) i j g root m :
  results !! j = Some (g, root) ->
  (forall j' dir doc, (j' < j)%nat -> write_files w (i + j') dir doc = Ok tt) ->
  (forall j' dir, (j' <= j)%nat ->
     os_mkdir w (i + j') dir = Ok tt
     \/ exists m', os_mkdir w (i + j') dir = Raise (OSError m')) ->
  write_files w (i + j) (project_dir output root) (graph_document g)
  = Raise (OSError m) ->
  exists evs0,
    Multi.dispatch w output i results
    = (evs0 ++ [PrintedFailure (project_dir output root); PrintedError (OSError m)],
       Raise (SystemExit ""))
    /\ Multi.written evs0 = seq i j.
Proof.
  revert i j. induction results as [|[g0 root0] results IH]; intros i j Hj Hw Hm Hfail;
    [discriminate Hj|].
  cbn [Multi.dispatch]. fold (project_dir output root0).
  destruct j as [|j].
  - injection Hj as -> ->. rewrite Nat.add_0_r in Hfail. rewrite Hfail.
    destruct (Hm 0%nat (project_dir output root) (Nat.le_refl _)) as [Hmk|(m' & Hmk)];
      rewrite Nat.add_0_r in Hmk; rewrite Hmk.
    + exists []. split; reflexivity.
    + exists [PrintedError (OSError m')]. split; reflexivity.
  - simpl in Hj.
    pose proof (Hw 0%nat (project_dir output root0) (graph_document g0)
                   ltac:(lia)) as Hw0.
    rewrite Nat.add_0_r in Hw0. rewrite Hw0.
    destruct (IH (S i) j Hj) as (evs0 & Hd & Hwr).
    { intros j' dir doc Hlt. rewrite <- (Hw (S j') dir doc) by lia. f_equal. lia. }
    { intros j' dir Hle.
      replace (S i + j')%nat with (i + S j')%nat by lia. apply Hm. lia. }
    { rewrite <- Hfail. f_equal. lia. }
    rewrite Hd.
    destruct (Hm 0%nat (project_dir output root0) ltac:(lia)) as [Hmk|(m' & Hmk)];
      rewrite Nat.add_0_r in Hmk; rewrite Hmk.
    + eexists (_ :: _ :: evs0). split; [reflexivity|].
      cbn [seq]. rewrite <- Hwr. reflexivity.
    + eexists (_ :: _ :: _ :: evs0). split; [reflexivity|].
      cbn [seq]. rewrite <- Hwr. reflexivity.
Qed.

Lemma dispatch_reports_mkdir w output (results : list (DiGraph * Path)) i j g root m evs st :
  Multi.dispatch w output i results = (evs, st) ->
  results !! j = Some (g, root) ->
  os_mkdir w (i + j) (project_dir output root) = Raise (OSError m) ->
  (i + j)%nat ∈ Multi.written evs ->
  exists e1 e2,
    evs = e1 ++ PrintedError (OSError m)
             :: WroteGraph (i + j) (project_dir output root) (graph_document g) :: e2.
Proof.
  revert i j evs st.
  induction results as [|[g0 root0] results IH]; intros i j evs st Hd Hj Hmk Hin;
    [discriminate Hj|].
  cbn [Multi.dispatch] in Hd. fold (project_dir output root0) in Hd.
  destruct j as [|j].
  - injection Hj as -> ->. rewrite Nat.add_0_r in *. rewrite Hmk in Hd.
    destruct (write_files w i (project_dir output root) (graph_document g))
      as [[]|e1].
    + destruct (Multi.dispatch w output (S i) results) as [evs' st'].
      injection Hd as <- <-. exists [], (PrintedWrote (project_dir output root) :: evs').
      reflexivity.
    + destruct e1; injection Hd as <- <-; vm_compute in Hin;
        apply elem_of_nil in Hin as [].
  - simpl in Hj.
    assert (Hrest : forall evs_mk,
              Multi.written evs_mk = [] ->
              forall evs' st',
                Multi.dispatch w output (S i) results = (evs', st') ->
                (i + S j)%nat
                ∈ Multi.written (evs_mk ++ [WroteGraph i (project_dir output root0)
                                              (graph_document g0);
                                            PrintedWrote (project_dir output root0)]
                                 ++ evs') ->
                exists e1 e2,
                  evs_mk ++ [WroteGraph i (project_dir output root0) (graph_document g0);
                             PrintedWrote (project_dir output root0)] ++ evs'
                  = e1 ++ PrintedError (OSError m)
                       :: WroteGraph (i + S j) (project_dir output root)
                            (graph_document g) :: e2).
    { intros evs_mk Hmk0 evs' st' Hd' Hin'.
      rewrite !written_app, Hmk0 in Hin'. simpl in Hin'.
      apply elem_of_cons in Hin' as [Heq|Hin']; [lia|].
      replace (i + S j)%nat with (S i + j)%nat in * by lia.
      destruct (IH (S i) j evs' st' Hd' Hj Hmk Hin') as (e1 & e2 & ->).
      exists (evs_mk ++ [WroteGraph i (project_dir output root0) (graph_document g0);
                         PrintedWrote (project_dir output root0)] ++ e1), e2.
      rewrite <- !app_assoc. reflexivity. }
    destruct (os_mkdir w i (project_dir output root0)) as [[]|e0].
    + destruct (write_files w i (project_dir output root0) (graph_document g0))
        as [[]|e1].
      * destruct (Multi.dispatch w output (S i) results) as [evs' st'] eqn:Hd'.
        injection Hd as <- <-. apply (Hrest [] eq_refl evs' st' eq_refl Hin).
      * destruct e1; injection Hd as <- <-; vm_compute in Hin;
          apply elem_of_nil in Hin as [].
    + destruct e0; try (injection Hd as <- <-; vm_compute in Hin;
                        apply elem_of_nil in Hin as []).
      destruct (write_files w i (project_dir output root0) (graph_document g0))
        as [[]|e1].
      * destruct (Multi.dispatch w output (S i) results) as [evs' st'] eqn:Hd'.
        injection Hd as <- <-.
        apply (Hrest [PrintedError (OSError msg)] eq_refl evs' st' eq_refl Hin).
      * destruct e1; injection Hd as <- <-; vm_compute in Hin;
          apply elem_of_nil in Hin as [].
Qed.

Lemma gathered_Some w tasks results :
  Multi.gathered w tasks = Some results ->
  Forall2 (fun t r => Multi.task_result w t = Ok r.1 /\ r.2 = Multi.task_root t)
          tasks results.
Proof.
  unfold Multi.gathered. intros H. apply mapM_Some in H.
  eapply Forall2_impl; [exact H|]. intros t [g root]. simpl.
  destruct (Multi.task_result w t); [|discriminate]. intros [= -> ->]. auto.
Qed.

(** ** The runs of the multi-project script *)

(** Every write of a run comes after the last pipeline has finished. *)
Lemma main_writes_after_pool w args tr st :
  Multi.main w args tr st ->
  forall tr1 i dir doc tr2,
    tr = tr1 ++ WroteGraph i dir doc :: tr2 ->
    forall j, (j < length (Multi.projects args))%nat -> Finished j ∈ tr1.
Proof.
  assert (Hno : forall tr0 tr1 i dir doc tr2,
            Forall (fun e => is_pool_event e = true) tr0 ->
            tr0 <> tr1 ++ WroteGraph i dir doc :: tr2).
  { intros tr0 tr1 i dir doc tr2 Hall ->.
    apply Forall_app in Hall as [_ Hall]. apply Forall_cons in Hall as [H _].
    discriminate H. }
  destruct 1 as [e _|pool tr s i t e _ Hrun _ _ _|pool tr s results evs st _ Hrun Hq Hr _ Hd];
    intros tr1 i' dir doc tr2 Heq j Hj.
  - destruct tr1; discriminate Heq.
  - exfalso. apply (Hno _ _ _ _ _ _ (pool_run_events _ _ _ _ Hrun) Heq).
  - rewrite <- main_tasks_length in Hj.
    pose proof (pool_run_all_finished _ _ _ _ Hrun Hq Hr j Hj) as Hfin.
    apply app_eq_inv in Heq as [(k & Htr & Hk)|(k & -> & _)].
    + destruct k as [|e k].
      * rewrite app_nil_r in Htr. subst tr. exact Hfin.
      * exfalso. injection Hk as <- _.
        apply (Hno _ _ _ _ _ _ (pool_run_events _ _ _ _ Hrun) Htr).
    + apply elem_of_app. left. exact Hfin.
Qed.

Ltac pool_start :=
  eapply Multi.run_step;
  [ eapply Multi.step_start; [reflexivity | reflexivity | simpl; lia] | simpl ].

Ltac pool_finish :=
  eapply Multi.run_step;
  [ eapply Multi.step_finish; simpl; repeat constructor | simpl ].

(** A run of two projects in which the first pipeline has finished before
    the second one starts. *)
Lemma two_projects_run :
  Multi.main Examples.nothing_fails Examples.two_projects
    [ Started 0; Finished 0; Started 1; Finished 1;
      WroteGraph 0 (mkPath OneSlash ["out"; "p0"]) Examples.empty_doc;
      PrintedWrote (mkPath OneSlash ["out"; "p0"]);
      WroteGraph 1 (mkPath OneSlash ["out"; "p1"]) Examples.empty_doc;
      PrintedWrote (mkPath OneSlash ["out"; "p1"]) ]
    (Ok tt).
Proof.
  apply (Multi.main_dispatch Examples.nothing_fails Examples.two_projects
           {| Multi.max_workers := 4 |}
           [Started 0; Finished 0; Started 1; Finished 1]
           {| Multi.queued := []; Multi.running := []; Multi.completed := [0; 1]%nat |}
           [(empty_graph, Examples.project "p0"); (empty_graph, Examples.project "p1")]);
    [reflexivity | | reflexivity | reflexivity | vm_compute; reflexivity
     | vm_compute; reflexivity].
  simpl. pool_start. pool_finish. pool_start. pool_finish. apply Multi.run_done.
Qed.

(** C8, as the code has it: [main] awaits the results of all tasks before
    the output loop starts, so in every run each write comes after the
    pipelines of all projects have finished. *)
Theorem writes_follow_global_barrier w args tr st :
  Multi.main w args tr st ->
  forall tr1 i dir doc tr2,
    tr = tr1 ++ WroteGraph i dir doc :: tr2 ->
    forall j, (j < length (Multi.projects args))%nat -> Finished j ∈ tr1.
Proof. apply main_writes_after_pool. Qed.

(** A witness of C8: in the run of two projects the write for the first
    project comes after the second pipeline has finished. *)
Lemma writes_follow_global_barrier_witness :
  Finished 1 ∈ [Started 0; Finished 0; Started 1; Finished 1].
Proof.
  apply (writes_follow_global_barrier _ _ _ _ two_projects_run
           [Started 0; Finished 0; Started 1; Finished 1] 0%nat
           (mkPath OneSlash ["out"; "p0"]) Examples.empty_doc
           [ PrintedWrote (mkPath OneSlash ["out"; "p0"]);
             WroteGraph 1 (mkPath OneSlash ["out"; "p1"]) Examples.empty_doc;
             PrintedWrote (mkPath OneSlash ["out"; "p1"]) ]
           eq_refl 1%nat).
  simpl. lia.
Defined.

(** C8 fails as stated: in this run of two projects the first graph is ready
    before the second pipeline has even started, and its output is written
    only after the second pipeline has finished; and no run of these two
    projects writes the first output before the second pipeline has
    finished. *)
Lemma write_waits_for_sibling :
  Multi.main Examples.nothing_fails Examples.two_projects
    [ Started 0; Finished 0; Started 1; Finished 1;
      WroteGraph 0 (mkPath OneSlash ["out"; "p0"]) Examples.empty_doc;
      PrintedWrote (mkPath OneSlash ["out"; "p0"]);
      WroteGraph 1 (mkPath OneSlash ["out"; "p1"]) Examples.empty_doc;
      PrintedWrote (mkPath OneSlash ["out"; "p1"]) ]
    (Ok tt)
  /\ (forall tr st tr1 dir doc tr2,
        Multi.main Examples.nothing_fails Examples.two_projects tr st ->
        tr = tr1 ++ WroteGraph 0 dir doc :: tr2 ->
        Finished 1 ∈ tr1).
Proof.
  split; [exact two_projects_run|].
  intros tr st tr1 dir doc tr2 Hmain Heq.
  apply (main_writes_after_pool _ _ _ _ Hmain _ _ _ _ _ Heq). simpl. lia.
Qed.

Lemma main_tasks_lookup args j root :
  Multi.projects args !! j = Some root ->
  Multi.main_tasks args !! j
  = Some (Multi.async_extract_java_project_call_graph root (Multi.lsp args) None).
Proof. intros H. unfold Multi.main_tasks. rewrite list_lookup_fmap, H. reflexivity. Qed.

(** What a run writes, and how it ends. *)
Lemma main_outputs w args tr st :
  Multi.main w args tr st ->
  exists k,
    Multi.written tr = seq 0 k
    /\ (k <= length (Multi.projects args))%nat
    /\ (st = Ok tt -> k = length (Multi.projects args))
    /\ ((exists t e, t ∈ Multi.main_tasks args /\ Multi.task_result w t = Raise e) ->
        k = 0%nat /\ st <> Ok tt)
    /\ (forall j root G e,
          Multi.projects args !! j = Some root ->
          Multi.task_result w
            (Multi.async_extract_java_project_call_graph root (Multi.lsp args) None)
          = Ok G ->
          write_files w j (project_dir (Multi.output args) root) (graph_document G)
          = Raise e ->
          (k <= j)%nat /\ st <> Ok tt)
    /\ ((0 < Multi.arg_max_workers args)%Z ->
        (forall t, t ∈ Multi.main_tasks args -> is_ok (Multi.task_result w t) = true) ->
        (forall j dir doc, write_files w j dir doc = Ok tt) ->
        (forall j dir, os_mkdir w j dir = Ok tt
                       \/ exists m, os_mkdir w j dir = Raise (OSError m)) ->
        st = Ok tt /\ k = length (Multi.projects args))
    /\ (forall j root G m,
          (0 < Multi.arg_max_workers args)%Z ->
          (forall t, t ∈ Multi.main_tasks args -> is_ok (Multi.task_result w t) = true) ->
          Multi.projects args !! j = Some root ->
          Multi.task_result w
            (Multi.async_extract_java_project_call_graph root (Multi.lsp args) None)
          = Ok G ->
          (forall i dir doc, (i < j)%nat -> write_files w i dir doc = Ok tt) ->
          (forall i dir, (i <= j)%nat ->
             os_mkdir w i dir = Ok tt
             \/ exists m', os_mkdir w i dir = Raise (OSError m')) ->
          write_files w j (project_dir (Multi.output args) root) (graph_document G)
          = Raise (OSError m) ->
          k = j
          /\ st = Raise (SystemExit "")
          /\ exists tr0,
               tr = tr0 ++ [PrintedFailure (project_dir (Multi.output args) root);
                            PrintedError (OSError m)])
    /\ (forall j root G m,
          Multi.projects args !! j = Some root ->
          Multi.task_result w
            (Multi.async_extract_java_project_call_graph root (Multi.lsp args) None)
          = Ok G ->
          os_mkdir w j (project_dir (Multi.output args) root) = Raise (OSError m) ->
          (j < k)%nat ->
          exists tr1 tr2,
            tr = tr1 ++ PrintedError (OSError m)
                     :: WroteGraph j (project_dir (Multi.output args) root)
                          (graph_document G) :: tr2).
Proof.
  destruct 1 as [e He|pool tr s i t e _ Hrun Hi Hres _
                 |pool tr s results evs st _ Hrun Hq Hr Hg Hd].
  - assert (Hneg : ~ (0 < Multi.arg_max_workers args)%Z).
    { unfold Multi.new_executor in He.
      destruct (Z.leb_spec (Multi.arg_max_workers args) 0); [lia | discriminate]. }
    exists 0%nat.
    split; [reflexivity|]. split; [lia|]. split; [discriminate|].
    split; [intros _; split; [reflexivity | discriminate]|].
    split; [intros; split; [lia | discriminate]|].
    split; [intros Hpos; contradiction|].
    split; [intros j root G m Hpos; contradiction|].
    intros j root G m _ _ _ Hlt. exfalso; lia.
  - assert (Hbad : ~ (forall t, t ∈ Multi.main_tasks args ->
                                is_ok (Multi.task_result w t) = true)).
    { intros Hall. apply list_elem_of_lookup_2 in Hi. apply Hall in Hi.
      rewrite Hres in Hi. discriminate Hi. }
    exists 0%nat.
    rewrite (pool_events_written _ (pool_run_events _ _ _ _ Hrun)).
    split; [reflexivity|]. split; [lia|]. split; [discriminate|].
    split; [intros _; split; [reflexivity | discriminate]|].
    split; [intros; split; [lia | discriminate]|].
    split; [intros _ Hall; contradiction|].
    split; [intros j root G m _ Hall; contradiction|].
    intros j root G m _ _ _ Hlt. exfalso; lia.
  - destruct (dispatch_written _ _ _ _ _ _ Hd) as (_ & k & Hk1 & Hk2 & Hk3 & Hk4).
    pose proof (gathered_Some _ _ _ Hg) as HF.
    pose proof (Forall2_length _ _ _ HF) as Hlen.
    rewrite main_tasks_length in Hlen.
    assert (Hres : forall j root G,
              Multi.projects args !! j = Some root ->
              Multi.task_result w
                (Multi.async_extract_java_project_call_graph root (Multi.lsp args) None)
              = Ok G ->
              results !! j = Some (G, root)).
    { intros j root G Hj HG.
      pose proof (main_tasks_lookup _ _ _ Hj) as Ht.
      destruct (Forall2_lookup_l _ _ _ _ _ HF Ht) as ([g r] & Hrj & Hg' & Hroot).
      simpl in Hg', Hroot. subst r.
      rewrite HG in Hg'. injection Hg' as <-. exact Hrj. }
    exists k. rewrite written_app.
    rewrite (pool_events_written _ (pool_run_events _ _ _ _ Hrun)). simpl.
    split; [exact Hk1|]. split; [lia|].
    split; [intros Hst; rewrite Hlen; apply Hk3; exact Hst|].
    split; [|split; [|split; [|split]]].
    + intros (t & e & Hin & He). exfalso.
      apply list_elem_of_lookup_1 in Hin as (j & Hj).
      destruct (Forall2_lookup_l _ _ _ _ _ HF Hj) as (r & _ & Hr' & _).
      congruence.
    + intros j root G e Hj HG Hw.
      pose proof (Hres j root G Hj HG) as Hrj.
      pose proof (Hk4 j G root e Hrj Hw) as Hle.
      split; [exact Hle|]. intros Hst. apply Hk3 in Hst.
      apply lookup_lt_Some in Hrj. lia.
    + intros _ _ Hw Hm.
      assert (Hst : st = Ok tt).
      { pose proof (dispatch_all_ok w (Multi.output args) results 0%nat) as H.
        rewrite Hd in H. apply H; [|exact Hm]. intros; apply Hw. }
      split; [exact Hst|]. rewrite Hlen. apply Hk3. exact Hst.
    + intros j root G m _ _ Hj HG Hw Hm Hfail.
      pose proof (Hres j root G Hj HG) as Hrj.
      destruct (dispatch_reports_failure w (Multi.output args) results 0%nat j G root m
                  Hrj Hw Hm Hfail) as (evs0 & Hd' & Hwr).
      rewrite Hd in Hd'. injection Hd' as -> ->.
      rewrite written_app, Hwr in Hk1. simpl in Hk1. rewrite app_nil_r in Hk1.
      split; [|split; [reflexivity|]].
      * apply (f_equal length) in Hk1. rewrite !length_seq in Hk1. lia.
      * exists (tr ++ evs0). rewrite <- app_assoc. reflexivity.
    + intros j root G m Hj HG Hmk Hlt.
      pose proof (Hres j root G Hj HG) as Hrj.
      destruct (dispatch_reports_mkdir w (Multi.output args) results 0%nat j G root m
                  evs st Hd Hrj Hmk) as (e1 & e2 & ->).
      { rewrite Hk1. apply elem_of_seq. lia. }
      exists (tr ++ e1), e2. rewrite <- app_assoc. reflexivity.
Qed.

(** C1, as the code has it.  A run writes the outputs of the first [k]
    projects of the list, in list order.  If the pipeline of any project
    fails, [gather] raises and nothing is written.  If the write for project
    [j] raises, the run ends there: no project from [j] on is written.  The
    run returns normally only when every project was written; that is the
    case when the pool can be created, every pipeline and every write
    succeeds and creating a directory fails at most with an [OSError].
    What is reported: when the output loop comes to a project whose write
    raises an [OSError], the run prints the failure line for its directory
    and the error as its last two events and exits with [sys.exit()]; and
    when creating the directory of a written project raised an [OSError],
    that error was printed and the write followed it at once. *)
Theorem output_stops_at_first_failure w args tr st :
  Multi.main w args tr st ->
  exists k,
    Multi.written tr = seq 0 k
    /\ (k <= length (Multi.projects args))%nat
    /\ (st = Ok tt -> k = length (Multi.projects args))
    /\ ((exists t e, t ∈ Multi.main_tasks args /\ Multi.task_result w t = Raise e) ->
        k = 0%nat /\ st <> Ok tt)
    /\ (forall j root G e,
          Multi.projects args !! j = Some root ->
          Multi.task_result w
            (Multi.async_extract_java_project_call_graph root (Multi.lsp args) None)
          = Ok G ->
          write_files w j (project_dir (Multi.output args) root) (graph_document G)
          = Raise e ->
          (k <= j)%nat /\ st <> Ok tt)
    /\ ((0 < Multi.arg_max_workers args)%Z ->
        (forall t, t ∈ Multi.main_tasks args -> is_ok (Multi.task_result w t) = true) ->
        (forall j dir doc, write_files w j dir doc = Ok tt) ->
        (forall j dir, os_mkdir w j dir = Ok tt
                       \/ exists m, os_mkdir w j dir = Raise (OSError m)) ->
        st = Ok tt /\ k = length (Multi.projects args))
    /\ (forall j root G m,
          (0 < Multi.arg_max_workers args)%Z ->
          (forall t, t ∈ Multi.main_tasks args -> is_ok (Multi.task_result w t) = true) ->
          Multi.projects args !! j = Some root ->
          Multi.task_result w
            (Multi.async_extract_java_project_call_graph root (Multi.lsp args) None)
          = Ok G ->
          (forall i dir doc, (i < j)%nat -> write_files w i dir doc = Ok tt) ->
          (forall i dir, (i <= j)%nat ->
             os_mkdir w i dir = Ok tt
             \/ exists m', os_mkdir w i dir = Raise (OSError m')) ->
          write_files w j (project_dir (Multi.output args) root) (graph_document G)
          = Raise (OSError m) ->
          k = j
          /\ st = Raise (SystemExit "")
          /\ exists tr0,
               tr = tr0 ++ [PrintedFailure (project_dir (Multi.output args) root);
                            PrintedError (OSError m)])
    /\ (forall j root G m,
          Multi.projects args !! j = Some root ->
          Multi.task_result w
            (Multi.async_extract_java_project_call_graph root (Multi.lsp args) None)
          = Ok G ->
          os_mkdir w j (project_dir (Multi.output args) root) = Raise (OSError m) ->
          (j < k)%nat ->
          exists tr1 tr2,
            tr = tr1 ++ PrintedError (OSError m)
                     :: WroteGraph j (project_dir (Multi.output args) root)
                          (graph_document G) :: tr2).
Proof. apply main_outputs. Qed.

(** A run of three projects in which the write for the second project
    fails: the third project is never written. *)
Lemma second_write_fails_run :
  Multi.main Examples.second_write_fails Examples.three_projects
    [ Started 0; Started 1; Started 2; Finished 0; Finished 1; Finished 2;
      WroteGraph 0 (mkPath OneSlash ["out"; "p0"]) Examples.empty_doc;
      PrintedWrote (mkPath OneSlash ["out"; "p0"]);
      PrintedFailure (mkPath OneSlash ["out"; "p1"]);
      PrintedError (OSError "No space left on device") ]
    (Raise (SystemExit "")).
Proof.
  apply (Multi.main_dispatch Examples.second_write_fails Examples.three_projects
           {| Multi.max_workers := 4 |}
           [Started 0; Started 1; Started 2; Finished 0; Finished 1; Finished 2]
           {| Multi.queued := []; Multi.running := [];
              Multi.completed := [0; 1; 2]%nat |}
           [(empty_graph, Examples.project "p0"); (empty_graph, Examples.project "p1");
            (empty_graph, Examples.project "p2")]);
    [reflexivity | | reflexivity | reflexivity | vm_compute; reflexivity
     | vm_compute; reflexivity].
  simpl. pool_start. pool_start. pool_start.
  pool_finish. pool_finish. pool_finish. apply Multi.run_done.
Qed.

(** A run of three projects in which the second root is not a directory:
    its pipeline exits and [main] ends before any output. *)
Lemma second_root_missing_run :
  Multi.main Examples.second_root_missing Examples.three_projects
    [Started 0; Started 1; Started 2; Finished 1]
    (Raise (SystemExit "Not a directory: /work/p1")).
Proof.
  apply (Multi.main_gather_raises Examples.second_root_missing
           Examples.three_projects {| Multi.max_workers := 4 |}
           [Started 0; Started 1; Started 2]
           {| Multi.queued := []; Multi.running := [0; 2]%nat;
              Multi.completed := [1%nat] |}
           1%nat
           (Multi.async_extract_java_project_call_graph (Examples.project "p1")
              false None));
    [reflexivity | | reflexivity | vm_compute; reflexivity |].
  - simpl. pool_start. pool_start. pool_start. pool_finish. apply Multi.run_done.
  - intros j t' Hin.
    repeat (apply elem_of_cons in Hin as [Hin|Hin]; [discriminate Hin|]).
    apply elem_of_nil in Hin as [].
Qed.

(** A run of two projects in which the directory of the first project
    exists already: the error is printed and both outputs are written. *)
Lemma first_dir_exists_run :
  Multi.main Examples.first_dir_exists Examples.two_projects
    [ Started 0; Finished 0; Started 1; Finished 1;
      PrintedError (OSError "File exists");
      WroteGraph 0 (mkPath OneSlash ["out"; "p0"]) Examples.empty_doc;
      PrintedWrote (mkPath OneSlash ["out"; "p0"]);
      WroteGraph 1 (mkPath OneSlash ["out"; "p1"]) Examples.empty_doc;
      PrintedWrote (mkPath OneSlash ["out"; "p1"]) ]
    (Ok tt).
Proof.
  apply (Multi.main_dispatch Examples.first_dir_exists Examples.two_projects
           {| Multi.max_workers := 4 |}
           [Started 0; Finished 0; Started 1; Finished 1]
           {| Multi.queued := []; Multi.running := []; Multi.completed := [0; 1]%nat |}
           [(empty_graph, Examples.project "p0"); (empty_graph, Examples.project "p1")]);
    [reflexivity | | reflexivity | reflexivity | vm_compute; reflexivity
     | vm_compute; reflexivity].
  simpl. pool_start. pool_finish. pool_start. pool_finish. apply Multi.run_done.
Qed.

(** A witness of C1: the run with the failing write stops before the third
    project and ends with the two lines that report the failure; the run in
    which nothing fails writes both projects; the run in which a directory
    exists already prints the error and writes the project all the same. *)
Lemma output_stops_at_first_failure_witness :
  (exists k,
     Multi.written
       [ Started 0; Started 1; Started 2; Finished 0; Finished 1; Finished 2;
         WroteGraph 0 (mkPath OneSlash ["out"; "p0"]) Examples.empty_doc;
         PrintedWrote (mkPath OneSlash ["out"; "p0"]);
         PrintedFailure (mkPath OneSlash ["out"; "p1"]);
         PrintedError (OSError "No space left on device") ]
     = seq 0 k
     /\ (k <= 1)%nat)
  /\ (exists k,
        Multi.written
          [ Started 0; Finished 0; Started 1; Finished 1;
            WroteGraph 0 (mkPath OneSlash ["out"; "p0"]) Examples.empty_doc;
            PrintedWrote (mkPath OneSlash ["out"; "p0"]);
            WroteGraph 1 (mkPath OneSlash ["out"; "p1"]) Examples.empty_doc;
            PrintedWrote (mkPath OneSlash ["out"; "p1"]) ]
        = seq 0 k
        /\ k = 2%nat)
  /\ (exists tr0,
        [ Started 0; Started 1; Started 2; Finished 0; Finished 1; Finished 2;
          WroteGraph 0 (mkPath OneSlash ["out"; "p0"]) Examples.empty_doc;
          PrintedWrote (mkPath OneSlash ["out"; "p0"]);
          PrintedFailure (mkPath OneSlash ["out"; "p1"]);
          PrintedError (OSError "No space left on device") ]
        = tr0 ++ [PrintedFailure (mkPath OneSlash ["out"; "p1"]);
                  PrintedError (OSError "No space left on device")])
  /\ (exists tr1 tr2,
        [ Started 0; Finished 0; Started 1; Finished 1;
          PrintedError (OSError "File exists");
          WroteGraph 0 (mkPath OneSlash ["out"; "p0"]) Examples.empty_doc;
          PrintedWrote (mkPath OneSlash ["out"; "p0"]);
          WroteGraph 1 (mkPath OneSlash ["out"; "p1"]) Examples.empty_doc;
          PrintedWrote (mkPath OneSlash ["out"; "p1"]) ]
        = tr1 ++ PrintedError (OSError "File exists")
              :: WroteGraph 0 (mkPath OneSlash ["out"; "p0"]) Examples.empty_doc :: tr2).
Proof.
  split; [|split; [|split]].
  - destruct (output_stops_at_first_failure _ _ _ _ second_write_fails_run)
      as (k & Hk & _ & _ & _ & Hfail & _).
    exists k. split; [exact Hk|].
    apply (Hfail 1%nat (Examples.project "p1") empty_graph
                 (OSError "No space left on device"));
      vm_compute; reflexivity.
  - destruct (output_stops_at_first_failure _ _ _ _ two_projects_run)
      as (k & Hk & _ & _ & _ & _ & Hok & _).
    exists k. split; [exact Hk|].
    apply Hok.
    + reflexivity.
    + intros t Ht.
      repeat (apply elem_of_cons in Ht as [->|Ht]; [vm_compute; reflexivity|]).
      apply elem_of_nil in Ht as [].
    + intros j dir doc. reflexivity.
    + intros j dir. left. reflexivity.
  - destruct (output_stops_at_first_failure _ _ _ _ second_write_fails_run)
      as (k & _ & _ & _ & _ & _ & _ & Hrep & _).
    destruct (Hrep 1%nat (Examples.project "p1") empty_graph
                   "No space left on device") as (_ & _ & Htr).
    + reflexivity.
    + intros t Ht.
      repeat (apply elem_of_cons in Ht as [->|Ht]; [vm_compute; reflexivity|]).
      apply elem_of_nil in Ht as [].
    + reflexivity.
    + vm_compute; reflexivity.
    + intros i dir doc Hi. assert (i = 0%nat) as -> by lia. reflexivity.
    + intros i dir _. left. reflexivity.
    + vm_compute; reflexivity.
    + exact Htr.
  - destruct (output_stops_at_first_failure _ _ _ _ first_dir_exists_run)
      as (k & Hk & _ & Hall & _ & _ & _ & _ & Hmk).
    apply (Hmk 0%nat (Examples.project "p0") empty_graph "File exists").
    + reflexivity.
    + vm_compute; reflexivity.
    + vm_compute; reflexivity.
    + rewrite (Hall eq_refl). simpl. lia.
Defined.

(** C1 fails as stated.  When the write for the second of three projects
    fails, the run exits although the third pipeline has completed, and the
    third output is never written; when the pipeline of the second project
    fails, [main] ends with its exception and no output is written at all. *)
Lemma failure_stops_other_projects :
  (Multi.main Examples.second_write_fails Examples.three_projects
     [ Started 0; Started 1; Started 2; Finished 0; Finished 1; Finished 2;
       WroteGraph 0 (mkPath OneSlash ["out"; "p0"]) Examples.empty_doc;
       PrintedWrote (mkPath OneSlash ["out"; "p0"]);
       PrintedFailure (mkPath OneSlash ["out"; "p1"]);
       PrintedError (OSError "No space left on device") ]
     (Raise (SystemExit ""))
   /\ (forall tr st,
         Multi.main Examples.second_write_fails Examples.three_projects tr st ->
         2%nat ∉ Multi.written tr))
  /\ (Multi.main Examples.second_root_missing Examples.three_projects
        [Started 0; Started 1; Started 2; Finished 1]
        (Raise (SystemExit "Not a directory: /work/p1"))
      /\ (forall tr st,
            Multi.main Examples.second_root_missing Examples.three_projects tr st ->
            Multi.written tr = [])).
Proof.
  split; split.
  - exact second_write_fails_run.
  - intros tr st Hmain.
    destruct (main_outputs _ _ _ _ Hmain) as (k & Hk & _ & _ & _ & Hfail & _).
    assert (Hle : (k <= 1)%nat).
    { apply (Hfail 1%nat (Examples.project "p1") empty_graph
                   (OSError "No space left on device"));
        vm_compute; reflexivity. }
    rewrite Hk. intros Hin. apply elem_of_seq in Hin. lia.
  - exact second_root_missing_run.
  - intros tr st Hmain.
    destruct (main_outputs _ _ _ _ Hmain) as (k & Hk & _ & _ & Hpipe & _).
    destruct Hpipe as [-> _]; [|exact Hk].
    exists (Multi.async_extract_java_project_call_graph (Examples.project "p1")
              false None),
           (SystemExit "Not a directory: /work/p1").
    split; [|vm_compute; reflexivity].
    right. left.
Qed.

(** ** Semantic mode without multilspy *)

Lemma no_multilspy_no_graph w root :
  _MULTILSPY_AVAILABLE w = false ->
  exists e, extract_java_project_call_graph w root true = (Raise e, []).
Proof.
  intros Hm. unfold extract_java_project_call_graph, resolve_with_lsp.
  rewrite Hm. simpl.
  destruct (negb (is_dir w root)); [eauto|].
  destruct (collect_infos w root true); eauto.
Qed.

(** C10: when semantic mode is requested and multilspy could not be
    imported, the pipeline of an accessible root first runs the indexing; if
    that returns, the pipeline exits with the message of
    [MULTILSPY_MISSING].  No definition request is issued and no graph is
    returned; the single-project [main] ends with the exception and writes
    nothing, and so does every run of the multi-project [main] that has a
    project. *)
Theorem lsp_without_multilspy_exits w root :
  _MULTILSPY_AVAILABLE w = false ->
  (forall infos,
     is_dir w root = true -> collect_infos w root true = Ok infos ->
     extract_java_project_call_graph w root true
     = (Raise (SystemExit MULTILSPY_MISSING), []))
  /\ (forall e,
        is_dir w root = true -> collect_infos w root true = Raise e ->
        extract_java_project_call_graph w root true = (Raise e, []))
  /\ (exists e, extract_java_project_call_graph w root true = (Raise e, []))
  /\ (forall output,
        resolve w root = root ->
        exists e, main w root true output = ([], Raise e))
  /\ (forall args tr st,
        Multi.lsp args = true -> root ∈ Multi.projects args ->
        Multi.main w args tr st ->
        Multi.written tr = [] /\ st <> Ok tt).
Proof.
  intros Hm.
  pose proof (no_multilspy_no_graph w root Hm) as H3.
  split; [|split; [|split; [|split]]].
  - intros infos Hd Hc. unfold extract_java_project_call_graph, resolve_with_lsp.
    rewrite Hd, Hc, Hm. reflexivity.
  - intros e Hd Hc. unfold extract_java_project_call_graph.
    rewrite Hd, Hc. reflexivity.
  - exact H3.
  - intros output Hr. destruct H3 as (e & He). exists e.
    unfold main. rewrite Hr, He. reflexivity.
  - intros args tr st Hlsp Hin Hmain.
    destruct (main_outputs _ _ _ _ Hmain) as (k & Hk & _ & _ & Hpipe & _).
    destruct H3 as (e & He).
    destruct Hpipe as [-> Hst]; [|split; [exact Hk | exact Hst]].
    exists (Multi.async_extract_java_project_call_graph root (Multi.lsp args) None), e.
    split.
    + unfold Multi.main_tasks. apply list_elem_of_fmap. exists root. auto.
    + unfold Multi.task_result. simpl. rewrite Hlsp, He. reflexivity.
Qed.

(** A witness of C10: the project [a.b.java] without multilspy. *)
Lemma lsp_without_multilspy_exits_witness :
  extract_java_project_call_graph Examples.abc_world Examples.proj true
  = (Raise (SystemExit MULTILSPY_MISSING), []).
Proof.
  apply (proj1 (lsp_without_multilspy_exits Examples.abc_world Examples.proj
                  eq_refl)
           [("a.b.c", {| fqn := "a.b.c"; file_path := "a.b.java"; start_line := 1;
                         end_line := 1; calls := ∅;
                         unresolved_sites :=
                           [{| target_simple := "c";
                               cs_file_path := Examples.abc_java;
                               cs_line := 1; cs_column := 13 |}] |})]);
    vm_compute; reflexivity.
Defined.

(** ** The worker limit *)

(** C3 does not hold of the code.  [main] creates a pool with the
    [--max-workers] value but creates every task without an [executor]
    argument, so all tasks are on the default executor, of four workers.
    With five projects and [--max-workers 2] the pool of two workers is
    created and left unused, and a run of [main] has the four pipelines
    0 to 3 running at once; in every run, for every argument, at most four
    pipelines run at once. *)
Theorem max_workers_argument_not_applied :
  (forall args,
     Forall (fun t => Multi.task_executor t = Multi.DEFAULT_EXECUTOR)
            (Multi.main_tasks args))
  /\ Multi.max_workers Multi.DEFAULT_EXECUTOR = 4%Z
  /\ Multi.new_executor (Multi.arg_max_workers Examples.five_projects_two_workers)
     = Ok {| Multi.max_workers := 2 |}
  /\ (exists s,
        Multi.pool_run (Multi.main_tasks Examples.five_projects_two_workers)
          (Multi.init_pool 5) [Started 0; Started 1; Started 2; Started 3] s
        /\ Multi.running s = [0; 1; 2; 3]%nat)
  /\ (exists tr st,
        Multi.main Examples.nothing_fails Examples.five_projects_two_workers
          ([Started 0; Started 1; Started 2; Started 3] ++ tr) st)
  /\ (forall args tr s,
        Multi.pool_run (Multi.main_tasks args)
          (Multi.init_pool (length (Multi.main_tasks args))) tr s ->
        (length (Multi.running s) <= 4)%nat).
Proof.
  split; [|split; [reflexivity|split; [reflexivity|split; [|split]]]].
  - intros args. apply Forall_forall. intros t Ht.
    apply (main_tasks_executor args t Ht).
  - eexists. split.
    + simpl. pool_start. pool_start. pool_start. pool_start. apply Multi.run_done.
    + reflexivity.
  - set (results := [(empty_graph, Examples.project "p0");
                     (empty_graph, Examples.project "p1");
                     (empty_graph, Examples.project "p2");
                     (empty_graph, Examples.project "p3");
                     (empty_graph, Examples.project "p4")]).
    set (d := Multi.dispatch Examples.nothing_fails Examples.out 0 results).
    exists ([Finished 0; Started 4; Finished 1; Finished 2; Finished 3; Finished 4]
            ++ d.1), d.2.
    apply (Multi.main_dispatch Examples.nothing_fails
             Examples.five_projects_two_workers {| Multi.max_workers := 2 |}
             [Started 0; Started 1; Started 2; Started 3; Finished 0; Started 4;
              Finished 1; Finished 2; Finished 3; Finished 4]
             {| Multi.queued := []; Multi.running := [];
                Multi.completed := [0; 1; 2; 3; 4]%nat |}
             results d.1 d.2);
      [reflexivity | | reflexivity | reflexivity | vm_compute; reflexivity
       | apply surjective_pairing].
    simpl. pool_start. pool_start. pool_start. pool_start. pool_finish.
    pool_start. pool_finish. pool_finish. pool_finish. pool_finish.
    apply Multi.run_done.
  - intros args tr s Hrun.
    assert (H : (Z.of_nat (length (Multi.running s)) <= 4)%Z); [|lia].
    apply (pool_run_bound _ 4 _ _ _ (fun t Ht => f_equal Multi.max_workers
                                        (main_tasks_executor args t Ht)) Hrun).
    simpl. lia.
Qed.

(** A witness of the bound of C3: four pipelines of the five projects run at
    once under [--max-workers 2], and no more than four. *)
Lemma max_workers_argument_not_applied_witness :
  (length [0; 1; 2; 3]%nat <= 4)%nat.
Proof.
  apply (proj2 (proj2 (proj2 (proj2 (proj2 max_workers_argument_not_applied))))
           Examples.five_projects_two_workers
           [Started 0; Started 1; Started 2; Started 3]
           {| Multi.queued := [4%nat]; Multi.running := [0; 1; 2; 3]%nat;
              Multi.completed := [] |}).
  simpl. pool_start. pool_start. pool_start. pool_start. apply Multi.run_done.
Defined.

(** * Further properties of the code *)

(** ** The successor lists of the graph *)

Lemma dict_set_elem {K V} `{EqDecision K} (d : list (K * V)) k v x :
  x ∈ dict_set d k v -> x = (k, v) \/ x ∈ d.
Proof.
  induction d as [|[k' v'] d IH]; simpl.
  - intros H. apply list_elem_of_singleton in H. auto.
  - destruct (decide (k' = k)) as [->|Hne]; intros H.
    + apply elem_of_cons in H as [->|H]; [auto | right; right; exact H].
    + apply elem_of_cons in H as [->|H]; [right; left|].
      destruct (IH H) as [->|H']; [auto | right; right; exact H'].
Qed.

Lemma dict_keys_set_elem {K V} `{EqDecision K} (d : list (K * V)) k v x :
  x ∈ dict_keys (dict_set d k v) <-> x ∈ dict_keys d \/ x = k.
Proof.
  rewrite dict_keys_set. destruct (dict_has d k) eqn:Hh.
  - split; [auto|]. intros [H| ->]; [exact H|]. apply dict_has_keys. exact Hh.
  - rewrite elem_of_app, list_elem_of_singleton. reflexivity.
Qed.


Lemma graph_edges_elem G u v :
  NoDup (dict_keys (g_succ G)) ->
  (u, v) ∈ graph_edges G <-> v ∈ succ_of G u.
Proof.
  unfold graph_edges, succ_of. intros Hnd. rewrite list_elem_of_In, in_flat_map.
  split.
  - intros ([u' nbrs] & Hin & Hv). simpl in Hv.
    apply in_map_iff in Hv as (v' & [= -> ->] & Hv).
    apply list_elem_of_In in Hin.
    rewrite (dict_elem_get _ _ _ Hnd Hin). simpl. apply list_elem_of_In. exact Hv.
  - intros Hv. destruct (dict_get (g_succ G) u) as [nbrs|] eqn:Hg; simpl in Hv;
      [|apply elem_of_nil in Hv as []].
    exists (u, nbrs). split; [apply list_elem_of_In, dict_get_elem; exact Hg|].
    simpl. apply in_map. apply list_elem_of_In. exact Hv.
Qed.

Lemma succ_of_add_node G n a u : succ_of (add_node G n a) u = succ_of G u.
Proof.
  unfold succ_of, add_node. destruct (dict_has (g_succ G) n) eqn:Hh; simpl;
    [reflexivity|].
  destruct (decide (n = u)) as [->|Hne].
  - rewrite dict_get_set_eq. unfold dict_has in Hh.
    destruct (dict_get (g_succ G) u); [discriminate | reflexivity].
  - rewrite dict_get_set_ne by exact Hne. reflexivity.
Qed.

Lemma succ_of_touch_node G n u : succ_of (touch_node G n) u = succ_of G u.
Proof.
  unfold succ_of, touch_node. destruct (dict_has (g_succ G) n) eqn:Hh; simpl;
    [reflexivity|].
  destruct (decide (n = u)) as [->|Hne].
  - rewrite dict_get_set_eq. unfold dict_has in Hh.
    destruct (dict_get (g_succ G) u); [discriminate | reflexivity].
  - rewrite dict_get_set_ne by exact Hne. reflexivity.
Qed.

Lemma succ_of_add_edge G u v u' :
  succ_of (add_edge G u v) u'
  = if decide (u = u')
    then (if bool_decide (v ∈ succ_of G u) then succ_of G u else succ_of G u ++ [v])
    else succ_of G u'.
Proof.
  unfold add_edge.
  assert (H : forall x, default [] (dict_get (g_succ (touch_node (touch_node G u) v)) x)
                        = succ_of G x).
  { intros x. change (succ_of (touch_node (touch_node G u) v) x = succ_of G x).
    rewrite !succ_of_touch_node. reflexivity. }
  unfold succ_of at 1. simpl. destruct (decide (u = u')) as [<-|Hne].
  - rewrite dict_get_set_eq. simpl. rewrite H. reflexivity.
  - rewrite dict_get_set_ne by exact Hne. apply H.
Qed.

Lemma succ_of_add_edge_elem G u v u' v' :
  v' ∈ succ_of (add_edge G u v) u' <-> v' ∈ succ_of G u' \/ (u' = u /\ v' = v).
Proof.
  rewrite succ_of_add_edge. destruct (decide (u = u')) as [<-|Hne].
  - destruct (bool_decide (v ∈ succ_of G u)) eqn:Hb.
    + apply bool_decide_eq_true_1 in Hb. split; [auto|].
      intros [H|[_ ->]]; assumption.
    + rewrite elem_of_app, list_elem_of_singleton. split; intros [H|H]; auto.
      * destruct H; auto.
  - split; [auto|]. intros [H|[-> _]]; [exact H | congruence].
Qed.

Lemma succ_of_add_edge_NoDup G u v u' :
  NoDup (succ_of G u') -> NoDup (succ_of (add_edge G u v) u').
Proof.
  intros Hnd. rewrite succ_of_add_edge. destruct (decide (u = u')) as [<-|]; [|exact Hnd].
  destruct (bool_decide (v ∈ succ_of G u)) eqn:Hb; [exact Hnd|].
  apply bool_decide_eq_false_1 in Hb.
  apply NoDup_app. split; [exact Hnd|]. split; [|apply NoDup_singleton].
  intros x Hx Hx'. apply list_elem_of_singleton in Hx' as ->. contradiction.
Qed.

Lemma succ_keys_add_node G n a :
  NoDup (dict_keys (g_succ G)) -> NoDup (dict_keys (g_succ (add_node G n a))).
Proof.
  intros H. unfold add_node. destruct (dict_has (g_succ G) n); simpl;
    [exact H | apply dict_set_NoDup; exact H].
Qed.

Lemma succ_keys_touch_node G n :
  NoDup (dict_keys (g_succ G)) -> NoDup (dict_keys (g_succ (touch_node G n))).
Proof.
  intros H. unfold touch_node. destruct (dict_has (g_succ G) n); simpl;
    [exact H | apply dict_set_NoDup; exact H].
Qed.

Lemma succ_keys_add_edge G u v :
  NoDup (dict_keys (g_succ G)) -> NoDup (dict_keys (g_succ (add_edge G u v))).
Proof.
  intros H. unfold add_edge. simpl. apply dict_set_NoDup.
  apply succ_keys_touch_node, succ_keys_touch_node. exact H.
Qed.


Lemma simple_empty : simple_graph empty_graph.
Proof. split; [apply NoDup_nil_2 | intros u; apply NoDup_nil_2]. Qed.

Lemma simple_add_node G n a : simple_graph G -> simple_graph (add_node G n a).
Proof.
  intros [H1 H2]. split; [apply succ_keys_add_node; exact H1|].
  intros u. rewrite succ_of_add_node. apply H2.
Qed.

Lemma simple_add_edge G u v : simple_graph G -> simple_graph (add_edge G u v).
Proof.
  intros [H1 H2]. split; [apply succ_keys_add_edge; exact H1|].
  intros u'. apply succ_of_add_edge_NoDup. apply H2.
Qed.

Lemma add_edges_succ G u (callees : list string) u' v' :
  let G' := fold_left (fun G2 callee => add_edge G2 u callee) callees G in
  (simple_graph G -> simple_graph G')
  /\ (v' ∈ succ_of G' u' <-> v' ∈ succ_of G u' \/ (u' = u /\ v' ∈ callees)).
Proof.
  revert G. induction callees as [|c callees IH]; intros G; simpl.
  - split; [auto|]. split; [auto|]. intros [H|[_ H]]; [exact H|].
    apply elem_of_nil in H as [].
  - destruct (IH (add_edge G u c)) as [I1 I2]. split.
    + intros HG. apply I1, simple_add_edge, HG.
    + rewrite I2, succ_of_add_edge_elem, elem_of_cons. naive_solver.
Qed.

Lemma graph_step_succ G info u v :
  (simple_graph G -> simple_graph (graph_step G info))
  /\ (v ∈ succ_of (graph_step G info) u
      <-> v ∈ succ_of G u \/ (u = fqn info /\ v ∈ calls info)).
Proof.
  unfold graph_step.
  destruct (add_edges_succ (add_node G (fqn info) (info_attrs info)) (fqn info)
              (elements (calls info)) u v) as [H1 H2].
  split.
  - intros HG. apply H1, simple_add_node, HG.
  - rewrite H2, succ_of_add_node, elem_of_elements. reflexivity.
Qed.

Lemma graph_steps_succ (l : list FunctionInfo) G u v :
  (simple_graph G -> simple_graph (fold_left graph_step l G))
  /\ (v ∈ succ_of (fold_left graph_step l G) u
      <-> v ∈ succ_of G u \/ exists info, info ∈ l /\ fqn info = u /\ v ∈ calls info).
Proof.
  revert G. induction l as [|info l IH]; intros G; simpl.
  - split; [auto|]. split; [auto|]. intros [H|(i & Hi & _)]; [exact H|].
    apply elem_of_nil in Hi as [].
  - destruct (IH (graph_step G info)) as [I1 I2].
    destruct (graph_step_succ G info u v) as [S1 S2]. split.
    + intros HG. apply I1, S1, HG.
    + rewrite I2, S2. split.
      * intros [[H|[-> H]]|(i & Hi & Hf & Hc)]; [auto | right | right].
        -- exists info. split; [left | auto].
        -- exists i. split; [right; exact Hi | auto].
      * intros [H|(i & Hi & Hf & Hc)]; [auto|].
        apply elem_of_cons in Hi as [->|Hi]; [left; right; auto|].
        right. exists i. auto.
Qed.

Lemma flat_edges_NoDup (d : list (string * list string)) :
  NoDup (dict_keys d) -> (forall u nbrs, (u, nbrs) ∈ d -> NoDup nbrs) ->
  NoDup (List.flat_map (fun un => map (fun v => (un.1, v)) un.2) d).
Proof.
  unfold dict_keys. induction d as [|[u nbrs] d IH]; simpl; intros Hk Hn.
  - apply NoDup_nil_2.
  - apply NoDup_cons in Hk as [Hu Hk]. apply NoDup_app. split; [|split].
    + apply (NoDup_fmap_2 (fun v => (u, v))). apply (Hn u nbrs). left.
    + intros [u' v'] H1 H2. apply list_elem_of_fmap in H1 as (v0 & [= -> ->] & _).
      apply list_elem_of_In, in_flat_map in H2 as ([u2 n2] & Hin & Hv).
      simpl in Hv. apply in_map_iff in Hv as (v2 & [= -> ->] & _).
      apply Hu. apply list_elem_of_fmap. exists (u, n2). split; [reflexivity|].
      apply list_elem_of_In. exact Hin.
    + apply IH; [exact Hk|]. intros u' n' Hin. apply (Hn u' n'). right. exact Hin.
Qed.

Lemma simple_graph_edges_NoDup G : simple_graph G -> NoDup (graph_edges G).
Proof.
  intros [H1 H2]. unfold graph_edges. apply flat_edges_NoDup; [exact H1|].
  intros u nbrs Hin. specialize (H2 u). unfold succ_of in H2.
  rewrite (dict_elem_get _ _ _ H1 Hin) in H2. exact H2.
Qed.

Lemma graph_edges_of_records (infos : list (string * FunctionInfo)) :
  NoDup (graph_edges (build_graph infos))
  /\ forall u v,
       (u, v) ∈ graph_edges (build_graph infos)
       <-> exists info, info ∈ dict_values infos /\ fqn info = u /\ v ∈ calls info.
Proof.
  rewrite build_graph_fold.
  assert (HS : simple_graph (fold_left graph_step (dict_values infos) empty_graph)).
  { apply (graph_steps_succ (dict_values infos) empty_graph "" ""), simple_empty. }
  split; [apply simple_graph_edges_NoDup, HS|].
  intros u v. rewrite (graph_edges_elem _ _ _ (proj1 HS)).
  rewrite (proj2 (graph_steps_succ (dict_values infos) empty_graph u v)).
  split; [|auto]. intros [H|H]; [|exact H]. apply elem_of_nil in H as [].
Qed.

(** X1: the edges of the graph built from a set of records are exactly the
    pairs of the fqn of a record and one of its call targets, whether or not
    the target is a declared function, and no edge occurs twice. *)
Theorem build_graph_edges (infos : list (string * FunctionInfo)) :
  NoDup (graph_edges (build_graph infos))
  /\ forall u v,
       (u, v) ∈ graph_edges (build_graph infos)
       <-> exists info, info ∈ dict_values infos /\ fqn info = u /\ v ∈ calls info.
Proof. apply graph_edges_of_records. Qed.

Lemma nodes_add_node G n a x :
  x ∈ graph_nodes (add_node G n a) <-> x ∈ graph_nodes G \/ x = n.
Proof.
  unfold graph_nodes, add_node. destruct (dict_has (g_succ G) n); simpl;
    apply dict_keys_set_elem.
Qed.

Lemma nodes_touch_node G n x :
  synced G -> x ∈ graph_nodes (touch_node G n) <-> x ∈ graph_nodes G \/ x = n.
Proof.
  intros HG. unfold graph_nodes, touch_node.
  destruct (dict_has (g_succ G) n) eqn:Hh; simpl; [|apply dict_keys_set_elem].
  split; [auto|]. intros [H| ->]; [exact H|].
  apply dict_has_keys. rewrite HG. exact Hh.
Qed.

Lemma nodes_add_edge G u v x :
  synced G -> x ∈ graph_nodes (add_edge G u v) <-> x ∈ graph_nodes G \/ x = u \/ x = v.
Proof.
  intros HG. unfold add_edge, graph_nodes. simpl.
  change (x ∈ graph_nodes (touch_node (touch_node G u) v)
          <-> x ∈ graph_nodes G \/ x = u \/ x = v).
  rewrite (nodes_touch_node _ v x (touch_node_synced _ u HG)).
  rewrite (nodes_touch_node _ u x HG). naive_solver.
Qed.

Lemma touch_node_attrs G n k a :
  dict_get (g_node (touch_node G n)) k = Some (Some a) ->
  dict_get (g_node G) k = Some (Some a).
Proof.
  unfold touch_node. destruct (dict_has (g_succ G) n); simpl; [auto|].
  destruct (decide (n = k)) as [->|Hne].
  - rewrite dict_get_set_eq. discriminate.
  - rewrite dict_get_set_ne by exact Hne. auto.
Qed.

Lemma add_edge_attrs G u v k a :
  dict_get (g_node (add_edge G u v)) k = Some (Some a) ->
  dict_get (g_node G) k = Some (Some a).
Proof.
  unfold add_edge. simpl. intros H.
  apply (touch_node_attrs _ u), (touch_node_attrs _ v). exact H.
Qed.

Lemma add_edges_nodes G u (callees : list string) x :
  synced G ->
  (x ∈ graph_nodes (fold_left (fun G2 callee => add_edge G2 u callee) callees G)
   <-> x ∈ graph_nodes G \/ (callees <> [] /\ x = u) \/ x ∈ callees)
  /\ forall k a,
       dict_get (g_node (fold_left (fun G2 callee => add_edge G2 u callee) callees G)) k
       = Some (Some a) ->
       dict_get (g_node G) k = Some (Some a).
Proof.
  revert G. induction callees as [|c callees IH]; intros G HG; simpl.
  - split; [|auto]. split; [auto|]. intros [H|[[H1 _]|H2]]; [exact H|congruence|].
    apply elem_of_nil in H2 as [].
  - destruct (IH (add_edge G u c) (add_edge_synced _ u c HG)) as [I1 I2]. split.
    + rewrite I1, (nodes_add_edge _ _ _ _ HG), elem_of_cons.
      split; [|naive_solver].
      intros [[H|[H|H]]|[[_ H]|H]]; auto.
    + intros k a H. apply (add_edge_attrs _ u c), I2, H.
Qed.

Lemma add_edges_synced G u (callees : list string) :
  synced G -> synced (fold_left (fun G2 callee => add_edge G2 u callee) callees G).
Proof.
  revert G. induction callees as [|c callees IH]; intros G HG; simpl; [exact HG|].
  apply IH, add_edge_synced, HG.
Qed.

Lemma graph_step_synced G info : synced G -> synced (graph_step G info).
Proof. intros HG. apply add_edges_synced, add_node_synced, HG. Qed.

Lemma graph_steps_synced (l : list FunctionInfo) G :
  synced G -> synced (fold_left graph_step l G).
Proof.
  revert G. induction l as [|i l IH]; intros G HG; simpl; [exact HG|].
  apply IH, graph_step_synced, HG.
Qed.

Lemma graph_steps_nodes (l : list FunctionInfo) G x :
  synced G ->
  (x ∈ graph_nodes (fold_left graph_step l G)
   <-> x ∈ graph_nodes G
       \/ exists info, info ∈ l /\ (fqn info = x \/ x ∈ calls info))
  /\ forall a, dict_get (g_node (fold_left graph_step l G)) x = Some (Some a) ->
               dict_get (g_node G) x = Some (Some a)
               \/ exists info, info ∈ l /\ fqn info = x.
Proof.
  revert G. induction l as [|info l IH]; intros G HG; simpl.
  - split; [|auto]. split; [auto|]. intros [H|(i & Hi & _)]; [exact H|].
    apply elem_of_nil in Hi as [].
  - assert (HG1 : synced (add_node G (fqn info) (info_attrs info)))
      by (apply add_node_synced; exact HG).
    assert (HG2 : synced (graph_step G info))
      by (apply graph_step_synced; exact HG).
    destruct (IH _ HG2) as [I1 I2].
    destruct (add_edges_nodes (add_node G (fqn info) (info_attrs info)) (fqn info)
                (elements (calls info)) x HG1) as [E1 E2].
    fold (graph_step G info) in E1, E2. split.
    + rewrite I1, E1, nodes_add_node. split.
      * intros [[[H|H]|[[_ H]|H]]|(i & Hi & Hx)]; auto.
        -- right. exists info. split; [left | auto].
        -- right. exists info. split; [left | auto].
        -- right. exists info. split; [left|]. right. apply elem_of_elements. exact H.
        -- right. exists i. split; [right; exact Hi | exact Hx].
      * intros [H|(i & Hi & Hx)]; [auto|].
        apply elem_of_cons in Hi as [->|Hi].
        -- left. destruct Hx as [Hx|Hx]; [auto|].
           right. right. apply elem_of_elements. exact Hx.
        -- right. exists i. auto.
    + intros a H. destruct (I2 a H) as [H'|(i & Hi & Hx)].
      * apply E2 in H'. destruct (decide (fqn info = x)) as [Hx|Hne].
        -- right. exists info. split; [left | exact Hx].
        -- left. rewrite add_node_get_ne in H' by exact Hne. exact H'.
      * right. exists i. split; [right; exact Hi | exact Hx].
Qed.

(** X2: the nodes of the graph built from a set of records are exactly the
    fqns of the records and their call targets; a node that is no record's
    fqn carries no attributes; both ends of every edge are nodes. *)
Theorem build_graph_node_set (infos : list (string * FunctionInfo)) :
  (forall n,
     n ∈ graph_nodes (build_graph infos)
     <-> exists info, info ∈ dict_values infos /\ (fqn info = n \/ n ∈ calls info))
  /\ (forall n,
        n ∈ graph_nodes (build_graph infos) ->
        (forall info, info ∈ dict_values infos -> fqn info <> n) ->
        dict_get (g_node (build_graph infos)) n = Some None)
  /\ (forall u v,
        (u, v) ∈ graph_edges (build_graph infos) ->
        u ∈ graph_nodes (build_graph infos) /\ v ∈ graph_nodes (build_graph infos)).
Proof.
  assert (Hn : forall n,
     n ∈ graph_nodes (build_graph infos)
     <-> exists info, info ∈ dict_values infos /\ (fqn info = n \/ n ∈ calls info)).
  { intros n. rewrite build_graph_fold.
    rewrite (proj1 (graph_steps_nodes (dict_values infos) empty_graph n
                      empty_graph_synced)).
    split; [|auto]. intros [H|H]; [|exact H]. apply elem_of_nil in H as []. }
  split; [exact Hn|]. split.
  - intros n Hin Hundeclared.
    assert (Hh : dict_has (g_node (build_graph infos)) n = true)
      by (apply dict_has_keys; exact Hin).
    unfold dict_has in Hh.
    destruct (dict_get (g_node (build_graph infos)) n) as [[a|]|] eqn:Hg;
      [|reflexivity|discriminate].
    exfalso. rewrite build_graph_fold in Hg.
    destruct (proj2 (graph_steps_nodes (dict_values infos) empty_graph n
                       empty_graph_synced) a Hg) as [H|(i & Hi & Hf)].
    + discriminate H.
    + apply (Hundeclared i Hi Hf).
  - intros u v He.
    apply (proj2 (graph_edges_of_records infos)) in He as (i & Hi & Hf & Hc).
    split; apply Hn; exists i; auto.
Qed.

(** ** Recording the calls of a declaration *)

Lemma record_calls_syntactic w java_path (nodes : list Node) info :
  calls (fold_left (record_call w java_path false) nodes info)
  = list_to_set (map text nodes) ∪ calls info
  /\ unresolved_sites (fold_left (record_call w java_path false) nodes info)
     = unresolved_sites info.
Proof.
  revert info. induction nodes as [|n nodes IH]; intros info; cbn [fold_left map].
  - split; [set_solver | reflexivity].
  - destruct (IH (record_call w java_path false info n)) as [H1 H2].
    rewrite H1, H2. unfold record_call, add_call. simpl. split; [set_solver | reflexivity].
Qed.

Lemma record_calls_semantic w java_path (nodes : list Node) info :
  calls (fold_left (record_call w java_path true) nodes info) = calls info
  /\ unresolved_sites (fold_left (record_call w java_path true) nodes info)
     = unresolved_sites info ++ map (call_site_of w java_path) nodes.
Proof.
  revert info. induction nodes as [|n nodes IH]; intros info; cbn [fold_left map].
  - split; [reflexivity | symmetry; apply app_nil_r].
  - destruct (IH (record_call w java_path true info n)) as [H1 H2].
    rewrite H1, H2. unfold record_call, append_site. simpl.
    rewrite <- app_assoc. split; reflexivity.
Qed.

Lemma insert_capture_Permutation c (l : list (Node * string)) :
  insert_capture c l ≡ₚ c :: l.
Proof.
  induction l as [|d l IH]; simpl; [reflexivity|].
  destruct (start_byte c.1 <=? start_byte d.1)%Z; [reflexivity|].
  rewrite IH. apply Permutation_swap.
Qed.

Lemma captures_Permutation q n : captures q n ≡ₚ match_captures q n.
Proof.
  unfold captures. induction (match_captures q n) as [|c l IH]; simpl; [reflexivity|].
  rewrite insert_capture_Permutation, IH. reflexivity.
Qed.

Lemma match_call_pattern n :
  List.flat_map (match_pattern n) CALL_QUERY
  = match invocation_name n with Some x => [(x, "callee")] | None => [] end.
Proof.
  unfold invocation_name. simpl. rewrite app_nil_r. unfold match_pattern. simpl.
  destruct (bool_decide (node_type n = "method_invocation")); [|reflexivity].
  unfold match_child, child_matches. simpl.
  destruct (List.filter _ (children n)) as [|c l]; reflexivity.
Qed.

(** [CALL_QUERY] matches once at every method invocation of the subtree that
    has a name identifier, and captures that identifier. *)
Lemma match_captures_calls n :
  match_captures CALL_QUERY n
  = map (fun x => (x, "callee")) (omap invocation_name (subtree n)).
Proof.
  induction n as [n IH] using Node_nested_ind.
  destruct n as [t sb eb sp ep tx ch]. cbn [match_captures subtree children] in *.
  rewrite match_call_pattern.
  assert (Hch : List.flat_map (fun c => match_captures CALL_QUERY c.2) ch
                = map (fun x => (x, "callee"))
                      (omap invocation_name
                            (List.flat_map (fun c => subtree c.2) ch))).
  { clear -IH. induction ch as [|c ch IHch]; [reflexivity|].
    apply Forall_cons in IH as [Hc IH]. cbn [List.flat_map].
    rewrite omap_app, map_app, Hc, (IHch IH). reflexivity. }
  rewrite Hch. cbn [omap list_omap].
  destruct (invocation_name _); reflexivity.
Qed.

Lemma call_captures_nodes body_node :
  map fst (captures CALL_QUERY body_node)
  ≡ₚ omap invocation_name (subtree body_node).
Proof.
  rewrite captures_Permutation, match_captures_calls, map_map. simpl.
  rewrite map_id. reflexivity.
Qed.

Lemma captures_nodes_sorted q n :
  StronglySorted (fun a b => (start_byte a <= start_byte b)%Z)
                 (map fst (captures q n)).
Proof.
  pose proof (captures_sorted q n) as H.
  induction H as [|c l Hl IH Hc]; simpl; constructor; [exact IH|].
  apply Forall_forall. intros b Hb.
  apply list_elem_of_fmap in Hb as (d & -> & Hd).
  revert d Hd. apply Forall_forall. exact Hc.
Qed.

(** X3: the call sites of a declaration are the callee identifiers of the
    method invocations in its body, nested ones included, each once, in the
    order of their start bytes (so [a] before [b] for [this.a().b()]).  In
    syntactic mode the record holds their texts as calls and no pending
    site; in semantic mode it holds no call and one pending site per callee
    identifier, in that order, with the resolved path of the file and the
    line and column of the identifier. *)
Theorem collect_method_call_sites w root java_path use_lsp pkg cls_nodes node info :
  collect_method w root java_path use_lsp pkg cls_nodes node = Ok info ->
  exists body_node callee_nodes,
    first_item (captured "body" (captures METHOD_QUERY node)) = Ok body_node
    /\ callee_nodes = map fst (captures CALL_QUERY body_node)
    /\ callee_nodes ≡ₚ omap invocation_name (subtree body_node)
    /\ StronglySorted (fun a b => (start_byte a <= start_byte b)%Z) callee_nodes
    /\ if use_lsp
       then calls info = ∅
            /\ unresolved_sites info = map (call_site_of w java_path) callee_nodes
       else calls info = list_to_set (map text callee_nodes)
            /\ unresolved_sites info = [].
Proof.
  unfold collect_method.
  destruct (first_item (captured "meth_name" _)) as [name_node|]; [|discriminate].
  destruct (first_item (captured "body" _)) as [body_node|]; [|discriminate].
  destruct (class_stack _ _ _) as [classes|]; [|discriminate].
  destruct (rel root java_path) as [file|]; [|discriminate].
  simpl. intros [= <-].
  exists body_node, (map fst (captures CALL_QUERY body_node)).
  split; [reflexivity|]. split; [reflexivity|].
  split; [apply call_captures_nodes|].
  split; [apply captures_nodes_sorted|].
  destruct use_lsp.
  - match goal with |- context [fold_left _ ?l ?i] =>
      destruct (record_calls_semantic w java_path l i) as [H1 H2] end.
    rewrite H1, H2. split; reflexivity.
  - match goal with |- context [fold_left _ ?l ?i] =>
      destruct (record_calls_syntactic w java_path l i) as [H1 H2] end.
    rewrite H1, H2. simpl. split; [set_solver | reflexivity].
Qed.

(** A witness of X3 on the method [m] of [C.java], whose body is the chained
    call [this.a().b()], in both modes. *)
Lemma collect_method_call_sites_witness :
  (exists info,
     collect_method Examples.Chain_world Examples.proj Examples.Chain_java false None []
       Examples.Chain_method = Ok info
     /\ calls info = {[ "a"; "b" ]} /\ unresolved_sites info = [])
  /\ (exists info,
        collect_method Examples.Chain_world Examples.proj Examples.Chain_java true None []
          Examples.Chain_method = Ok info
        /\ calls info = ∅
        /\ unresolved_sites info
           = [{| target_simple := "a"; cs_file_path := Examples.Chain_java;
                 cs_line := 1; cs_column := 18 |};
              {| target_simple := "b"; cs_file_path := Examples.Chain_java;
                 cs_line := 1; cs_column := 22 |}]).
Proof.
  split.
  - eexists. split; [vm_compute; reflexivity|].
    match goal with |- calls ?i = _ /\ _ =>
      destruct (collect_method_call_sites Examples.Chain_world Examples.proj
                  Examples.Chain_java false None [] Examples.Chain_method i)
        as (body & nodes & Hb & Hn & _ & _ & Hc & Hs); [vm_compute; reflexivity|] end.
    split; [|exact Hs]. vm_compute in Hb. injection Hb as <-.
    rewrite Hc, Hn. vm_compute captures. cbn [map fst text node_text list_to_set].
    set_solver.
  - eexists. split; [vm_compute; reflexivity|].
    match goal with |- calls ?i = _ /\ _ =>
      destruct (collect_method_call_sites Examples.Chain_world Examples.proj
                  Examples.Chain_java true None [] Examples.Chain_method i)
        as (body & nodes & Hb & Hn & _ & _ & Hc & Hs); [vm_compute; reflexivity|] end.
    split; [exact Hc|]. vm_compute in Hb. injection Hb as <-.
    rewrite Hs, Hn. vm_compute. reflexivity.
Defined.

(** ** The class stack *)

Lemma class_stack_from off (cls_nodes : list Node) q (stack : list string) :
  for_each cls_nodes
    (fun stack cls =>
       if (start_byte cls <=? off)%Z && (off <=? end_byte cls)%Z
       then
         name_node ← first_item (captured "cls_name" (captures q cls));
         Ok (stack ++ [text name_node])
       else Ok stack)
    stack
  = match mapM (class_name_of q) (List.filter (contains_offset off) cls_nodes) with
    | Some names => Ok (stack ++ names)
    | None => Raise IndexError
    end.
Proof.
  revert stack. induction cls_nodes as [|cls l IH]; intros stack.
  - simpl. rewrite app_nil_r. reflexivity.
  - cbn [for_each List.filter]. fold (contains_offset off cls).
    destruct (contains_offset off cls); [|apply IH].
    change (mapM (class_name_of q) (cls :: List.filter (contains_offset off) l))
      with (y ← class_name_of q cls;
            k ← mapM (class_name_of q) (List.filter (contains_offset off) l);
            mret (y :: k)).
    assert (Hn : class_name_of q cls
                 = match captured "cls_name" (captures q cls) with
                   | [] => None
                   | n :: _ => Some (text n)
                   end) by reflexivity.
    rewrite Hn. clear Hn.
    destruct (captured "cls_name" (captures q cls)) as [|n ns]; [reflexivity|].
    cbn [first_item mbind result_bind option_bind]. rewrite IH.
    destruct (mapM (class_name_of q) (List.filter (contains_offset off) l));
      [|reflexivity].
    simpl. rewrite <- app_assoc. reflexivity.
Qed.

(** X4: [class_stack] returns the names of the nodes whose byte range
    contains the offset, in the order of the node list, each name taken from
    the first [cls_name] capture of the node; it raises [IndexError] when
    such a node has no [cls_name] capture.  Nodes that do not contain the
    offset are ignored. *)
Theorem class_stack_names off (cls_nodes : list Node) q :
  (forall names,
     mapM (class_name_of q) (List.filter (contains_offset off) cls_nodes) = Some names ->
     class_stack off cls_nodes q = Ok names)
  /\ ((exists cls, cls ∈ cls_nodes /\ contains_offset off cls = true
                   /\ class_name_of q cls = None) ->
      class_stack off cls_nodes q = Raise IndexError)
  /\ (forall names, class_stack off cls_nodes q = Ok names ->
        length names = length (List.filter (contains_offset off) cls_nodes)).
Proof.
  unfold class_stack. rewrite class_stack_from.
  split; [|split].
  - intros names ->. reflexivity.
  - intros (cls & Hin & Hc & Hn).
    destruct (mapM _ _) as [names|] eqn:Hm; [|reflexivity]. exfalso.
    apply mapM_Some in Hm.
    assert (Hf : cls ∈ List.filter (contains_offset off) cls_nodes).
    { apply list_elem_of_In, filter_In. split; [apply list_elem_of_In; exact Hin | exact Hc]. }
    apply list_elem_of_lookup_1 in Hf as (i & Hi).
    destruct (Forall2_lookup_l _ _ _ _ _ Hm Hi) as (y & _ & Hy). congruence.
  - intros names. destruct (mapM _ _) as [names'|] eqn:Hm; [|discriminate].
    simpl. intros [= <-]. apply mapM_Some in Hm. symmetry.
    apply (Forall2_length _ _ _ Hm).
Qed.

(** A witness of X4: given the class declarations of [Outer.java], the stack
    at the start of method [m] is [Outer], [Inner]. *)
Lemma class_stack_names_witness :
  class_stack 45 Examples.Outer_class_declarations Examples.CLASS_DECLARATION_QUERY
  = Ok ["Outer"; "Inner"].
Proof.
  apply (proj1 (class_stack_names 45 Examples.Outer_class_declarations
                  Examples.CLASS_DECLARATION_QUERY)).
  vm_compute. reflexivity.
Defined.

(** ** The definition index *)

Lemma locate_fqn_first (def_index : list (Path * list (Z * Z * string)))
    (abs_path : Path) (line0 : Z) :
  match locate_fqn def_index abs_path line0 with
  | Some f =>
      exists before s e after,
        default [] (dict_get def_index abs_path) = before ++ ((s, e), f) :: after
        /\ (s <= line0 <= e)%Z
        /\ Forall (fun r => ~ (r.1.1 <= line0 <= r.1.2)%Z) before
  | None =>
      Forall (fun r => ~ (r.1.1 <= line0 <= r.1.2)%Z)
             (default [] (dict_get def_index abs_path))
  end.
Proof. unfold locate_fqn. apply locate_in_first. Qed.

Lemma build_def_index_fold w infos root :
  build_def_index w infos root = fold_left (index_step w root) (dict_values infos) [].
Proof. reflexivity. Qed.

Lemma index_sound w root (L l : list FunctionInfo) idx0 :
  (forall i, i ∈ l -> i ∈ L) ->
  (forall p ranges r, dict_get idx0 p = Some ranges -> r ∈ ranges ->
     exists info, info ∈ L /\ fqn info = r.2 /\ info_abs_path w root info = p
                  /\ (start_line info, end_line info) = r.1) ->
  forall p ranges r,
    dict_get (fold_left (index_step w root) l idx0) p = Some ranges -> r ∈ ranges ->
    exists info, info ∈ L /\ fqn info = r.2 /\ info_abs_path w root info = p
                 /\ (start_line info, end_line info) = r.1.
Proof.
  revert idx0. induction l as [|i l IH]; intros idx0 Hl H0; simpl; [exact H0|].
  apply IH; [intros j Hj; apply Hl; right; exact Hj|].
  intros p ranges r Hg Hr. unfold index_step in Hg.
  destruct (decide (info_abs_path w root i = p)) as [Hp|Hne].
  - rewrite Hp in Hg. rewrite dict_get_set_eq in Hg. injection Hg as <-.
    apply dict_set_elem in Hr as [->|Hr].
    + exists i. split; [apply Hl; left | auto].
    + destruct (dict_get idx0 p) as [ranges0|] eqn:Hg0; simpl in Hr.
      * apply (H0 p ranges0 r Hg0 Hr).
      * apply elem_of_nil in Hr as [].
  - rewrite dict_get_set_ne in Hg by exact Hne. apply (H0 p ranges r Hg Hr).
Qed.

Lemma index_step_indexed w root idx i :
  indexed (index_step w root idx i) (info_abs_path w root i)
          (start_line i, end_line i)
  /\ forall p k, indexed idx p k -> indexed (index_step w root idx i) p k.
Proof.
  unfold indexed, index_step. split.
  - eexists. split; [apply dict_get_set_eq|]. rewrite dict_has_set.
    destruct (decide _); congruence.
  - intros p k (ranges & Hg & Hh).
    destruct (decide (info_abs_path w root i = p)) as [Hp|Hne].
    + rewrite Hp. eexists. split; [apply dict_get_set_eq|].
      rewrite Hg. simpl. rewrite dict_has_set. destruct (decide _); [reflexivity | exact Hh].
    + exists ranges. rewrite dict_get_set_ne by exact Hne. auto.
Qed.

Lemma index_complete w root (l : list FunctionInfo) idx0 :
  (forall i, i ∈ l ->
     indexed (fold_left (index_step w root) l idx0) (info_abs_path w root i)
             (start_line i, end_line i))
  /\ forall p k, indexed idx0 p k -> indexed (fold_left (index_step w root) l idx0) p k.
Proof.
  revert idx0. induction l as [|i l IH]; intros idx0; simpl.
  - split; [|auto]. intros i Hi. apply elem_of_nil in Hi as [].
  - destruct (IH (index_step w root idx0 i)) as [I1 I2].
    destruct (index_step_indexed w root idx0 i) as [S1 S2]. split.
    + intros j Hj. apply elem_of_cons in Hj as [->|Hj]; [apply I2, S1 | apply I1, Hj].
    + intros p k H. apply I2, S2, H.
Qed.

Lemma locate_fqn_sound w (infos : list (string * FunctionInfo)) root p line0 f :
  locate_fqn (build_def_index w infos root) p line0 = Some f ->
  exists info, info ∈ dict_values infos /\ fqn info = f
               /\ declares_line w root p line0 info.
Proof.
  intros Hf.
  pose proof (locate_fqn_first (build_def_index w infos root) p line0) as H.
  rewrite Hf in H. destruct H as (before & s & e & after & Hd & Hr & _).
  destruct (dict_get (build_def_index w infos root) p) as [ranges|] eqn:Hg;
    simpl in Hd; [|destruct before; discriminate].
  rewrite build_def_index_fold in Hg.
  destruct (index_sound w root (dict_values infos) (dict_values infos) []
              (fun _ H => H)
              (fun p0 r0 x H => ltac:(discriminate H))
              p ranges ((s, e), f) Hg) as (info & Hin & Hfq & Hp & Hk).
  { rewrite Hd. apply elem_of_app. right. left. }
  simpl in Hfq, Hk. injection Hk as <- <-.
  exists info. repeat split; auto; lia.
Qed.

(** X5: over the index built from a set of records, [locate_fqn] answers
    with the fqn of a record of that file whose line range contains the
    line, it answers whenever there is such a record, and it answers with
    nothing for a file that no record is in. *)
Theorem locate_fqn_index w (infos : list (string * FunctionInfo)) root p line0 :
  (forall f,
     locate_fqn (build_def_index w infos root) p line0 = Some f ->
     exists info, info ∈ dict_values infos /\ fqn info = f
                  /\ declares_line w root p line0 info)
  /\ (forall info,
        info ∈ dict_values infos -> declares_line w root p line0 info ->
        exists f, locate_fqn (build_def_index w infos root) p line0 = Some f)
  /\ ((forall info, info ∈ dict_values infos -> info_abs_path w root info <> p) ->
      locate_fqn (build_def_index w infos root) p line0 = None).
Proof.
  split; [intros f; apply locate_fqn_sound|]. split.
  - intros info Hin [Hp Hr].
    destruct (proj1 (index_complete w root (dict_values infos) []) info Hin)
      as (ranges & Hg & Hh).
    rewrite <- build_def_index_fold, Hp in Hg.
    destruct (locate_fqn (build_def_index w infos root) p line0) as [f|] eqn:Hl;
      [eauto|]. exfalso.
    pose proof (locate_fqn_first (build_def_index w infos root) p line0) as H.
    rewrite Hl, Hg in H. simpl in H.
    unfold dict_has in Hh.
    destruct (dict_get ranges (start_line info, end_line info)) as [f|] eqn:Hk;
      [|discriminate].
    apply dict_get_elem in Hk.
    rewrite Forall_forall in H. apply (H _ Hk). simpl. exact Hr.
  - intros Hnone.
    destruct (locate_fqn (build_def_index w infos root) p line0) as [f|] eqn:Hl;
      [|reflexivity].
    destruct (locate_fqn_sound _ _ _ _ _ _ Hl) as (info & Hin & _ & Hp & _).
    exfalso. apply (Hnone info Hin Hp).
Qed.

(** A witness of X5: line 3 of [A.java], declared by [A.inner], is found in
    the index of the project. *)
Lemma locate_fqn_index_witness :
  exists f,
    locate_fqn (build_def_index Examples.A_world Examples.A_infos Examples.proj)
               Examples.A_java 3
    = Some f.
Proof.
  apply (proj1 (proj2 (locate_fqn_index Examples.A_world Examples.A_infos
                         Examples.proj Examples.A_java 3))
           Examples.A_inner).
  - apply list_elem_of_In. vm_compute. right. left. reflexivity.
  - split; [vm_compute; reflexivity | vm_compute; split; discriminate].
Defined.

(** ** What the resolution pass does to the records *)

Lemma site_request_for root cs :
  exists req, site_request root cs = Ok req /\ request_for root cs req.
Proof.
  unfold site_request, request_for. destruct (rel_total root (cs_file_path cs)) as (s & ->).
  simpl. eexists. split; [reflexivity|]. simpl. auto.
Qed.

Lemma resolve_sites_log w root idx (sites : list CallSite)
    (st : gset string * list LspRequest) :
  exists reqs,
    (fold_left (resolve_site w root idx) sites st).2 = st.2 ++ reqs
    /\ Forall2 (request_for root) sites reqs.
Proof.
  revert st. induction sites as [|cs sites IH]; intros st; simpl.
  - exists []. rewrite app_nil_r. split; [reflexivity | constructor].
  - destruct (site_request_for root cs) as (req & Hreq & Hfor).
    destruct (IH (resolve_site w root idx st cs)) as (reqs & Hlog & HF).
    exists (req :: reqs). split; [|constructor; assumption].
    rewrite Hlog. unfold resolve_site. rewrite Hreq.
    destruct (site_target w idx (request_definition w root req) cs); simpl;
      rewrite <- app_assoc; reflexivity.
Qed.

Lemma resolve_all_log w root idx (infos : list (string * FunctionInfo)) log :
  exists reqs,
    (resolve_all w root idx infos log).2 = log ++ reqs
    /\ Forall2 (request_for root) (all_sites infos) reqs.
Proof.
  revert log. induction infos as [|[k info] infos IH]; intros log.
  - exists []. simpl. rewrite app_nil_r. split; [reflexivity | constructor].
  - rewrite resolve_all_cons. cbn [fst snd].
    destruct (resolve_sites_log w root idx (unresolved_sites info) (calls info, log))
      as (r1 & H1 & F1).
    destruct (IH (resolve_info w root idx info log).2) as (r2 & H2 & F2).
    exists (r1 ++ r2). split.
    + rewrite H2. unfold resolve_info. cbn [snd]. rewrite H1. simpl.
      rewrite app_assoc. reflexivity.
    + unfold all_sites. simpl. apply Forall2_app; assumption.
Qed.

Lemma site_outcome_origin w root (infos : list (string * FunctionInfo)) cs t :
  site_outcome w root (build_def_index w infos root) cs = Some t ->
  t = target_simple cs \/ exists info, info ∈ dict_values infos /\ fqn info = t.
Proof.
  unfold site_outcome, site_target.
  destruct (site_request root cs) as [req|]; [|discriminate].
  destruct (request_definition w root req) as [|[|loc rest]]; try discriminate.
  destruct (location_uri loc) as [uri|]; [|discriminate].
  destruct (str_truthy uri && startswith "file://" uri); [|discriminate].
  destruct (location_line loc) as [line0|]; [|discriminate].
  destruct (locate_fqn _ _ line0) as [f|] eqn:Hl; [|intros [= <-]; auto].
  destruct (str_truthy f); intros [= <-]; [|auto].
  right. destruct (locate_fqn_sound _ _ _ _ _ _ Hl) as (info & Hin & Hf & _).
  eauto.
Qed.

Lemma resolve_all_calls w root idx (infos : list (string * FunctionInfo)) log :
  Forall2 (fun kv kv' =>
             unresolved_sites kv'.2 = []
             /\ calls kv'.2
                = list_to_set (omap (site_outcome w root idx) (unresolved_sites kv.2))
                  ∪ calls kv.2)
          infos (resolve_all w root idx infos log).1.
Proof.
  revert log. induction infos as [|[k info] infos IH]; intros log.
  - constructor.
  - rewrite resolve_all_cons. cbn [fst snd]. constructor; [|apply IH].
    split; [reflexivity | apply resolve_info_calls].
Qed.

Lemma resolve_effect_records w root idx (L : list FunctionInfo)
    (d d' : list (string * FunctionInfo)) :
  (forall cs t, site_outcome w root idx cs = Some t ->
     t = target_simple cs \/ exists info, info ∈ L /\ fqn info = t) ->
  Forall2 same_meta d d' ->
  Forall2 (fun kv kv' =>
             unresolved_sites kv'.2 = []
             /\ calls kv'.2
                = list_to_set (omap (site_outcome w root idx) (unresolved_sites kv.2))
                  ∪ calls kv.2) d d' ->
  Forall2 (fun kv kv' =>
             same_meta kv kv'
             /\ unresolved_sites kv'.2 = []
             /\ calls kv.2 ⊆ calls kv'.2
             /\ forall t, t ∈ calls kv'.2 ->
                  t ∈ calls kv.2
                  \/ (exists cs, cs ∈ unresolved_sites kv.2 /\ target_simple cs = t)
                  \/ (exists info, info ∈ L /\ fqn info = t))
          d d'.
Proof.
  intros Horigin Hm. induction Hm as [|kv kv' d d' Hsm _ IH]; intros Hc; [constructor|].
  apply Forall2_cons_1 in Hc as [[Hu Hcalls] Hc].
  constructor; [|apply IH, Hc].
  split; [exact Hsm|]. split; [exact Hu|]. rewrite Hcalls. split; [set_solver|].
  intros t Ht. apply elem_of_union in Ht as [Ht|Ht]; [|auto].
  apply elem_of_list_to_set, list_elem_of_omap in Ht as (cs & Hcs & Ho).
  destruct (Horigin _ _ Ho) as [->|H]; eauto.
Qed.

Lemma resolve_with_lsp_records w (infos infos' : list (string * FunctionInfo))
    root log :
  resolve_with_lsp w infos root = (Ok infos', log) ->
  Forall2 (request_for root) (all_sites infos) log
  /\ Forall2 (fun kv kv' =>
                same_meta kv kv'
                /\ unresolved_sites kv'.2 = []
                /\ calls kv.2 ⊆ calls kv'.2
                /\ forall t, t ∈ calls kv'.2 ->
                     t ∈ calls kv.2
                     \/ (exists cs, cs ∈ unresolved_sites kv.2 /\ target_simple cs = t)
                     \/ (exists info, info ∈ dict_values infos /\ fqn info = t))
             infos infos'.
Proof.
  unfold resolve_with_lsp. destruct (negb (_MULTILSPY_AVAILABLE w)); [discriminate|].
  pose proof (resolve_all_log w root (build_def_index w infos root) infos []) as Hlog.
  pose proof (resolve_all_meta w root (build_def_index w infos root) infos []) as Hm.
  pose proof (resolve_all_calls w root (build_def_index w infos root) infos []) as Hc.
  destruct (resolve_all w root (build_def_index w infos root) infos []) as [r l].
  simpl in Hlog, Hm, Hc. intros [= <- <-].
  destruct Hlog as (reqs & -> & HF). split; [exact HF|].
  apply (resolve_effect_records w root (build_def_index w infos root)
           (dict_values infos) infos r); [|exact Hm|exact Hc].
  intros cs t. apply site_outcome_origin.
Qed.

(** X6: a resolution pass sends exactly one definition request per pending
    site, in the order of the records and of their sites, for the
    project-relative file, the line counted from one and the unchanged
    column.  It keeps the keys, order and metadata of the records, clears
    their pending sites, never removes a call, and adds to a record only
    simple names of its own pending sites or fqns of records of the
    project. *)
Theorem resolve_with_lsp_effect w (infos infos' : list (string * FunctionInfo))
    root log :
  resolve_with_lsp w infos root = (Ok infos', log) ->
  Forall2 (request_for root) (all_sites infos) log
  /\ Forall2 (fun kv kv' =>
                same_meta kv kv'
                /\ unresolved_sites kv'.2 = []
                /\ calls kv.2 ⊆ calls kv'.2
                /\ forall t, t ∈ calls kv'.2 ->
                     t ∈ calls kv.2
                     \/ (exists cs, cs ∈ unresolved_sites kv.2 /\ target_simple cs = t)
                     \/ (exists info, info ∈ dict_values infos /\ fqn info = t))
             infos infos'.
Proof. apply resolve_with_lsp_records. Qed.

(** A witness of X6: the one pending site of [a.b.java] gives one request,
    for line 2 and column 13 of [a.b.java]. *)
Lemma resolve_with_lsp_effect_witness :
  Forall2 (request_for Examples.proj)
          (all_sites [("a.b.c", Examples.abc_pending)])
          [{| req_file := "a.b.java"; req_line := 2; req_column := 13 |}].
Proof.
  apply (proj1 (resolve_with_lsp_effect Examples.abc_lsp_world
                  [("a.b.c", Examples.abc_pending)]
                  [("a.b.c", Examples.abc_resolved)] Examples.proj
                  [{| req_file := "a.b.java"; req_line := 2; req_column := 13 |}]
                  ltac:(vm_compute; reflexivity))).
Defined.

(** ** Indexing a project *)

Lemma for_each_app {A S} (xs ys : list A) (body : S -> A -> result S) acc :
  for_each (xs ++ ys) body acc = (acc' ← for_each xs body acc; for_each ys body acc').
Proof.
  revert acc. induction xs as [|x xs IH]; intros acc; simpl; [reflexivity|].
  destruct (body acc x) as [acc1|e]; simpl; [apply IH | reflexivity].
Qed.

(** X7: a Java file that cannot be read stops the indexing of the whole
    project with the error of that file, whatever was indexed before it; the
    pipeline returns that error and no graph. *)
Theorem collect_infos_stops_at_unreadable_file w root use_lsp before p after e :
  rglob_java w root = before ++ p :: after ->
  is_ok (for_each before (collect_file w root use_lsp) []) = true ->
  read_and_parse w p = Raise e ->
  collect_infos w root use_lsp = Raise e
  /\ (is_dir w root = true ->
      extract_java_project_call_graph w root use_lsp = (Raise e, [])).
Proof.
  intros Hfiles Hbefore Hread.
  assert (Hc : collect_infos w root use_lsp = Raise e).
  { unfold collect_infos. rewrite Hfiles, for_each_app.
    destruct (for_each before _ _) as [d|]; [|discriminate].
    assert (Hp : collect_file w root use_lsp d p = Raise e)
      by (unfold collect_file; rewrite Hread; reflexivity).
    cbn [mbind result_bind for_each]. rewrite Hp. reflexivity. }
  split; [exact Hc|].
  intros Hd. unfold extract_java_project_call_graph. rewrite Hd, Hc. reflexivity.
Qed.

(** A witness of X7: [Gone.java] cannot be read after [Foo.java] was
    indexed. *)
Lemma collect_infos_stops_at_unreadable_file_witness :
  collect_infos Examples.unreadable_file_world Examples.proj false
  = Raise (OSError "Permission denied").
Proof.
  apply (proj1 (collect_infos_stops_at_unreadable_file Examples.unreadable_file_world
                  Examples.proj false [Examples.Foo_java] Examples.Gone_java []
                  (OSError "Permission denied") eq_refl eq_refl eq_refl)).
Defined.

Lemma string_app_assoc (a b c : string) : (a +:+ b) +:+ c = a +:+ b +:+ c.
Proof.
  induction a as [|x a IH]; [reflexivity|].
  change (String x ((a +:+ b) +:+ c) = String x (a +:+ b +:+ c)).
  rewrite IH. reflexivity.
Qed.

Lemma join_snoc sep (l : list string) x :
  l <> [] -> join sep (l ++ [x]) = join sep l +:+ sep +:+ x.
Proof.
  induction l as [|a l IH]; intros Hne; [congruence|].
  destruct l as [|b l]; [reflexivity|].
  change (join sep ((a :: b :: l) ++ [x]))
    with (a +:+ sep +:+ join sep ((b :: l) ++ [x])).
  rewrite IH by discriminate.
  change (join sep (a :: b :: l)) with (a +:+ sep +:+ join sep (b :: l)).
  rewrite !string_app_assoc. reflexivity.
Qed.

Lemma fqn_of_shape pkg classes java_path name :
  exists prefix, fqn_of pkg classes java_path name = prefix +:+ "." +:+ name.
Proof.
  unfold fqn_of. eexists. apply join_snoc.
  destruct classes; destruct pkg as [p|]; try destruct (str_truthy p); discriminate.
Qed.

Lemma dotted_truthy (prefix name : string) : str_truthy (prefix +:+ "." +:+ name) = true.
Proof. destruct prefix; reflexivity. Qed.

Lemma stored_invariant (P : FunctionInfo -> Prop) {A} (f : A -> result FunctionInfo)
    (xs : list A) d0 d :
  (forall x info, x ∈ xs -> f x = Ok info -> P info) ->
  (forall k i, (k, i) ∈ d0 -> P i) ->
  for_each xs (fun infos x => info ← f x; Ok (store infos info)) d0 = Ok d ->
  forall k i, (k, i) ∈ d -> P i.
Proof.
  revert d0. induction xs as [|x xs IH]; intros d0 Hf H0; simpl.
  - intros [= <-]. exact H0.
  - intros H. apply bind_Ok in H as (d1 & H1 & H2).
    apply bind_Ok in H1 as (info & Hx & [= <-]).
    apply (IH (store d0 info)); [intros y i Hy; apply Hf; right; exact Hy| |exact H2].
    intros k i Hin. apply dict_set_elem in Hin as [[= -> ->]|Hin].
    + apply (Hf x info); [left | exact Hx].
    + apply (H0 k i Hin).
Qed.

Lemma collect_infos_invariant (P : FunctionInfo -> Prop) w root use_lsp infos :
  (forall java_path pkg cls_nodes node info,
     java_path ∈ rglob_java w root ->
     collect_method w root java_path use_lsp pkg cls_nodes node = Ok info -> P info) ->
  collect_infos w root use_lsp = Ok infos ->
  forall k i, (k, i) ∈ infos -> P i.
Proof.
  intros HP. unfold collect_infos.
  assert (H : forall (files : list Path) d0 d,
             (forall p, p ∈ files -> p ∈ rglob_java w root) ->
             (forall k i, (k, i) ∈ d0 -> P i) ->
             for_each files (collect_file w root use_lsp) d0 = Ok d ->
             forall k i, (k, i) ∈ d -> P i).
  { induction files as [|p files IH]; intros d0 d Hfiles H0; simpl.
    - intros [= <-]. exact H0.
    - intros H. apply bind_Ok in H as (d1 & H1 & H2).
      apply (IH d1 d); [intros q Hq; apply Hfiles; right; exact Hq | | exact H2].
      unfold collect_file in H1. apply bind_Ok in H1 as (tree & _ & H1).
      eapply (stored_invariant P); [|exact H0|exact H1].
      intros node info _ Hm. eapply HP; [apply Hfiles; left | exact Hm]. }
  intros Hc. apply (H _ [] infos (fun p Hp => Hp)); [|exact Hc].
  intros k i Hin. apply elem_of_nil in Hin as [].
Qed.

(** Every record of the index was built by [collect_method] from a
    declaration captured in the tree of a discovered file. *)
Lemma collect_infos_origin (P : FunctionInfo -> Prop) w root use_lsp infos :
  (forall java_path tree node info,
     java_path ∈ rglob_java w root ->
     read_and_parse w java_path = Ok tree ->
     node ∈ captured "meth" (captures METHOD_QUERY tree) ->
     collect_method w root java_path use_lsp (pkg_name tree PACKAGE_QUERY)
       (map fst (captures CLASS_QUERY tree)) node = Ok info ->
     P info) ->
  collect_infos w root use_lsp = Ok infos ->
  forall k i, (k, i) ∈ infos -> P i.
Proof.
  intros HP. unfold collect_infos.
  assert (H : forall (files : list Path) d0 d,
             (forall p, p ∈ files -> p ∈ rglob_java w root) ->
             (forall k i, (k, i) ∈ d0 -> P i) ->
             for_each files (collect_file w root use_lsp) d0 = Ok d ->
             forall k i, (k, i) ∈ d -> P i).
  { induction files as [|p files IH]; intros d0 d Hfiles H0; simpl.
    - intros [= <-]. exact H0.
    - intros H. apply bind_Ok in H as (d1 & H1 & H2).
      apply (IH d1 d); [intros q Hq; apply Hfiles; right; exact Hq | | exact H2].
      unfold collect_file in H1. apply bind_Ok in H1 as (tree & Htree & H1).
      eapply (stored_invariant P); [|exact H0|exact H1].
      intros node info Hnode Hm.
      eapply (HP p tree node); [apply Hfiles; left | exact Htree | exact Hnode | exact Hm]. }
  intros Hc. apply (H _ [] infos (fun p Hp => Hp)); [|exact Hc].
  intros k i Hin. apply elem_of_nil in Hin as [].
Qed.

(** X8: the index of a project has no key twice, and every record in it is
    stored under its own fqn and was read from a declaration of a discovered
    Java file: the fqn is not empty and ends with a dot and the text of the
    declaration's name node, the file is the project-relative form of that
    Java file, the start line is the line of the name node and the end line
    the last line of the declaration.  In semantic mode the record has no
    call yet, in syntactic mode no pending site. *)
Theorem indexed_records_wellformed w root use_lsp infos :
  collect_infos w root use_lsp = Ok infos ->
  NoDup (dict_keys infos)
  /\ forall k info, (k, info) ∈ infos ->
       fqn info = k
       /\ str_truthy k = true
       /\ (exists java_path tree node name_node prefix,
             java_path ∈ rglob_java w root
             /\ read_and_parse w java_path = Ok tree
             /\ node ∈ captured "meth" (captures METHOD_QUERY tree)
             /\ first_item (captured "meth_name" (captures METHOD_QUERY node))
                = Ok name_node
             /\ k = prefix +:+ "." +:+ text name_node
             /\ rel root java_path = Ok (file_path info)
             /\ start_line info = (start_point name_node).1
             /\ end_line info = (end_point node).1)
       /\ (if use_lsp then calls info = ∅ else unresolved_sites info = []).
Proof.
  intros Hc. split.
  - destruct (collect_infos_records _ _ _ _ Hc) as (recs & _ & ->).
    apply (stored_keys recs []); [apply NoDup_nil_2|].
    intros k i H. apply elem_of_nil in H as [].
  - intros k info Hin.
    pose proof (collect_infos_key _ _ _ _ _ _ Hc Hin) as Hk. subst k.
    refine (collect_infos_origin
             (fun info =>
                fqn info = fqn info
                /\ str_truthy (fqn info) = true
                /\ (exists java_path tree node name_node prefix,
                      java_path ∈ rglob_java w root
                      /\ read_and_parse w java_path = Ok tree
                      /\ node ∈ captured "meth" (captures METHOD_QUERY tree)
                      /\ first_item (captured "meth_name" (captures METHOD_QUERY node))
                         = Ok name_node
                      /\ fqn info = prefix +:+ "." +:+ text name_node
                      /\ rel root java_path = Ok (file_path info)
                      /\ start_line info = (start_point name_node).1
                      /\ end_line info = (end_point node).1)
                /\ (if use_lsp then calls info = ∅ else unresolved_sites info = []))
             w root use_lsp infos ?[HP] Hc (fqn info) info Hin).
    clear. intros java_path tree node info Hp Htree Hnode. unfold collect_method.
    destruct (first_item (captured "meth_name" _)) as [name_node|] eqn:Hname;
      [|discriminate].
    destruct (first_item (captured "body" _)) as [body_node|]; [|discriminate].
    destruct (class_stack _ _ _) as [classes|]; [|discriminate].
    destruct (rel root java_path) as [file|] eqn:Hrel; [|discriminate].
    simpl. intros [= <-].
    match goal with |- context [fold_left _ ?l ?i] =>
      destruct (record_calls_meta w use_lsp java_path l i) as (Hfqn & Hfile & Hs & He)
    end.
    simpl in Hfqn, Hfile, Hs, He.
    destruct (fqn_of_shape (pkg_name tree PACKAGE_QUERY) classes java_path
                (text name_node)) as (prefix & Hshape).
    split; [reflexivity|]. split.
    { rewrite Hfqn, Hshape. apply dotted_truthy. }
    split.
    { exists java_path, tree, node, name_node, prefix.
      split; [exact Hp|]. split; [exact Htree|]. split; [exact Hnode|].
      split; [exact Hname|]. split; [rewrite Hfqn; exact Hshape|].
      split; [rewrite Hfile; exact Hrel|]. split; [exact Hs | exact He]. }
    destruct use_lsp.
    + match goal with |- context [fold_left _ ?l ?i] =>
        destruct (record_calls_semantic w java_path l i) as [H _] end.
      rewrite H. reflexivity.
    + match goal with |- context [fold_left _ ?l ?i] =>
        destruct (record_calls_syntactic w java_path l i) as [_ H] end.
      rewrite H. reflexivity.
Qed.

(** A witness of X8 on the project [Foo.java]. *)
Lemma indexed_records_wellformed_witness :
  NoDup ["Foo.bar"]
  /\ str_truthy "Foo.bar" = true
  /\ exists name_node prefix,
       "Foo.bar" = prefix +:+ "." +:+ text name_node
       /\ (start_point name_node).1 = 0%Z.
Proof.
  pose (info := {| fqn := "Foo.bar"; file_path := "Foo.java"; start_line := 0;
                   end_line := 0; calls := ∅; unresolved_sites := [] |}).
  destruct (indexed_records_wellformed Examples.Foo_world Examples.proj false
              [("Foo.bar", info)] ltac:(vm_compute; reflexivity)) as [Hnd Hrec].
  split; [exact Hnd|].
  destruct (Hrec "Foo.bar" info ltac:(left))
    as (_ & Ht & (p & tree & node & name_node & prefix & _ & _ & _ & _ & Hk & _ & Hs & _)
        & _).
  split; [exact Ht|].
  exists name_node, prefix. split; [exact Hk|]. symmetry. exact Hs.
Defined.

(** ** Relative paths and back *)

Lemma split_on_nonempty c s : split_on c s <> [].
Proof.
  destruct s as [|a s]; simpl; [discriminate|].
  destruct (Ascii.eqb a c); [discriminate|].
  destruct (split_on c s); discriminate.
Qed.

Lemma split_on_plain c x : has_char c x = false -> split_on c x = [x].
Proof.
  induction x as [|a x IH]; simpl; [reflexivity|].
  intros H. apply orb_false_iff in H as [Ha Hx]. rewrite Ha, (IH Hx). reflexivity.
Qed.

Lemma split_on_sep c x t :
  has_char c x = false -> split_on c (x +:+ String c t) = x :: split_on c t.
Proof.
  induction x as [|a x IH]; intros H.
  - simpl. rewrite Ascii.eqb_refl. reflexivity.
  - simpl in H. apply orb_false_iff in H as [Ha Hx].
    change (String a x +:+ String c t) with (String a (x +:+ String c t)).
    simpl. rewrite Ha, (IH Hx). reflexivity.
Qed.

Lemma split_on_join c (l : list string) :
  l <> [] -> Forall (fun x => has_char c x = false) l ->
  split_on c (join (String c "") l) = l.
Proof.
  induction l as [|x l IH]; intros Hne Hall; [congruence|].
  apply Forall_cons in Hall as [Hx Hall].
  destruct l as [|y l]; [simpl; apply split_on_plain; exact Hx|].
  change (join (String c "") (x :: y :: l))
    with (x +:+ String c (join (String c "") (y :: l))).
  rewrite (split_on_sep c x _ Hx), IH; [reflexivity | discriminate | exact Hall].
Qed.

Lemma filter_all {A} (P : A -> Prop) `{forall x, Decision (P x)} (l : list A) :
  Forall P l -> filter P l = l.
Proof.
  induction 1 as [|x l Hx _ IH]; [reflexivity|].
  rewrite filter_cons_True by exact Hx. rewrite IH. reflexivity.
Qed.

Lemma join_plain_not_absolute (l : list string) :
  l <> [] -> Forall plain_component l -> startswith "/" (join "/" l) = false.
Proof.
  intros Hne Hall. destruct l as [|x l]; [congruence|].
  apply Forall_cons in Hall as [(Hx & _ & Hs) _].
  destruct x as [|a x]; [congruence|]. simpl in Hs.
  apply orb_false_iff in Hs as [Ha _].
  assert (Hj : exists rest, join "/" (String a x :: l) = String a rest).
  { destruct l; simpl; eauto. }
  destruct Hj as (rest & ->). unfold startswith.
  change (String.prefix "/" (String a rest))
    with (if Ascii.ascii_dec "/" a then String.prefix "" rest else false).
  destruct (Ascii.ascii_dec "/" a) as [<-|]; [|reflexivity].
  rewrite Ascii.eqb_refl in Ha. discriminate.
Qed.

Lemma Path_of_str_join (rest : list string) :
  Forall plain_component rest ->
  Path_of_str (path_str (mkPath NoRoot rest)) = mkPath NoRoot rest.
Proof.
  intros Hall. destruct rest as [|x rest]; [vm_compute; reflexivity|].
  unfold path_str. cbn [anchor parts root_str].
  change ("" +:+ join "/" (x :: rest)) with (join "/" (x :: rest)).
  unfold Path_of_str, root_of_str.
  rewrite join_plain_not_absolute by (discriminate || exact Hall).
  rewrite (split_on_join "/"); [|discriminate|].
  - rewrite filter_all; [reflexivity|].
    eapply Forall_impl; [exact Hall|]. intros s (H1 & H2 & _). auto.
  - eapply Forall_impl; [exact Hall|]. intros s (_ & _ & H3). exact H3.
Qed.

(** X9: for a path under the root whose components are plain, joining the
    root with what [rel] returns gives the path back; so the index key of a
    record, which [resolve_with_lsp] rebuilds from the project-relative
    file, is the resolved path of the file the record was read from. *)
Theorem joinpath_rel_roundtrip root path s :
  lies_under root path ->
  Forall plain_component (parts path) ->
  rel root path = Ok s ->
  joinpath root s = path
  /\ forall w info, file_path info = s -> info_abs_path w root info = resolve w path.
Proof.
  intros [Ha (rest & Hp)] Hall Hrel.
  rewrite (rel_under root path rest Ha Hp) in Hrel. injection Hrel as <-.
  assert (Hj : joinpath root (path_str (mkPath NoRoot rest)) = path).
  { unfold joinpath. rewrite Path_of_str_join.
    - simpl. destruct path as [a ps]. simpl in *. subst. reflexivity.
    - rewrite Hp in Hall. apply Forall_app in Hall as [_ H]. exact H. }
  split; [exact Hj|].
  intros w info Hf. unfold info_abs_path. rewrite Hf, Hj. reflexivity.
Qed.

(** A witness of X9. *)
Lemma joinpath_rel_roundtrip_witness :
  joinpath (mkPath OneSlash ["proj"]) "src/A.java"
  = mkPath OneSlash ["proj"; "src"; "A.java"].
Proof.
  apply (proj1 (joinpath_rel_roundtrip (mkPath OneSlash ["proj"])
                  (mkPath OneSlash ["proj"; "src"; "A.java"]) "src/A.java"
                  (conj eq_refl (ex_intro _ ["src"; "A.java"] eq_refl))
                  ltac:(repeat constructor; discriminate)
                  eq_refl)).
Defined.

(** ** More on the runs of the scripts *)

(** X10: for a root that is not a directory the pipeline exits at once with
    the message naming the root; it issues no request and returns no graph,
    the single-project script writes nothing, and a multi-project run that
    has this root in its list writes nothing for any project. *)
Theorem invalid_root_fails w root use_lsp :
  is_dir w root = false ->
  extract_java_project_call_graph w root use_lsp
  = (Raise (SystemExit ("Not a directory: " +:+ path_str root)), [])
  /\ (forall output,
        resolve w root = root ->
        main w root use_lsp output
        = ([], Raise (SystemExit ("Not a directory: " +:+ path_str root))))
  /\ (forall args tr st,
        Multi.lsp args = use_lsp -> root ∈ Multi.projects args ->
        Multi.main w args tr st ->
        Multi.written tr = [] /\ st <> Ok tt).
Proof.
  intros Hd.
  assert (He : extract_java_project_call_graph w root use_lsp
               = (Raise (SystemExit ("Not a directory: " +:+ path_str root)), [])).
  { unfold extract_java_project_call_graph. rewrite Hd. reflexivity. }
  split; [exact He|]. split.
  - intros output Hr. unfold main. rewrite Hr, He. reflexivity.
  - intros args tr st Hlsp Hin Hmain.
    destruct (main_outputs _ _ _ _ Hmain) as (k & Hk & _ & _ & Hpipe & _).
    destruct Hpipe as [-> Hst]; [|split; [exact Hk | exact Hst]].
    exists (Multi.async_extract_java_project_call_graph root (Multi.lsp args) None),
           (SystemExit ("Not a directory: " +:+ path_str root)).
    split.
    + unfold Multi.main_tasks. apply list_elem_of_fmap. exists root. auto.
    + unfold Multi.task_result. simpl. rewrite Hlsp, He. reflexivity.
Qed.

(** A witness of X10: the missing root [/work/p1]. *)
Lemma invalid_root_fails_witness :
  extract_java_project_call_graph Examples.second_root_missing
    (Examples.project "p1") false
  = (Raise (SystemExit "Not a directory: /work/p1"), []).
Proof.
  apply (proj1 (invalid_root_fails Examples.second_root_missing
                  (Examples.project "p1") false eq_refl)).
Defined.

Lemma dispatch_wrote w output (results : list (DiGraph * Path)) i j dir doc :
  WroteGraph j dir doc ∈ (Multi.dispatch w output i results).1 ->
  exists g root,
    (i <= j)%nat /\ results !! (j - i)%nat = Some (g, root)
    /\ dir = project_dir output root /\ doc = graph_document g
    /\ write_files w j dir doc = Ok tt.
Proof.
  revert i. induction results as [|[g root] results IH]; intros i.
  - simpl. intros H. apply elem_of_nil in H as [].
  - cbn [Multi.dispatch]. fold (project_dir output root).
    assert (Hstep : forall evs,
              (forall e, e ∈ evs -> e <> WroteGraph j dir doc) ->
              WroteGraph j dir doc
              ∈ (match write_files w i (project_dir output root) (graph_document g) with
                 | Ok _ =>
                     let '(evs', st) := Multi.dispatch w output (S i) results in
                     (evs ++ [WroteGraph i (project_dir output root) (graph_document g);
                              PrintedWrote (project_dir output root)] ++ evs', st)
                 | Raise (OSError m) =>
                     (evs ++ [PrintedFailure (project_dir output root);
                              PrintedError (OSError m)], Raise (SystemExit ""))
                 | Raise e => (evs, Raise e)
                 end).1 ->
              exists g0 root0,
                (i <= j)%nat /\ ((g, root) :: results) !! (j - i)%nat = Some (g0, root0)
                /\ dir = project_dir output root0 /\ doc = graph_document g0
                /\ write_files w j dir doc = Ok tt).
    { intros evs Hevs.
      destruct (write_files w i (project_dir output root) (graph_document g))
        as [[]|e] eqn:Hw.
      - destruct (Multi.dispatch w output (S i) results) as [evs' st'] eqn:Hd.
        cbn [fst]. intros Hin.
        apply elem_of_app in Hin as [Hin|Hin]; [exfalso; apply (Hevs _ Hin); reflexivity|].
        apply elem_of_cons in Hin as [[= -> -> ->]|Hin].
        + exists g, root. rewrite Nat.sub_diag. repeat split; auto.
        + apply elem_of_cons in Hin as [Hin|Hin]; [discriminate Hin|].
          specialize (IH (S i)). rewrite Hd in IH.
          destruct (IH Hin) as (g0 & root0 & Hle & Hl & H1 & H2 & H3).
          exists g0, root0. split; [lia|]. split; [|auto].
          replace (j - i)%nat with (S (j - S i)) by lia. exact Hl.
      - destruct e; cbn [fst]; intros Hin;
          try (exfalso; apply (Hevs _ Hin); reflexivity).
        apply elem_of_app in Hin as [Hin|Hin]; [exfalso; apply (Hevs _ Hin); reflexivity|].
        repeat (apply elem_of_cons in Hin as [Hin|Hin]; [discriminate Hin|]).
        apply elem_of_nil in Hin as []. }
    destruct (os_mkdir w i (project_dir output root)) as [[]|e0].
    + apply Hstep. intros e He. apply elem_of_nil in He as [].
    + destruct e0; try (simpl; intros H; apply elem_of_nil in H as []).
      apply Hstep. intros e He. apply list_elem_of_singleton in He as ->. discriminate.
Qed.

(** X11: every output a multi-project run writes belongs to a project of
    the list: the write with number [i] goes to the directory named after
    the base name of the [i]-th root under the output directory, carries the
    document of the graph that root's pipeline returned, and succeeded. *)
Theorem written_outputs_are_project_graphs w args tr st :
  Multi.main w args tr st ->
  forall i dir doc,
    WroteGraph i dir doc ∈ tr ->
    exists root G,
      Multi.projects args !! i = Some root
      /\ Multi.task_result w
           (Multi.async_extract_java_project_call_graph root (Multi.lsp args) None)
         = Ok G
      /\ dir = project_dir (Multi.output args) root
      /\ doc = graph_document G
      /\ write_files w i dir doc = Ok tt.
Proof.
  assert (Hpool : forall tr0 i dir doc,
            Forall (fun e => is_pool_event e = true) tr0 ->
            WroteGraph i dir doc ∉ tr0).
  { intros tr0 i dir doc Hall Hin. rewrite Forall_forall in Hall.
    specialize (Hall _ Hin). discriminate Hall. }
  destruct 1 as [e _|pool tr s i0 t e _ Hrun _ _ _
                 |pool tr s results evs st _ Hrun _ _ Hg Hd]; intros i dir doc Hin.
  - apply elem_of_nil in Hin as [].
  - exfalso. apply (Hpool _ _ _ _ (pool_run_events _ _ _ _ Hrun) Hin).
  - apply elem_of_app in Hin as [Hin|Hin];
      [exfalso; apply (Hpool _ _ _ _ (pool_run_events _ _ _ _ Hrun) Hin)|].
    pose proof (dispatch_wrote w (Multi.output args) results 0 i dir doc) as Hw.
    rewrite Hd in Hw. destruct (Hw Hin) as (g & root & _ & Hl & H1 & H2 & H3).
    rewrite Nat.sub_0_r in Hl.
    pose proof (gathered_Some _ _ _ Hg) as HF.
    destruct (Forall2_lookup_r _ _ _ _ _ HF Hl) as (t & Ht & Hres & Hroot).
    simpl in Hres, Hroot. unfold Multi.main_tasks in Ht.
    rewrite list_lookup_fmap in Ht.
    destruct (Multi.projects args !! i) as [root'|] eqn:Hp; [|discriminate].
    simpl in Ht. injection Ht as <-. simpl in Hroot. subst root'.
    exists root, g. auto.
Qed.

(** A witness of X11 on the run of two projects. *)
Lemma written_outputs_are_project_graphs_witness :
  exists root G,
    Multi.projects Examples.two_projects !! 1%nat = Some root
    /\ Multi.task_result Examples.nothing_fails
         (Multi.async_extract_java_project_call_graph root
            (Multi.lsp Examples.two_projects) None) = Ok G
    /\ mkPath OneSlash ["out"; "p1"] = project_dir (Multi.output Examples.two_projects) root
    /\ Examples.empty_doc = graph_document G
    /\ write_files Examples.nothing_fails 1 (mkPath OneSlash ["out"; "p1"])
         Examples.empty_doc = Ok tt.
Proof.
  apply (written_outputs_are_project_graphs _ _ _ _ two_projects_run).
  do 6 right. left.
Defined.

(** X12: with a [--max-workers] value of zero or less the creation of the
    pool raises [ValueError]; the run ends there, before any pipeline is
    started and before anything is written. *)
Theorem nonpositive_max_workers_aborts w args tr st :
  (Multi.arg_max_workers args <= 0)%Z ->
  Multi.main w args tr st ->
  tr = [] /\ st = Raise ValueError.
Proof.
  intros Hle Hmain.
  assert (Hn : Multi.new_executor (Multi.arg_max_workers args) = Raise ValueError).
  { unfold Multi.new_executor.
    destruct (Z.leb_spec (Multi.arg_max_workers args) 0); [reflexivity | exfalso; lia]. }
  destruct Hmain as [e He|pool ? ? ? ? ? Hp|pool ? ? ? ? ? Hp]; try congruence.
  split; [reflexivity | congruence].
Qed.

(** A witness of X12: a run with [--max-workers 0]. *)
Lemma nonpositive_max_workers_aborts_witness :
  Multi.main Examples.nothing_fails Examples.zero_workers [] (Raise ValueError)
  /\ (([] : list Event) = [] /\ (Raise ValueError : result unit) = Raise ValueError).
Proof.
  assert (H : Multi.main Examples.nothing_fails Examples.zero_workers []
                (Raise ValueError))
    by (apply Multi.main_pool_error; reflexivity).
  split; [exact H|].
  apply (nonpositive_max_workers_aborts Examples.nothing_fails Examples.zero_workers
           [] (Raise ValueError) ltac:(simpl; lia) H).
Defined.

Lemma started_app tr1 tr2 : started (tr1 ++ tr2) = started tr1 ++ started tr2.
Proof. unfold started. apply omap_app. Qed.

Lemma pool_run_started tasks s tr s' :
  Multi.pool_run tasks s tr s' ->
  forall a m, Multi.queued s = seq a m ->
  exists k, (k <= m)%nat /\ started tr = seq a k
            /\ Multi.queued s' = seq (a + k) (m - k).
Proof.
  induction 1 as [s|s e s' tr s'' Hstep _ IH]; intros a m Hq.
  - exists 0%nat. rewrite Nat.add_0_r, Nat.sub_0_r. split; [lia|]. auto.
  - destruct Hstep as [s i q t Hqi _ _|s i _].
    + rewrite Hq in Hqi. destruct m as [|m]; [discriminate|].
      simpl in Hqi. injection Hqi as <- <-.
      destruct (IH (S a) m eq_refl) as (k & Hk & Hs & Hq').
      exists (S k). split; [lia|]. split.
      * change (started (Started a :: tr)) with (a :: started tr).
        rewrite Hs. reflexivity.
      * rewrite Hq'. f_equal; lia.
    + destruct (IH a m Hq) as (k & Hk & Hs & Hq'). exists k. auto.
Qed.

(** X13: the pipelines of a multi-project run are started in the order of
    the project list, without gaps: the tasks started are the first [k] of
    the list, and all of them when the run returns normally. *)
Theorem pipelines_start_in_list_order w args tr st :
  Multi.main w args tr st ->
  exists k, (k <= length (Multi.projects args))%nat
            /\ started tr = seq 0 k
            /\ (st = Ok tt -> k = length (Multi.projects args)).
Proof.
  destruct 1 as [e _|pool tr s i t e _ Hrun _ _ _
                 |pool tr s results evs st _ Hrun Hq _ _ Hd].
  - exists 0%nat. split; [lia|]. split; [reflexivity | discriminate].
  - destruct (pool_run_started _ _ _ _ Hrun 0%nat _ eq_refl) as (k & Hk & Hs & _).
    rewrite main_tasks_length in Hk.
    exists k. split; [exact Hk|]. split; [exact Hs | discriminate].
  - destruct (pool_run_started _ _ _ _ Hrun 0%nat _ eq_refl) as (k & Hk & Hs & Hq').
    rewrite Hq in Hq'. rewrite main_tasks_length in Hk, Hq'.
    destruct (dispatch_written _ _ _ _ _ _ Hd) as (Hev & _).
    exists k. split; [exact Hk|]. split.
    + rewrite started_app, Hs.
      replace (started evs) with (@nil nat); [apply app_nil_r|].
      clear -Hev. induction Hev as [|e evs He _ IH]; [reflexivity|].
      destruct e; try discriminate; exact IH.
    + intros _. symmetry in Hq'. apply (f_equal length) in Hq'.
      rewrite length_seq in Hq'. simpl in Hq'. lia.
Qed.

(** A witness of X13 on the run of two projects. *)
Lemma pipelines_start_in_list_order_witness :
  exists k, (k <= 2)%nat
            /\ started [ Started 0; Finished 0; Started 1; Finished 1;
                         WroteGraph 0 (mkPath OneSlash ["out"; "p0"]) Examples.empty_doc;
                         PrintedWrote (mkPath OneSlash ["out"; "p0"]);
                         WroteGraph 1 (mkPath OneSlash ["out"; "p1"]) Examples.empty_doc;
                         PrintedWrote (mkPath OneSlash ["out"; "p1"]) ]
               = seq 0 k
            /\ ((Ok tt : result unit) = Ok tt -> k = 2%nat).
Proof.
  apply (pipelines_start_in_list_order _ _ _ _ two_projects_run).
Defined.

(** ** The edges of a project's graph *)

Lemma collect_infos_NoDup w root use_lsp infos :
  collect_infos w root use_lsp = Ok infos -> NoDup (dict_keys infos).
Proof.
  intros Hc. destruct (collect_infos_records _ _ _ _ Hc) as (recs & _ & ->).
  apply (stored_keys recs []); [apply NoDup_nil_2|].
  intros k i H. apply elem_of_nil in H as [].
Qed.

Lemma semantic_index_no_calls w root infos k info :
  collect_infos w root true = Ok infos -> (k, info) ∈ infos -> calls info = ∅.
Proof.
  intros Hc Hin.
  refine (collect_infos_invariant (fun info => calls info = ∅) w root true infos
            ?[HP] Hc k info Hin).
  clear. intros java_path pkg cls_nodes node info _. unfold collect_method.
  destruct (first_item (captured "meth_name" _)) as [name_node|]; [|discriminate].
  destruct (first_item (captured "body" _)) as [body_node|]; [|discriminate].
  destruct (class_stack _ _ _) as [classes|]; [|discriminate].
  destruct (rel root java_path) as [file|]; [|discriminate].
  simpl. intros [= <-].
  match goal with |- context [fold_left _ ?l ?i] =>
    destruct (record_calls_semantic w java_path l i) as [H _] end.
  rewrite H. reflexivity.
Qed.

Lemma declared_fqn_lookup w root use_lsp infos info :
  collect_infos w root use_lsp = Ok infos -> info ∈ dict_values infos ->
  dict_get infos (fqn info) = Some info.
Proof.
  intros Hc Hin. unfold dict_values in Hin.
  apply list_elem_of_fmap in Hin as ([k i] & -> & Hin). simpl.
  rewrite (collect_infos_key _ _ _ _ _ _ Hc Hin).
  apply dict_elem_get; [apply (collect_infos_NoDup _ _ _ _ Hc) | exact Hin].
Qed.

(** X14: every edge of the graph a pipeline returns starts at a function of
    the index.  In syntactic mode it ends at one of the simple names
    recorded for that function; in semantic mode it ends at the simple name
    of one of the function's pending sites or at a function of the index. *)
Theorem pipeline_edges w root use_lsp G log :
  extract_java_project_call_graph w root use_lsp = (Ok G, log) ->
  exists infos,
    collect_infos w root use_lsp = Ok infos
    /\ forall u v,
         (u, v) ∈ graph_edges G ->
         exists info,
           dict_get infos u = Some info
           /\ if use_lsp
              then (exists cs, cs ∈ unresolved_sites info /\ target_simple cs = v)
                   \/ (exists info', dict_get infos v = Some info')
              else v ∈ calls info.
Proof.
  unfold extract_java_project_call_graph.
  destruct (negb (is_dir w root)); [discriminate|].
  destruct (collect_infos w root use_lsp) as [infos|] eqn:Hc; [|discriminate].
  intros H. exists infos. split; [reflexivity|]. destruct use_lsp.
  - destruct (resolve_with_lsp w infos root) as [[infos'|] log'] eqn:Hr;
      [|discriminate].
    injection H as <- _.
    destruct (resolve_with_lsp_records _ _ _ _ _ Hr) as [_ HF].
    intros u v He.
    apply (proj2 (graph_edges_of_records infos')) in He as (i' & Hi' & Hu & Hv).
    unfold dict_values in Hi'.
    apply list_elem_of_fmap in Hi' as (kv' & -> & Hkv').
    apply list_elem_of_lookup_1 in Hkv' as (j & Hj).
    destruct (Forall2_lookup_r _ _ _ _ _ HF Hj)
      as ([k info] & Hkv & (_ & Hfqn & _) & _ & _ & Horigin).
    simpl in Hfqn, Horigin.
    apply list_elem_of_lookup_2 in Hkv.
    assert (Hval : info ∈ dict_values infos).
    { unfold dict_values. apply list_elem_of_fmap. exists (k, info). auto. }
    exists info. split.
    { rewrite <- Hu, <- Hfqn. apply (declared_fqn_lookup _ _ _ _ _ Hc Hval). }
    destruct (Horigin v Hv) as [Hcalls|[Hsite|(info' & Hin' & Hf')]].
    + rewrite (semantic_index_no_calls _ _ _ _ _ Hc Hkv) in Hcalls. set_solver.
    + left. exact Hsite.
    + right. exists info'. rewrite <- Hf'.
      apply (declared_fqn_lookup _ _ _ _ _ Hc Hin').
  - injection H as <- _. intros u v He.
    apply (proj2 (graph_edges_of_records infos)) in He as (info & Hin & Hu & Hv).
    exists info. split; [|exact Hv].
    rewrite <- Hu. apply (declared_fqn_lookup _ _ _ _ _ Hc Hin).
Qed.

(** A witness of X14: the edge of the project [a.b.java] in semantic mode
    starts at the declared [a.b.c] and ends at a declared function. *)
Lemma pipeline_edges_witness :
  exists infos,
    collect_infos Examples.abc_lsp_world Examples.proj true = Ok infos
    /\ forall u v,
         (u, v) ∈ graph_edges (build_graph [("a.b.c", Examples.abc_resolved)]) ->
         exists info,
           dict_get infos u = Some info
           /\ ((exists cs, cs ∈ unresolved_sites info /\ target_simple cs = v)
               \/ (exists info', dict_get infos v = Some info')).
Proof.
  apply (pipeline_edges Examples.abc_lsp_world Examples.proj true
           (build_graph [("a.b.c", Examples.abc_resolved)])
           [{| req_file := "a.b.java"; req_line := 2; req_column := 13 |}]).
  vm_compute. reflexivity.
Defined.

(** ** Witnesses for the graph *)

(** A witness of X1: the edge of the record [a.b.c] that calls [c]. *)
Lemma build_graph_edges_witness :
  ("a.b.c", "c") ∈ graph_edges (build_graph [("a.b.c", Examples.abc_syntactic)]).
Proof.
  apply (proj2 (build_graph_edges [("a.b.c", Examples.abc_syntactic)])).
  exists Examples.abc_syntactic. split; [left|]. split; [reflexivity|].
  unfold Examples.abc_syntactic. cbn [calls]. set_solver.
Defined.

(** A witness of X2: the node [c], which only the edge introduced, has no
    attributes. *)
Lemma build_graph_node_set_witness :
  dict_get (g_node (build_graph [("a.b.c", Examples.abc_syntactic)])) "c" = Some None.
Proof.
  apply (proj1 (proj2 (build_graph_node_set [("a.b.c", Examples.abc_syntactic)]))).
  - vm_compute. right. left.
  - intros info Hin. apply list_elem_of_singleton in Hin as ->. discriminate.
Defined.
